(** * DarkKnight CRM: the calendar connection core

    A shallow embedding of the two serverless proxy functions
    ([supabase/functions/google-auth] and [supabase/functions/google-calendar]),
    of the client hook [useGoogleCalendar] and of the event merge of the
    calendar page, followed by the properties the design document states
    about them.

    Conventions of the embedding:
    - instants are milliseconds since the epoch, in [Z]; a timestamp column
      holds the instant its ISO text denotes ([new Date(s)] of a
      [toISOString()] text gives the instant back);
    - a value that may be [undefined] or [null] is an [option]; the
      truthiness tests of the source are written out ([truthy]);
    - the table store, the identity provider and the calendar provider are
      external: their answers are read from an environment record [Env],
      the requests sent to them are appended to the [trace] of the world;
    - a JSON value is held as the text [JSON.stringify] writes for it;
      what [JSON.parse] makes of a text is read from the environment too;
    - a lifetime in seconds is an integer, and a date is valid within
      8.64e15 milliseconds of the epoch, as in the language;
    - [console.log] and [console.error] are diagnostics and are left out. *)

From Stdlib Require Import ZArith List String Ascii Bool DecimalString Lia.
Import ListNotations.

Local Open Scope string_scope.
Local Open Scope Z_scope.
Local Open Scope list_scope.

Notation "a +++ b" := (String.append a b) (at level 60, right associativity).

(** ** JavaScript values *)

Module Js.

(** [!!s] for a string-or-undefined value: [undefined], [null] and the empty
    text are falsy. *)
Definition truthy (s : option string) : bool :=
  match s with
  | Some EmptyString => false
  | Some _ => true
  | None => false
  end.

(** [a || b] on string-or-undefined values. *)
Definition or_else (a b : option string) : option string :=
  if truthy a then a else b.

(** [n || d] on a number-or-undefined value: [undefined] and [0] are falsy. *)
Definition num_or (n : option Z) (d : Z) : Z :=
  match n with
  | Some 0 => d
  | Some v => v
  | None => d
  end.

(** [response.ok]: the status is in the range 200..299. *)
Definition ok_status (status : Z) : bool := (200 <=? status) && (status <=? 299).

(** The serializer of [URLSearchParams] (application/x-www-form-urlencoded),
    byte by byte on the UTF-8 text: letters, digits and [* - . _] stay, a
    space becomes [+], every other byte becomes [%XX] in upper-case hex. *)
Definition unreserved (c : ascii) : bool :=
  let n := N_of_ascii c in
  ((48 <=? n) && (n <=? 57) || (65 <=? n) && (n <=? 90) || (97 <=? n) && (n <=? 122)
   || (n =? 42) || (n =? 45) || (n =? 46) || (n =? 95))%N.

Definition hex_digit (n : N) : ascii :=
  ascii_of_N (if (n <? 10)%N then 48 + n else 55 + n)%N.

Definition percent_encode (c : ascii) : string :=
  if Ascii.eqb c " "%char then "+"
  else if unreserved c then String c EmptyString
  else let n := N_of_ascii c in
       String "%"%char (String (hex_digit (n / 16)%N) (String (hex_digit (n mod 16)%N) EmptyString)).

Fixpoint form_urlencoded (s : string) : string :=
  match s with
  | EmptyString => EmptyString
  | String c rest => percent_encode c +++ form_urlencoded rest
  end.

End Js.

(** ** The [user_integrations] table *)

Module Store.

Record Integration := mkIntegration {
  user_id : string;
  provider : string;
  access_token : option string;
  refresh_token : option string;
  token_type : option string;
  expires_at : Z;
  enabled : bool;
  created_at : Z;
  updated_at : Z
}.

Definition Table := list Integration.

(** One column of an [update] or [upsert] payload.  A key whose value is
    [undefined] is dropped by [JSON.stringify], so a payload is the list of
    the columns it really carries. *)
Inductive Assign :=
| SetUserId (v : string)
| SetProvider (v : string)
| SetAccessToken (v : string)
| SetRefreshToken (v : string)
| SetTokenType (v : string)
| SetExpiresAt (v : Z)
| SetEnabled (v : bool)
| SetCreatedAt (v : Z)
| SetUpdatedAt (v : Z).

Definition assign (r : Integration) (a : Assign) : Integration :=
  match a with
  | SetUserId v => mkIntegration v (provider r) (access_token r) (refresh_token r) (token_type r) (expires_at r) (enabled r) (created_at r) (updated_at r)
  | SetProvider v => mkIntegration (user_id r) v (access_token r) (refresh_token r) (token_type r) (expires_at r) (enabled r) (created_at r) (updated_at r)
  | SetAccessToken v => mkIntegration (user_id r) (provider r) (Some v) (refresh_token r) (token_type r) (expires_at r) (enabled r) (created_at r) (updated_at r)
  | SetRefreshToken v => mkIntegration (user_id r) (provider r) (access_token r) (Some v) (token_type r) (expires_at r) (enabled r) (created_at r) (updated_at r)
  | SetTokenType v => mkIntegration (user_id r) (provider r) (access_token r) (refresh_token r) (Some v) (expires_at r) (enabled r) (created_at r) (updated_at r)
  | SetExpiresAt v => mkIntegration (user_id r) (provider r) (access_token r) (refresh_token r) (token_type r) v (enabled r) (created_at r) (updated_at r)
  | SetEnabled v => mkIntegration (user_id r) (provider r) (access_token r) (refresh_token r) (token_type r) (expires_at r) v (created_at r) (updated_at r)
  | SetCreatedAt v => mkIntegration (user_id r) (provider r) (access_token r) (refresh_token r) (token_type r) (expires_at r) (enabled r) v (updated_at r)
  | SetUpdatedAt v => mkIntegration (user_id r) (provider r) (access_token r) (refresh_token r) (token_type r) (expires_at r) (enabled r) (created_at r) v
  end.

Definition patch (p : list Assign) (r : Integration) : Integration :=
  fold_left assign p r.

(** A payload entry for a value that may be [undefined]. *)
Definition opt_col (mk : string -> Assign) (v : option string) : list Assign :=
  match v with
  | Some s => [mk s]
  | None => []
  end.

(** The row an insert starts from: every column is null until the payload
    sets it.  Both upserts of the source set the key, the expiry, the flag
    and the two timestamps, so the zero and [false] below never survive. *)
Definition blank : Integration :=
  mkIntegration EmptyString EmptyString None None None 0 false 0 0.

(** [.eq('user_id', u).eq('provider', p)] *)
Definition has_key (u p : string) (r : Integration) : bool :=
  String.eqb (user_id r) u && String.eqb (provider r) p.

(** [.eq('user_id', u).eq('provider', p).eq('enabled', true)] *)
Definition has_key_enabled (u p : string) (r : Integration) : bool :=
  has_key u p r && Bool.eqb (enabled r) true.

(** The error object of the table client. *)
Record PgError := mkPgError { code : string; message : string }.

Definition no_rows : PgError :=
  mkPgError "PGRST116" "JSON object requested, multiple (or no) rows returned".

(** [.single()]: the row when exactly one row matches, the [PGRST116] error
    otherwise. *)
Definition single (rows : list Integration) : option Integration * option PgError :=
  match rows with
  | [r] => (Some r, None)
  | _ => (None, Some no_rows)
  end.

(** [.update(p).eq(...)]: every matching row takes the payload's columns. *)
Definition update (f : Integration -> bool) (p : list Assign) (t : Table) : Table :=
  map (fun r => if f r then patch p r else r) t.

(** [.upsert(p, {onConflict: 'user_id, provider'})]: the row with the
    payload's key takes the payload's columns; without such a row a new one
    is added. *)
Definition upsert (u pr : string) (p : list Assign) (t : Table) : Table :=
  if existsb (has_key u pr) t
  then update (has_key u pr) p t
  else t ++ [patch p blank].

(** The unique constraint the conflict target [user_id, provider] stands
    on: no two rows share the pair. *)
Definition key (r : Integration) : string * string := (user_id r, provider r).

Definition unique_keys (t : Table) : Prop := NoDup (map key t).

End Store.

(** ** The world of a request handler *)

Module Proxy.

Import Store.

(** What the token endpoint of the provider answers: [ok] is
    [response.ok], the other fields are those of the JSON body, [raw] its
    text. *)
Record TokenData := mkTokenData {
  ok : bool;
  td_access_token : option string;
  td_refresh_token : option string;
  td_token_type : option string;
  expires_in : option Z;
  raw : string
}.

Record HttpResponse := mkHttpResponse { http_status : Z; http_text : string }.

(** What [JSON.parse] makes of a text: a value, held here as the text
    [JSON.stringify] writes it back as, or the message of the
    [SyntaxError] it throws. *)
Inductive Parse :=
| Value (normal : string)
| SyntaxError (msg : string).

(** The address of a calendar request.  [google-auth] builds it with
    [URL.searchParams.append]; [google-calendar] interpolates a text. *)
Inductive Target :=
| Built (base : string) (search : list (string * string))
| Interpolated (url : string).

(** The requests a handler sends to the provider, in the order sent. *)
Inductive Outbound :=
| TokenExchange (code : string)
| TokenRefresh (refresh : string)
| CalendarEvents (target : Target) (bearer : option string).

Record Env := mkEnv {
  env_var : string -> option string;            (* Deno.env.get *)
  getUser : string -> option string;            (* supabase.auth.getUser: the user's id *)
  Date_now : nat -> Z;                          (* the k-th reading of the clock *)
  toISOString : Z -> string;
  db_read_error : option PgError;               (* the table client fails a select *)
  db_write_error : option PgError;              (* the table client fails a write *)
  token_exchange : string -> TokenData;         (* grant_type=authorization_code *)
  token_refresh : string -> TokenData;          (* grant_type=refresh_token *)
  calendar_get : Target -> option string -> HttpResponse;
  JSON_parse : string -> Parse
}.

Record World := mkWorld {
  table : Table;
  ticks : nat;                 (* clock readings taken so far *)
  trace : list Outbound
}.

(** The incoming request: the bearer token of the [Authorization] header
    and the query parameters. *)
Record Request := mkRequest {
  token : string;
  query : list (string * string)
}.

(** [url.searchParams.get(k)] *)
Fixpoint searchParams_get (k : string) (q : list (string * string)) : option string :=
  match q with
  | [] => None
  | (k', v) :: q' => if String.eqb k' k then Some v else searchParams_get k q'
  end.

(** The message the callback page posts to its opener. *)
Inductive Posted :=
| PostedText (s : string)
| PostedObject (type : string) (error : option string).

Inductive Body :=
| JsonError (error : string) (details : option string)
| JsonStatusError (error : string) (details : string) (connected : bool)
| JsonConnected (connected : bool)
| JsonSuccess
| JsonText (text : string)
| HtmlPage (title : string) (posted : Posted).

Record Response := mkResponse { status : Z; body : Body }.

Definition connected_of (r : Response) : option bool :=
  match body r with
  | JsonConnected b => Some b
  | JsonStatusError _ _ b => Some b
  | _ => None
  end.

(** A handler step: a value or a thrown [Error] with its message, and the
    world after it. *)
Inductive Outcome (A : Type) :=
| Done (a : A)
| Raised (msg : string).
Arguments Done {A} a.
Arguments Raised {A} msg.

Definition Handler (A : Type) : Type := World -> Outcome A * World.

Definition ret {A} (a : A) : Handler A := fun w => (Done a, w).

Definition throw {A} (msg : string) : Handler A := fun w => (Raised msg, w).

Definition bind {A B} (c : Handler A) (k : A -> Handler B) : Handler B :=
  fun w =>
    match c w with
    | (Done a, w') => k a w'
    | (Raised msg, w') => (Raised msg, w')
    end.

(** [try { c } catch (error) { h(error.message) }] *)
Definition try_catch {A} (c : Handler A) (h : string -> Handler A) : Handler A :=
  fun w =>
    match c w with
    | (Done a, w') => (Done a, w')
    | (Raised msg, w') => h msg w'
    end.

Notation "x <- c ;; k" := (bind c (fun x => k))
  (at level 61, c at next level, right associativity).
Notation "' pat <- c ;; k" := (bind c (fun x => match x with pat => k end))
  (at level 61, pat pattern, c at next level, right associativity).

(** The response of the whole handler.  In [google-calendar] the handler
    sits in a [try] whose [catch] answers 500 "Internal server error"; in
    [google-auth] every statement that can throw sits in a [try] of its
    action, so nothing is left to catch here. *)
Definition run (c : Handler Response) (w : World) : Response * World :=
  match c w with
  | (Done r, w') => (r, w')
  | (Raised msg, w') => (mkResponse 500 (JsonError "Internal server error" (Some msg)), w')
  end.

(** The time values a [Date] can hold: 8.64e15 milliseconds on either
    side of the epoch.  Beyond them the date is invalid. *)
Definition MAX_TIME : Z := 8640000000000000.

Definition valid_time (ms : Z) : bool := (- MAX_TIME <=? ms) && (ms <=? MAX_TIME).
Arguments valid_time : simpl never.

Section Primitives.

Variable E : Env.

(** [Date.now()] and [new Date()] *)
Definition now : Handler Z :=
  fun w => (Done (Date_now E (ticks w)), mkWorld (table w) (S (ticks w)) (trace w)).

Definition send (o : Outbound) : Handler unit :=
  fun w => (Done tt, mkWorld (table w) (ticks w) (trace w ++ [o])).

(** [.select('*')...single()] *)
Definition select_single (f : Integration -> bool)
  : Handler (option Integration * option PgError) :=
  fun w =>
    match db_read_error E with
    | Some e => (Done (None, Some e), w)
    | None => (Done (single (filter f (table w))), w)
    end.

(** A write returns the [error] field of the table client's answer. *)
Definition write (change : Table -> Table) : Handler (option PgError) :=
  fun w =>
    match db_write_error E with
    | Some e => (Done (Some e), w)
    | None => (Done None, mkWorld (change (table w)) (ticks w) (trace w))
    end.

(** [new Date(ms).toISOString()], which throws a [RangeError] on an
    invalid date: the one a missing number gives ([NaN]), and the one a
    time value outside the range of [Date] gives. *)
Definition to_instant (ms : option Z) : Handler Z :=
  match ms with
  | Some v => if valid_time v then ret v else throw "Invalid time value"
  | None => throw "Invalid time value"
  end.

(** [JSON.stringify(await response.json())]: the body read as JSON and
    written back; a body that is not JSON throws. *)
Definition response_json (r : HttpResponse) : Handler string :=
  match JSON_parse E (http_text r) with
  | Value v => ret v
  | SyntaxError msg => throw msg
  end.

Definition json (st : Z) (b : Body) : Response := mkResponse st b.

End Primitives.

End Proxy.

(** ** [supabase/functions/google-auth/index.ts] *)

Module GoogleAuth.

Import Store Proxy.

Definition GOOGLE_CALENDAR : string := "google_calendar".
Definition EVENTS_URL : string :=
  "https://www.googleapis.com/calendar/v3/calendars/primary/events".
Definition THIRTY_DAYS : Z := 30 * 24 * 60 * 60 * 1000.

Section Handlers.

Variable E : Env.

(** Every action but [authorize] and [callback] first resolves the bearer
    token to a user. *)
Definition authenticated (req : Request) (k : string -> Handler Response)
  : Handler Response :=
  match getUser E (token req) with
  | Some user => k user
  | None => ret (json 401 (JsonError "Unauthorized" None))
  end.

(** [searchParams.get(k) || new Date(Date.now() + shift).toISOString()]:
    the clock is read only when the parameter is missing or empty. *)
Definition param_or_clock (v : option string) (shift : Z) : Handler string :=
  match v with
  | Some (String c s) => ret (String c s)
  | _ => t <- now E ;; ret (toISOString E (t + shift))
  end.

Definition callback (req : Request) : Handler Response :=
  let code := searchParams_get "code" (query req) in
  let state := searchParams_get "state" (query req) in
  let error := searchParams_get "error" (query req) in
  match error with
  | Some (String c s) =>
      ret (json 400 (JsonError ("Google OAuth error: " +++ String c s) None))
  | _ =>
    match code, state with
    | Some (String c1 s1), Some (String c2 s2) =>
      let code := String c1 s1 in
      let userId := String c2 s2 in
      try_catch
        (if negb (Js.truthy (env_var E "GOOGLE_CLIENT_ID")
                  && Js.truthy (env_var E "GOOGLE_CLIENT_SECRET")
                  && Js.truthy (env_var E "GOOGLE_REDIRECT_URI"))
         then throw "Missing Google OAuth configuration"
         else
           _ <- send (TokenExchange code) ;;
           let tokenData := token_exchange E code in
           if negb (ok tokenData)
           then throw ("Token exchange failed: " +++ raw tokenData)
           else
             t0 <- now E ;;
             expiry <- to_instant (option_map (fun s => t0 + s * 1000) (expires_in tokenData)) ;;
             t1 <- now E ;;
             t2 <- now E ;;
             upsertError <- write E (upsert userId GOOGLE_CALENDAR
               ([SetUserId userId; SetProvider GOOGLE_CALENDAR]
                ++ opt_col SetAccessToken (td_access_token tokenData)
                ++ opt_col SetRefreshToken (td_refresh_token tokenData)
                ++ opt_col SetTokenType (td_token_type tokenData)
                ++ [SetExpiresAt expiry; SetEnabled true; SetCreatedAt t1; SetUpdatedAt t2])) ;;
             match upsertError with
             | Some e => throw ("Error storing token: " +++ message e)
             | None =>
                 ret (mkResponse 200
                        (HtmlPage "Authentication Successful"
                                  (PostedObject "GOOGLE_AUTH_SUCCESS" None)))
             end)
        (fun msg =>
           ret (mkResponse 500
                  (HtmlPage "Authentication Failed"
                            (PostedObject "GOOGLE_AUTH_ERROR" (Some msg)))))
    | _, _ => ret (json 400 (JsonError "Missing code or state parameter" None))
    end
  end.

Definition is_some {A} (o : option A) : bool :=
  match o with Some _ => true | None => false end.

Definition status (user : string) : Handler Response :=
  '(data, error) <- select_single E (has_key_enabled user GOOGLE_CALENDAR) ;;
  ret (json 200 (JsonConnected (is_some data && negb (is_some error)))).

Definition events (user : string) (req : Request) : Handler Response :=
  try_catch
    ('(integration, integrationError) <-
        select_single E (has_key_enabled user GOOGLE_CALENDAR) ;;
     match integrationError, integration with
     | None, Some integration =>
         t <- now E ;;
         let expiresAt := expires_at integration in
         accessToken <-
           match refresh_token integration with
           | Some (String c s) =>
             if expiresAt <=? t then
               let refresh := String c s in
               _ <- send (TokenRefresh refresh) ;;
               let refreshData := token_refresh E refresh in
               if negb (ok refreshData)
               then throw ("Token refresh failed: " +++ raw refreshData)
               else
                 t0 <- now E ;;
                 expiry <- to_instant (option_map (fun s => t0 + s * 1000) (expires_in refreshData)) ;;
                 t1 <- now E ;;
                 _ <- write E (update (has_key user GOOGLE_CALENDAR)
                        (opt_col SetAccessToken (td_access_token refreshData)
                         ++ [SetExpiresAt expiry; SetUpdatedAt t1])) ;;
                 ret (td_access_token refreshData)
             else ret (access_token integration)
           | _ => ret (access_token integration)
           end ;;
         timeMin <- param_or_clock (searchParams_get "timeMin" (query req)) 0 ;;
         timeMax <- param_or_clock (searchParams_get "timeMax" (query req)) THIRTY_DAYS ;;
         let eventsUrl :=
           Built EVENTS_URL
                 [("timeMin", timeMin); ("timeMax", timeMax);
                  ("singleEvents", "true"); ("orderBy", "startTime")] in
         _ <- send (CalendarEvents eventsUrl accessToken) ;;
         let eventsResponse := calendar_get E eventsUrl accessToken in
         if negb (Js.ok_status (http_status eventsResponse))
         then
           errorData <- response_json E eventsResponse ;;
           throw ("Failed to fetch events: " +++ errorData)
         else
           eventsData <- response_json E eventsResponse ;;
           ret (json 200 (JsonText eventsData))
     | _, _ => ret (json 400 (JsonError "Google Calendar not connected" None))
     end)
    (fun msg => ret (json 500 (JsonError ("Failed to fetch events: " +++ msg) None))).

Definition disconnect (user : string) : Handler Response :=
  try_catch
    (t <- now E ;;
     error <- write E (update (has_key user GOOGLE_CALENDAR)
                [SetEnabled false; SetUpdatedAt t]) ;;
     match error with
     | Some e => throw ("Error disconnecting: " +++ message e)
     | None => ret (json 200 JsonSuccess)
     end)
    (fun msg => ret (json 500 (JsonError ("Failed to disconnect: " +++ msg) None))).

(** The requests [.../callback], [.../status], [.../events] and
    [.../disconnect] as the server answers them. *)
Definition serve_callback (req : Request) : World -> Response * World :=
  run (callback req).

Definition serve_status (req : Request) : World -> Response * World :=
  run (authenticated req status).

Definition serve_events (req : Request) : World -> Response * World :=
  run (authenticated req (fun user => events user req)).

Definition serve_disconnect (req : Request) : World -> Response * World :=
  run (authenticated req disconnect).

End Handlers.

End GoogleAuth.

(** ** [supabase/functions/google-calendar/index.ts] *)

Module GoogleCalendar.

Import Store Proxy.

Definition GOOGLE_CALENDAR : string := "google_calendar".
Definition GOOGLE_API_URL : string := "https://www.googleapis.com/calendar/v3".
Definition THIRTY_DAYS : Z := 30 * 24 * 60 * 60 * 1000.

Section Handlers.

Variable E : Env.

(** All five settings are required before anything else is looked at. *)
Definition configured : bool :=
  Js.truthy (env_var E "SUPABASE_URL")
  && Js.truthy (env_var E "SUPABASE_SERVICE_ROLE_KEY")
  && Js.truthy (env_var E "GOOGLE_CLIENT_ID")
  && Js.truthy (env_var E "GOOGLE_CLIENT_SECRET")
  && Js.truthy (env_var E "GOOGLE_REDIRECT_URI").

(** The part of the handler every action goes through: the settings, then
    the bearer token. *)
Definition guarded (req : Request) (k : string -> Handler Response)
  : Handler Response :=
  if negb configured
  then ret (json 500 (JsonError "Server configuration error"
                                (Some "Missing environment variables")))
  else
    match getUser E (token req) with
    | Some user => k user
    | None => ret (json 401 (JsonError "Unauthorized" None))
    end.

(** [oauth2Client.code.getToken] and [oauth2Client.refreshToken.refresh]:
    the client library throws unless the token endpoint answers with
    success and an access token. *)
Definition oauth2_tokens (td : TokenData) : Handler (string * TokenData) :=
  if negb (ok td) then throw (raw td)
  else
    match td_access_token td with
    | Some a => ret (a, td)
    | None => throw "missing access_token"
    end.

Definition param_or_clock (v : option string) (shift : Z) : Handler string :=
  match v with
  | Some (String c s) => ret (String c s)
  | _ => t <- now E ;; ret (toISOString E (t + shift))
  end.

Definition getAccessToken (user : string) : Handler (option string) :=
  '(integration, integrationError) <-
     select_single E (has_key_enabled user GOOGLE_CALENDAR) ;;
  match integrationError, integration with
  | None, Some integration =>
      let expiresAt := expires_at integration in
      t <- now E ;;
      match refresh_token integration with
      | Some (String c s) =>
        if expiresAt <? t then
          let refresh := String c s in
          try_catch
            (_ <- send (TokenRefresh refresh) ;;
             '(accessToken, refreshed) <- oauth2_tokens (token_refresh E refresh) ;;
             t0 <- now E ;;
             expiry <- to_instant (Some (t0 + Js.num_or (expires_in refreshed) 3600 * 1000)) ;;
             t1 <- now E ;;
             _ <- write E (update (has_key user GOOGLE_CALENDAR)
                    [SetAccessToken accessToken; SetExpiresAt expiry; SetUpdatedAt t1]) ;;
             ret (Some accessToken))
            (fun msg => throw ("Failed to refresh token: " +++ msg))
        else ret (access_token integration)
      | _ => ret (access_token integration)
      end
  | _, _ => throw "Google Calendar not connected"
  end.

Definition callback (req : Request) : Handler Response :=
  let code := searchParams_get "code" (query req) in
  let state := searchParams_get "state" (query req) in
  match code, state with
  | Some (String c1 s1), Some (String c2 s2) =>
    let code := String c1 s1 in
    let state := String c2 s2 in
    try_catch
      (_ <- send (TokenExchange code) ;;
       '(accessToken, tokens) <- oauth2_tokens (token_exchange E code) ;;
       t0 <- now E ;;
       expiry <- to_instant (Some (t0 + Js.num_or (expires_in tokens) 3600 * 1000)) ;;
       t1 <- now E ;;
       t2 <- now E ;;
       upsertError <- write E (upsert state GOOGLE_CALENDAR
         ([SetUserId state; SetProvider GOOGLE_CALENDAR; SetAccessToken accessToken]
          ++ opt_col SetRefreshToken (td_refresh_token tokens)
          ++ [SetExpiresAt expiry; SetEnabled true; SetCreatedAt t1; SetUpdatedAt t2])) ;;
       match upsertError with
       | Some e => ret (json 500 (JsonError "Failed to store tokens" None))
       | None =>
           ret (mkResponse 200
                  (HtmlPage "Google Calendar Connection Successful"
                            (PostedText "google_calendar_connected")))
       end)
      (fun msg =>
         ret (json 500 (JsonError "Failed to exchange authorization code for tokens"
                                  (Some msg))))
  | _, _ => ret (json 400 (JsonError "Missing code or state" None))
  end.

Definition is_some {A} (o : option A) : bool :=
  match o with Some _ => true | None => false end.

Definition status (user : string) : Handler Response :=
  try_catch
    ('(data, queryError) <- select_single E (has_key_enabled user GOOGLE_CALENDAR) ;;
     match queryError with
     | Some e =>
         if negb (String.eqb (code e) "PGRST116")
         then throw (message e)
         else ret (json 200 (JsonConnected (is_some data)))
     | None => ret (json 200 (JsonConnected (is_some data)))
     end)
    (fun msg =>
       ret (json 500 (JsonStatusError "Failed to check connection status" msg false))).

Definition events (user : string) (req : Request) : Handler Response :=
  try_catch
    (accessToken <- getAccessToken user ;;
     timeMin <- param_or_clock (searchParams_get "timeMin" (query req)) 0 ;;
     timeMax <- param_or_clock (searchParams_get "timeMax" (query req)) THIRTY_DAYS ;;
     let url :=
       Interpolated (GOOGLE_API_URL +++ "/calendars/primary/events?timeMin=" +++ timeMin
                     +++ "&timeMax=" +++ timeMax +++ "&singleEvents=true") in
     _ <- send (CalendarEvents url accessToken) ;;
     let calendarResponse := calendar_get E url accessToken in
     if negb (Js.ok_status (http_status calendarResponse))
     then ret (json (http_status calendarResponse)
                    (JsonError "Failed to fetch events" (Some (http_text calendarResponse))))
     else
       events <- response_json E calendarResponse ;;
       ret (json 200 (JsonText events)))
    (fun msg => ret (json 500 (JsonError "Failed to fetch events" (Some msg)))).

Definition serve_callback (req : Request) : World -> Response * World :=
  run (guarded req (fun _ => callback req)).

Definition serve_status (req : Request) : World -> Response * World :=
  run (guarded req status).

Definition serve_events (req : Request) : World -> Response * World :=
  run (guarded req (fun user => events user req)).

End Handlers.

End GoogleCalendar.

(** ** The event shapes *)

Module Events.

(** The provider's event, as [useGoogleCalendar.ts] declares it. *)
Record TimePoint := mkTimePoint {
  dateTime : option string;
  date : option string;
  timeZone : option string
}.

Record Person := mkPerson {
  email : string;
  displayName : option string;
  responseStatus : option string
}.

Record GoogleCalendarEvent := mkGoogleCalendarEvent {
  id : string;
  summary : string;
  description : option string;
  location : option string;
  start : TimePoint;
  end_ : TimePoint;
  organizer : option Person;
  attendees : option (list Person);
  htmlLink : string;
  colorId : option string;
  status : string
}.

(** The joined contact of a local event: the columns the query selects. *)
Record Contact := mkContact {
  contact_id_ : string;
  contact_name : string;
  contact_email : option string;
  contact_phone : option string;
  contact_company_id : option string
}.

(** The local event, as [useCalendarEvents.ts] declares it. *)
Record CalendarEvent := mkCalendarEvent {
  ev_id : string;
  ev_title : string;
  ev_start : string;
  ev_end : option string;
  ev_allDay : bool;
  ev_contact_id : option string;
  ev_description : option string;
  ev_location : option string;
  ev_created_at : string;
  ev_updated_at : string;
  ev_contact : option Contact
}.

(** The bag of properties that depends on the source. *)
Inductive ExtendedProps :=
| CrmProps (description location : option string)
           (contact : option Contact) (contact_id : option string)
| GoogleProps (description location : option string)
              (organizer : option Person) (attendees : option (list Person))
              (source : string).

(** The common shape the calendar widget renders. *)
Record EventInput := mkEventInput {
  in_id : string;
  in_title : string;
  in_start : option string;
  in_end : option string;
  in_allDay : bool;
  in_url : option string;
  in_extendedProps : ExtendedProps;
  in_classNames : list string;
  in_backgroundColor : option string;
  in_borderColor : option string
}.

End Events.

(** ** [src/hooks/useCalendarEvents.ts] *)

Module LocalHook.

Import Events.

(** [getFormattedEvents] of the local hook, one event. *)
Definition format (event : CalendarEvent) : EventInput :=
  mkEventInput (ev_id event) (ev_title event) (Some (ev_start event)) (ev_end event)
    (ev_allDay event) None
    (CrmProps (ev_description event) (ev_location event)
              (ev_contact event) (ev_contact_id event))
    [] None None.

Definition getFormattedEvents (events : list CalendarEvent) : list EventInput :=
  map format events.

End LocalHook.

(** ** [src/hooks/useGoogleCalendar.ts] *)

Module Hook.

Import Events.

Record GoogleCalendarState := mkState {
  isConnected : bool;
  events : list GoogleCalendarEvent;
  loading : bool;
  error : option string
}.

Definition initial : GoogleCalendarState := mkState false [] false None.

Inductive ToastKind := ToastError | ToastSuccess.

(** What the hook does to the outside, in order. *)
Inductive Effect :=
| Toast (kind : ToastKind) (text : string)
| Request (method : string) (url : string) (payload : list string)
| TableUpdate (user : string)
| WindowOpen (url : string)
| PopupClose.

(** The parsed JSON body of an answer. *)
Inductive Json :=
| JConnected (connected : bool)
| JUrl (url : option string)
| JItems (items : option (list GoogleCalendarEvent))
| JEvent (event : GoogleCalendarEvent)
| JOther.

Inductive FetchResult :=
| Rejected (reason : string)
| Answered (code : Z) (statusText : string) (json : Json).

Record Session := mkSession { access_token : string; user_id : string }.

(** The browser side of the world: what the hook reads. *)
Record Browser := mkBrowser {
  location_origin : string;                     (* window.location.origin *)
  VITE_SUPABASE_FUNCTIONS_URL : option string;
  VITE_SUPABASE_URL : option string;
  getSession : option Session;                  (* supabase.auth.getSession() *)
  fetch : string -> string -> FetchResult;      (* method, url *)
  popup_blocked : bool;                         (* window.open gives null *)
  clock : Z;
  table_error : option Store.PgError            (* the table client fails the update *)
}.

(** The state of the hook, its effects so far, and the remote table the
    hook writes to directly when disconnecting. *)
Record World := mkWorld {
  state : GoogleCalendarState;
  effects : list Effect;
  remote : Store.Table
}.

Definition setState (f : GoogleCalendarState -> GoogleCalendarState) (w : World) : World :=
  mkWorld (f (state w)) (effects w) (remote w).

Definition emit (e : Effect) (w : World) : World :=
  mkWorld (state w) (effects w ++ [e]) (remote w).

Definition show (z : Z) : string := NilZero.string_of_int (Z.to_int z).

(** [s.endsWith('/') ? s.slice(0, -1) : s] *)
Fixpoint strip_slash (s : string) : string :=
  match s with
  | EmptyString => EmptyString
  | String c EmptyString => if Ascii.eqb c "/"%char then EmptyString else s
  | String c rest => String c (strip_slash rest)
  end.

Section Operations.

Variable B : Browser.

Definition getFunctionsUrl : string :=
  match VITE_SUPABASE_FUNCTIONS_URL B with
  | Some (String c s) => String c s
  | _ =>
    match VITE_SUPABASE_URL B with
    | Some (String c s) => strip_slash (String c s) +++ "/functions/v1"
    | _ => "https://zgqtllbobikwycchknsuu.supabase.co/functions/v1"
    end
  end.

Definition connected_field (j : Json) : bool :=
  match j with JConnected b => b | _ => false end.

Definition toast_unless (silent : bool) (text : string) (w : World) : World :=
  if silent then w else emit (Toast ToastError text) w.

(** The outer [catch] of [checkConnection]. *)
Definition checkConnection_failed (silent : bool) (msg : string) (w : World)
  : bool * World :=
  let w := toast_unless silent ("Failed to check connection: " +++ msg) w in
  (false, setState (fun prev => mkState false (events prev) false
                                   (Some ("Connection check failed: " +++ msg))) w).

Definition checkConnection (silent : bool) (w : World) : bool * World :=
  let apiUrl := getFunctionsUrl in
  match apiUrl with
  | EmptyString =>
      (false, setState (fun prev => mkState false (events prev) false
                           (Some "Supabase Functions URL is not configured")) w)
  | _ =>
    let w := setState (fun prev => mkState (isConnected prev) (events prev) true None) w in
    match getSession B with
    | None =>
        (false, setState (fun prev => mkState false (events prev) false (error prev)) w)
    | Some session =>
      let url := apiUrl +++ "/google-calendar?action=status" in
      let w := emit (Request "GET" url []) w in
      let wrap msg :=
        "API request failed: " +++ msg
        +++ ". Please try again later or contact support." in
      match fetch B "GET" url with
      | Rejected reason => checkConnection_failed silent (wrap reason) w
      | Answered code statusText data =>
        if code =? 404 then
          let w := toast_unless silent
            "Google Calendar integration is not available. The Edge Function has not been deployed or is unreachable." w in
          (false, setState (fun prev => mkState false (events prev) false
            (Some "Google Calendar Edge Function not found. Please contact your administrator.")) w)
        else if negb (Js.ok_status code) then
          checkConnection_failed silent
            (wrap ("Failed to check connection status: " +++ show code +++ " " +++ statusText)) w
        else
          (connected_field data,
           setState (fun prev => mkState (connected_field data) (events prev) false (error prev)) w)
      end
    end
  end.

(** The update both [disconnect] paths send to the table. *)
Definition disable (t : Z) : list Store.Assign :=
  [Store.SetEnabled false; Store.SetUpdatedAt t].

Definition disconnect_failed (w : World) : bool * World :=
  let w := emit (Toast ToastError "Failed to disconnect Google Calendar") w in
  (false, setState (fun prev => mkState (isConnected prev) (events prev) false
                                   (Some "Disconnection failed")) w).

Definition disconnect (w : World) : bool * World :=
  let w := setState (fun prev => mkState (isConnected prev) (events prev) true None) w in
  match getSession B with
  | None => disconnect_failed w
  | Some session =>
    let w := emit (TableUpdate (user_id session)) w in
    match table_error B with
    | Some e => disconnect_failed w
    | None =>
      let w := mkWorld (state w) (effects w)
                 (Store.update (Store.has_key (user_id session) "google_calendar")
                               (disable (clock B)) (remote w)) in
      let w := setState (fun prev => mkState false [] false (error prev)) w in
      (true, emit (Toast ToastSuccess "Google Calendar disconnected") w)
    end
  end.


(** The [catch] of the four calendar calls: a toast, the error text, the
    spinner off, the events as they were. *)
Definition call_failed {R} (result : R) (toast_text error_text : string) (w : World)
  : R * World :=
  let w := emit (Toast ToastError toast_text) w in
  (result, setState (fun prev => mkState (isConnected prev) (events prev) false
                                    (Some error_text)) w).

Definition begin_call (w : World) : World :=
  setState (fun prev => mkState (isConnected prev) (events prev) true None) w.

(** [url.searchParams.append(k, v)] when [v] is given and not empty: the
    pair is added to the query of the address, its value percent-encoded.
    The keys used are plain words, which the encoding leaves as they are. *)
Definition with_param (k : string) (v : option string) (url : string) : string :=
  match v with
  | Some (String c s) => url +++ "&" +++ k +++ "=" +++ Js.form_urlencoded (String c s)
  | _ => url
  end.

(** The address [fetchEvents] asks, and the list it takes from the answer
    ([data.items || []]).  The functions address is taken to be one that
    [new URL] accepts and writes back as it is. *)
Definition events_address (apiUrl : string) (timeMin timeMax : option string) : string :=
  with_param "timeMax" timeMax
    (with_param "timeMin" timeMin (apiUrl +++ "/google-calendar?action=events")).

Definition items_of (data : Json) : list GoogleCalendarEvent :=
  match data with JItems (Some l) => l | _ => [] end.

Definition fetchEvents (timeMin timeMax : option string) (w : World)
  : list GoogleCalendarEvent * World :=
  if negb (isConnected (state w)) then ([], w)
  else
    match getFunctionsUrl with
    | EmptyString =>
        ([], setState (fun prev => mkState (isConnected prev) (events prev) false
               (Some "API configuration error: Missing Supabase Functions URL")) w)
    | apiUrl =>
      let w := begin_call w in
      let failed := call_failed [] "Failed to fetch calendar events" "Failed to fetch events" in
      match getSession B with
      | None => failed w
      | Some session =>
        let url := events_address apiUrl timeMin timeMax in
        let w := emit (Request "GET" url []) w in
        match fetch B "GET" url with
        | Rejected _ => failed w
        | Answered code _ data =>
          if negb (Js.ok_status code) then failed w
          else
            let items := items_of data in
            (items, setState (fun prev => mkState (isConnected prev) items false (error prev)) w)
        end
      end
    end.

(** [createEvent] and [updateEvent] take the body of a 2xx answer as the
    event, at the type the hook declares for its events; the hook does not
    check it.  A body of another shape has no place in a list of
    [GoogleCalendarEvent] and is filed here with the bodies
    [response.json()] throws on. *)
Definition createEvent (eventData : string) (w : World)
  : option GoogleCalendarEvent * World :=
  if negb (isConnected (state w))
  then (None, emit (Toast ToastError "Google Calendar is not connected") w)
  else
    match getFunctionsUrl with
    | EmptyString =>
        (None, emit (Toast ToastError "API configuration error: Missing Supabase Functions URL") w)
    | apiUrl =>
      let w := begin_call w in
      let failed := call_failed None "Failed to create event in Google Calendar"
                                "Failed to create event" in
      match getSession B with
      | None => failed w
      | Some session =>
        let url := apiUrl +++ "/google-calendar?action=create" in
        let w := emit (Request "POST" url [eventData]) w in
        match fetch B "POST" url with
        | Answered code _ (JEvent event) =>
          if negb (Js.ok_status code) then failed w
          else
            let w := setState (fun prev => mkState (isConnected prev)
                                 (events prev ++ [event]) false (error prev)) w in
            (Some event, emit (Toast ToastSuccess "Event created in Google Calendar") w)
        | _ => failed w
        end
      end
    end.

Definition updateEvent (eventId eventData : string) (w : World)
  : option GoogleCalendarEvent * World :=
  if negb (isConnected (state w))
  then (None, emit (Toast ToastError "Google Calendar is not connected") w)
  else
    match getFunctionsUrl with
    | EmptyString =>
        (None, emit (Toast ToastError "API configuration error: Missing Supabase Functions URL") w)
    | apiUrl =>
      let w := begin_call w in
      let failed := call_failed None "Failed to update event in Google Calendar"
                                "Failed to update event" in
      match getSession B with
      | None => failed w
      | Some session =>
        let url := apiUrl +++ "/google-calendar?action=update" in
        let w := emit (Request "PATCH" url [eventId; eventData]) w in
        match fetch B "PATCH" url with
        | Answered code _ (JEvent event) =>
          if negb (Js.ok_status code) then failed w
          else
            let w := setState (fun prev => mkState (isConnected prev)
                       (map (fun e => if String.eqb (id e) eventId then event else e)
                            (events prev))
                       false (error prev)) w in
            (Some event, emit (Toast ToastSuccess "Event updated in Google Calendar") w)
        | _ => failed w
        end
      end
    end.

Definition deleteEvent (eventId : string) (w : World) : bool * World :=
  if negb (isConnected (state w))
  then (false, emit (Toast ToastError "Google Calendar is not connected") w)
  else
    match getFunctionsUrl with
    | EmptyString =>
        (false, emit (Toast ToastError "API configuration error: Missing Supabase Functions URL") w)
    | apiUrl =>
      let w := begin_call w in
      let failed := call_failed false "Failed to delete event from Google Calendar"
                                "Failed to delete event" in
      match getSession B with
      | None => failed w
      | Some session =>
        let url := apiUrl +++ "/google-calendar?action=delete&eventId=" +++ eventId in
        let w := emit (Request "DELETE" url []) w in
        match fetch B "DELETE" url with
        | Rejected _ => failed w
        | Answered code _ _ =>
          if negb (Js.ok_status code) then failed w
          else
            let w := setState (fun prev => mkState (isConnected prev)
                       (filter (fun e => negb (String.eqb (id e) eventId)) (events prev))
                       false (error prev)) w in
            (true, emit (Toast ToastSuccess "Event deleted from Google Calendar") w)
        end
      end
    end.

End Operations.

(** [getFormattedEvents] of the provider hook, one event. *)
Definition format (event : GoogleCalendarEvent) : EventInput :=
  let start' := Js.or_else (dateTime (start event)) (date (start event)) in
  let end' := Js.or_else (dateTime (end_ event)) (date (end_ event)) in
  let allDay := negb (Js.truthy (dateTime (start event))) in
  mkEventInput (id event) (summary event) start' end' allDay (Some (htmlLink event))
    (GoogleProps (description event) (location event) (organizer event)
                 (attendees event) "google")
    ["google-calendar-event"] (Some "#4285F4") (Some "#4285F4").

Definition getFormattedEvents (s : GoogleCalendarState) : list EventInput :=
  map format (events s).

End Hook.

(** ** The calendar page: [getAllEvents] *)

Module CalendarPage.

Import Events.

Definition getAllEvents (crmEvents : list CalendarEvent)
                        (google : Hook.GoogleCalendarState) : list EventInput :=
  let crmFormattedEvents := LocalHook.getFormattedEvents crmEvents in
  let googleFormattedEvents :=
    if Hook.isConnected google then Hook.getFormattedEvents google else [] in
  crmFormattedEvents ++ googleFormattedEvents.

End CalendarPage.

(** ** The popup flow of [connect] in [useGoogleCalendar.ts]

    The browser runs one callback at a time.  A callback is taken here as
    one step, its awaited status request included; the window closing by
    itself (the user, or the script of the callback page) is a step of its
    own. *)

Module Popup.

Import Events Hook.

(** [event.data]: the callback page posts a text or an object with a
    [type] field. *)
Inductive MessageData :=
| Text (s : string)
| Object (type : string).

Record Flow := mkFlow {
  world : World;
  listener_on : bool;      (* the 'message' listener is registered *)
  interval_on : bool;      (* checkStatusInterval is running *)
  timeout_on : bool;       (* the two-minute timer has not fired yet *)
  popup_closed : bool      (* popup.closed *)
}.

Inductive Event :=
| Message (origin : string) (data : MessageData)
| IntervalTick
| TimeoutFires
| PopupGone.

(** No popup, nothing registered. *)
Definition idle (w : World) : Flow := mkFlow w false false false true.

Section Flow.

Variable B : Browser.

Definition connect_failed (msg : string) (w : World) : bool * Flow :=
  let w := emit (Toast ToastError ("Failed to connect Google Calendar: " +++ msg)) w in
  (false, idle (setState (fun prev => mkState (isConnected prev) (events prev) false
                                        (Some ("Connection failed: " +++ msg))) w)).

Definition connect (w : World) : bool * Flow :=
  match getFunctionsUrl B with
  | EmptyString =>
      (false, idle (emit (Toast ToastError
                            "API configuration error: Missing Supabase Functions URL") w))
  | apiUrl =>
    let w := begin_call w in
    match getSession B with
    | None => connect_failed "User not authenticated" w
    | Some session =>
      let address := apiUrl +++ "/google-calendar?action=get-auth-url" in
      let w := emit (Request "GET" address []) w in
      let wrap msg := "API request failed: " +++ msg in
      match fetch B "GET" address with
      | Rejected reason => connect_failed (wrap reason) w
      | Answered code statusText data =>
        if code =? 404 then
          let w := emit (Toast ToastError
            "Google Calendar integration is not available. The Edge Function has not been deployed or is unreachable. Please contact your administrator.") w in
          (false, idle (setState (fun prev => mkState (isConnected prev) (events prev) false
            (Some "Google Calendar Edge Function not found. Please contact your administrator.")) w))
        else if negb (Js.ok_status code) then
          connect_failed (wrap ("Failed to get authentication URL: "
                                +++ show code +++ " " +++ statusText)) w
        else
          match data with
          | JUrl (Some (String c s)) =>
            let w := emit (WindowOpen (String c s)) w in
            if popup_blocked B
            then connect_failed
                   (wrap "Popup window was blocked. Please allow popups for this site.") w
            else (true, mkFlow w true true true false)
          | _ => connect_failed (wrap "No authentication URL received from server") w
          end
      end
    end
  end.

(** [popup.close()] *)
Definition close_popup (f : Flow) : Flow :=
  if popup_closed f then f
  else mkFlow (emit PopupClose (world f)) (listener_on f) (interval_on f) (timeout_on f) true.

Definition messageListener (origin : string) (data : MessageData) (f : Flow) : Flow :=
  if negb (String.eqb origin (location_origin B)) then f
  else
    match data with
    | Text s =>
      if String.eqb s "google_calendar_connected" then
        (* window.removeEventListener('message', messageListener) *)
        let f := mkFlow (world f) false (interval_on f) (timeout_on f) (popup_closed f) in
        let f := close_popup f in
        let '(isConnected, w) := checkConnection B false (world f) in
        let w := if isConnected
                 then emit (Toast ToastSuccess "Google Calendar connected successfully") w
                 else w in
        mkFlow w (listener_on f) (interval_on f) (timeout_on f) (popup_closed f)
      else f
    | Object _ => f
    end.

Definition checkStatusInterval (f : Flow) : Flow :=
  if popup_closed f then
    (* clearInterval(checkStatusInterval); removeEventListener(...) *)
    let '(isConnected, w) := checkConnection B false (world f) in
    let w := setState (fun prev => mkState (Hook.isConnected prev) (events prev) false
                                     (error prev)) w in
    let w := if isConnected
             then emit (Toast ToastSuccess "Google Calendar connected successfully") w
             else emit (Toast ToastError "Google Calendar connection was not completed") w in
    mkFlow w false false (timeout_on f) (popup_closed f)
  else f.

Definition timeout (f : Flow) : Flow :=
  let f := mkFlow (world f) false false false (popup_closed f) in
  let f := close_popup f in
  mkFlow (setState (fun prev => mkState (isConnected prev) (events prev) false (error prev))
                   (world f))
         (listener_on f) (interval_on f) (timeout_on f) (popup_closed f).

(** One turn of the event loop: a callback runs only while registered. *)
Definition step (f : Flow) (e : Event) : Flow :=
  match e with
  | Message origin data => if listener_on f then messageListener origin data f else f
  | IntervalTick => if interval_on f then checkStatusInterval f else f
  | TimeoutFires => if timeout_on f then timeout f else f
  | PopupGone => mkFlow (world f) (listener_on f) (interval_on f) (timeout_on f) true
  end.

Definition run_events (f : Flow) (es : list Event) : Flow := fold_left step es f.

End Flow.

(** The requests to the functions ([fetch]) among the effects of a world.
    The calls of the table client are [TableUpdate] effects and are not
    counted here. *)
Definition is_request (e : Effect) : bool :=
  match e with Request _ _ _ => true | _ => false end.

Definition requests (w : World) : list Effect := filter is_request (effects w).

(** The status requests and the success toasts among the effects. *)
Definition is_status_check (e : Effect) : bool :=
  match e with
  | Request _ url _ =>
      match index 0 "action=status" url with Some _ => true | None => false end
  | _ => false
  end.

Definition is_success_toast (e : Effect) : bool :=
  match e with
  | Toast ToastSuccess text => String.eqb text "Google Calendar connected successfully"
  | _ => false
  end.

Definition status_checks (f : Flow) : nat :=
  List.length (filter is_status_check (effects (world f))).

Definition success_toasts (f : Flow) : nat :=
  List.length (filter is_success_toast (effects (world f))).

End Popup.

(** ** Notions the statements below are written with *)

Module Reading.

Import Store Proxy.

(** Two rows that agree on every column but [enabled] and [updated_at]. *)
Definition same_but_flag (r r' : Integration) : Prop :=
  user_id r' = user_id r /\ provider r' = provider r
  /\ access_token r' = access_token r /\ refresh_token r' = refresh_token r
  /\ token_type r' = token_type r /\ expires_at r' = expires_at r
  /\ created_at r' = created_at r.

(** Row by row: the rows of [(u, "google_calendar")] have the flag off and
    the update time [t] and are otherwise as before, every other row is as
    before. *)
Definition disabled_in_place (u : string) (t : Z) (before after : Table) : Prop :=
  Forall2 (fun r r' =>
             if has_key u "google_calendar" r
             then enabled r' = false /\ updated_at r' = t /\ same_but_flag r r'
             else r' = r)
          before after.

(** Every later [status] call of user [u] on table [t], whatever the
    environment then, carries [connected = false]. *)
Definition status_says_disconnected (u : string) (t : Table) : Prop :=
  forall (E : Env) (req : Request) (w : World),
    table w = t ->
    getUser E (token req) = Some u ->
    connected_of (fst (GoogleAuth.serve_status E req w)) = Some false
    /\ (GoogleCalendar.configured E = true ->
        connected_of (fst (GoogleCalendar.serve_status E req w)) = Some false).

(** Every later [status] call of user [u] on table [t] whose lookup does
    not fail is answered 200 with [connected = true]. *)
Definition status_says_connected (u : string) (t : Table) : Prop :=
  forall (E : Env) (req : Request) (w : World),
    table w = t ->
    getUser E (token req) = Some u ->
    db_read_error E = None ->
    fst (GoogleAuth.serve_status E req w) = json 200 (JsonConnected true)
    /\ (GoogleCalendar.configured E = true ->
        fst (GoogleCalendar.serve_status E req w) = json 200 (JsonConnected true)).

(** What a successful callback for user [u] leaves in the table: the
    unique constraint, exactly one row of [(u, "google_calendar")], enabled
    and expiring at [expiry], and a [status] that says connected. *)
Definition callback_stored (u : string) (expiry : Z) (t : Table) : Prop :=
  unique_keys t
  /\ (exists r, filter (has_key u "google_calendar") t = [r]
                /\ enabled r = true /\ expires_at r = expiry)
  /\ status_says_connected u t.

(** What an [events] call on an expired token leaves behind, from world
    [w] to world [w']: one refresh request and then one calendar request
    carrying the fresh token, nothing else sent; and the enabled record of
    the user holding the fresh token and the expiry [expiry], later than
    the one record [r] had. *)
Definition refreshed_once (u refresh fresh : string) (expiry : Z)
                          (r : Integration) (w w' : World) : Prop :=
  (exists target,
      trace w' = trace w ++ [TokenRefresh refresh; CalendarEvents target (Some fresh)])
  /\ (exists r', filter (has_key_enabled u "google_calendar") (table w') = [r']
                 /\ access_token r' = Some fresh
                 /\ expires_at r' = expiry
                 /\ expires_at r < expires_at r').

(** The three settings the callback of [google-auth] asks for. *)
Definition oauth_settings (E : Env) : bool :=
  Js.truthy (env_var E "GOOGLE_CLIENT_ID")
  && Js.truthy (env_var E "GOOGLE_CLIENT_SECRET")
  && Js.truthy (env_var E "GOOGLE_REDIRECT_URI").

(** The clock never runs backwards. *)
Definition monotone (clock : nat -> Z) : Prop :=
  forall i j, (i <= j)%nat -> clock i <= clock j.

End Reading.

(** ** Concrete worlds used by the examples *)

Module Fixtures.

Import Events.

Definition contains (needle hay : string) : bool :=
  match index 0 needle hay with Some _ => true | None => false end.

(** A browser whose server knows the user as connected. *)
Definition fetch_connected (method url : string) : Hook.FetchResult :=
  if contains "action=status" url then Hook.Answered 200 "OK" (Hook.JConnected true)
  else if contains "action=get-auth-url" url
  then Hook.Answered 200 "OK" (Hook.JUrl (Some "https://accounts.google.com/o/oauth2/v2/auth?state=u1"))
  else Hook.Answered 404 "Not Found" Hook.JOther.

Definition browser : Hook.Browser :=
  Hook.mkBrowser "https://crm.example" None (Some "https://project.supabase.co/")
    (Some (Hook.mkSession "jwt-u1" "u1")) fetch_connected false 1700000000000 None.

Definition fresh : Hook.World := Hook.mkWorld Hook.initial [] [].

(** The flow right after [connect] has opened the popup. *)
Definition started : Popup.Flow := snd (Popup.connect browser fresh).

Definition standup : GoogleCalendarEvent :=
  mkGoogleCalendarEvent "g1" "Stand-up" None (Some "Room 2")
    (mkTimePoint (Some "2025-05-02T09:00:00Z") None None)
    (mkTimePoint (Some "2025-05-02T09:15:00Z") None None)
    None None "https://calendar.google.com/event?eid=g1" None "confirmed".

Definition holiday : GoogleCalendarEvent :=
  mkGoogleCalendarEvent "g2" "Holiday" None None
    (mkTimePoint None (Some "2025-05-01") None)
    (mkTimePoint None (Some "2025-05-02") None)
    None None "https://calendar.google.com/event?eid=g2" None "confirmed".

Definition demo : CalendarEvent :=
  mkCalendarEvent "c1" "Demo" "2025-05-03T14:00:00Z" (Some "2025-05-03T15:00:00Z")
    false None (Some "Product demo") None
    "2025-04-01T00:00:00Z" "2025-04-01T00:00:00Z" None.

(** The server side: a configured deployment that knows one user. *)
Definition settings (k : string) : option string := Some "set".

Definition users (bearer : string) : option string :=
  if String.eqb bearer "jwt-u1" then Some "u1" else None.

Definition clock (k : nat) : Z := 1700000000000 + Z.of_nat k.

Definition granted (x : string) : Proxy.TokenData :=
  Proxy.mkTokenData true (Some "ya29.new") (Some "1//r") (Some "Bearer") (Some 3599) "{}".

Definition denied (x : string) : Proxy.TokenData :=
  Proxy.mkTokenData false None None None None "{error: invalid_grant}".

Definition calendar (t : Proxy.Target) (bearer : option string) : Proxy.HttpResponse :=
  Proxy.mkHttpResponse 200 "{items: []}".

(** In the examples every body but the empty one is JSON, in the form
    [JSON.stringify] writes. *)
Definition parse (s : string) : Proxy.Parse :=
  match s with
  | EmptyString => Proxy.SyntaxError "Unexpected end of JSON input"
  | _ => Proxy.Value s
  end.

(** In the examples the text of an instant is its number of milliseconds
    in decimal, in place of the ISO text. *)
Definition env : Proxy.Env :=
  Proxy.mkEnv settings users clock Hook.show None None granted granted calendar parse.

(** The provider turns the refresh down. *)
Definition env_denied : Proxy.Env :=
  Proxy.mkEnv settings users clock Hook.show None None granted denied calendar parse.

(** The table store cannot be reached. *)
Definition unreachable : Store.PgError := Store.mkPgError "08006" "connection failure".

Definition env_store_down : Proxy.Env :=
  Proxy.mkEnv settings users clock Hook.show (Some unreachable) (Some unreachable)
              granted granted calendar parse.

Definition row (expiry : Z) (flag : bool) : Store.Integration :=
  Store.mkIntegration "u1" "google_calendar" (Some "ya29.old") (Some "1//r")
                      (Some "Bearer") expiry flag 1600000000000 1600000000000.

Definition other_row : Store.Integration :=
  Store.mkIntegration "u2" "google_calendar" (Some "ya29.u2") None
                      (Some "Bearer") 1800000000000 true 1600000000000 1600000000000.

Definition world_of (t : Store.Table) : Proxy.World := Proxy.mkWorld t 0 [].

Definition as_u1 (q : list (string * string)) : Proxy.Request :=
  Proxy.mkRequest "jwt-u1" q.

(** Worlds and requests of the examples. *)
Definition expired_world : Proxy.World := world_of [row 1699999999000 true; other_row].

Definition due_now_world : Proxy.World := world_of [row 1700000000000 true].

Definition valid_world : Proxy.World := world_of [row 1800000000000 true; other_row].

Definition disabled_world : Proxy.World := world_of [row 1800000000000 false].

Definition stranger_world : Proxy.World := world_of [other_row].

Definition plain_request : Proxy.Request := as_u1 [].

Definition callback_request : Proxy.Request :=
  Proxy.mkRequest "jwt-u1" [("code", "4/0Ab"); ("state", "u1")].

(** A provider that reports a lifetime of zero, under a clock that stands
    still. *)
Definition lifeless (x : string) : Proxy.TokenData :=
  Proxy.mkTokenData true (Some "ya29.new") None (Some "Bearer") (Some 0) "{}".

Definition env_lifeless : Proxy.Env :=
  Proxy.mkEnv settings users (fun _ => 1700000000000) Hook.show None None
              granted lifeless calendar parse.

(** The same browser with the base URL written without the slash. *)
Definition browser_no_slash : Hook.Browser :=
  Hook.mkBrowser "https://crm.example" None (Some "https://project.supabase.co")
    (Some (Hook.mkSession "jwt-u1" "u1")) fetch_connected false 1700000000000 None.

(** A server that answers every call of the hook: the status, the list,
    and for a creation or an update the stand-up event. *)
Definition fetch_online (method url : string) : Hook.FetchResult :=
  if contains "action=status" url then Hook.Answered 200 "OK" (Hook.JConnected true)
  else if contains "action=events" url
  then Hook.Answered 200 "OK" (Hook.JItems (Some [holiday]))
  else if contains "action=delete" url then Hook.Answered 200 "OK" Hook.JOther
  else Hook.Answered 200 "OK" (Hook.JEvent standup).

Definition browser_online : Hook.Browser :=
  Hook.mkBrowser "https://crm.example" None (Some "https://project.supabase.co/")
    (Some (Hook.mkSession "jwt-u1" "u1")) fetch_online false 1700000000000 None.

(** A connected hook that shows the holiday. *)
Definition connected_world : Hook.World :=
  Hook.mkWorld (Hook.mkState true [holiday] false None) [] [].

(** A deployment whose settings are missing. *)
Definition env_unconfigured : Proxy.Env :=
  Proxy.mkEnv (fun _ => None) users clock Hook.show None None granted granted calendar parse.



Definition anonymous_request : Proxy.Request := Proxy.mkRequest "" [].

(** A record that has run out and holds no refresh token. *)
Definition no_refresh_row : Store.Integration :=
  Store.mkIntegration "u1" "google_calendar" (Some "ya29.old") None
                      (Some "Bearer") 1600000000000 true 1600000000000 1600000000000.

Definition no_refresh_world : Proxy.World := world_of [no_refresh_row].

(** A browser whose table client fails, and a hook over the table that
    holds the enabled record of the user. *)
Definition browser_store_down : Hook.Browser :=
  Hook.mkBrowser "https://crm.example" None (Some "https://project.supabase.co/")
    (Some (Hook.mkSession "jwt-u1" "u1")) fetch_connected false 1700000000000
    (Some unreachable).

Definition linked_world : Hook.World :=
  Hook.mkWorld (Hook.mkState true [holiday] false None) []
               [row 1800000000000 true; other_row].

(** A provider that reports a lifetime of zero for the exchanged code. *)
Definition env_lifeless_exchange : Proxy.Env :=
  Proxy.mkEnv settings users clock Hook.show None None lifeless granted calendar parse.

(** A provider that reports a lifetime of 9e12 seconds: the expiry falls
    outside the range of dates. *)
Definition eternal (x : string) : Proxy.TokenData :=
  Proxy.mkTokenData true (Some "ya29.new") None (Some "Bearer") (Some 9000000000000) "{}".

Definition env_eternal : Proxy.Env :=
  Proxy.mkEnv settings users clock Hook.show None None granted eternal calendar parse.

End Fixtures.

(** ** [src/hooks/useCalendarEvents.ts]: the local events *)

Module LocalEvents.

Import Events.

(** A column of the [calendar_events] table that the form can set. *)
Inductive Column :=
| ColTitle (v : string)
| ColStart (v : string)
| ColEnd (v : option string)
| ColAllDay (v : bool)
| ColContactId (v : option string)
| ColDescription (v : option string)
| ColLocation (v : option string).

Definition is_allDay (c : Column) : bool :=
  match c with ColAllDay _ => true | _ => false end.

Definition set (r : CalendarEvent) (c : Column) : CalendarEvent :=
  match c with
  | ColTitle v => mkCalendarEvent (ev_id r) v (ev_start r) (ev_end r) (ev_allDay r) (ev_contact_id r) (ev_description r) (ev_location r) (ev_created_at r) (ev_updated_at r) (ev_contact r)
  | ColStart v => mkCalendarEvent (ev_id r) (ev_title r) v (ev_end r) (ev_allDay r) (ev_contact_id r) (ev_description r) (ev_location r) (ev_created_at r) (ev_updated_at r) (ev_contact r)
  | ColEnd v => mkCalendarEvent (ev_id r) (ev_title r) (ev_start r) v (ev_allDay r) (ev_contact_id r) (ev_description r) (ev_location r) (ev_created_at r) (ev_updated_at r) (ev_contact r)
  | ColAllDay v => mkCalendarEvent (ev_id r) (ev_title r) (ev_start r) (ev_end r) v (ev_contact_id r) (ev_description r) (ev_location r) (ev_created_at r) (ev_updated_at r) (ev_contact r)
  | ColContactId v => mkCalendarEvent (ev_id r) (ev_title r) (ev_start r) (ev_end r) (ev_allDay r) v (ev_description r) (ev_location r) (ev_created_at r) (ev_updated_at r) (ev_contact r)
  | ColDescription v => mkCalendarEvent (ev_id r) (ev_title r) (ev_start r) (ev_end r) (ev_allDay r) (ev_contact_id r) v (ev_location r) (ev_created_at r) (ev_updated_at r) (ev_contact r)
  | ColLocation v => mkCalendarEvent (ev_id r) (ev_title r) (ev_start r) (ev_end r) (ev_allDay r) (ev_contact_id r) (ev_description r) v (ev_created_at r) (ev_updated_at r) (ev_contact r)
  end.

Definition patch (p : list Column) (r : CalendarEvent) : CalendarEvent :=
  fold_left set p r.

(** What the form hands over: the event without id and timestamps. *)
Record Draft := mkDraft {
  d_title : string;
  d_start : string;
  d_end : option string;
  d_allDay : bool;
  d_contact_id : option string;
  d_description : option string;
  d_location : option string
}.

(** The form's data seen as an update payload: all its seven keys. *)
Definition columns_of (d : Draft) : list Column :=
  [ColTitle (d_title d); ColStart (d_start d); ColEnd (d_end d); ColAllDay (d_allDay d);
   ColContactId (d_contact_id d); ColDescription (d_description d);
   ColLocation (d_location d)].

(** The table side: whether the client reports an error, the id and the
    timestamp the table gives a new row, and whether an update whose
    payload is empty gives the row back. *)
Record Db := mkDb {
  fault : option string;
  new_id : list CalendarEvent -> string;
  stamp : string;
  empty_update_answers : bool
}.

(** The list the hook shows, the rows of the table (they carry no joined
    contact), and the toasts. *)
Record World := mkWorld {
  events : list CalendarEvent;
  rows : list CalendarEvent;
  toasts : list (Hook.ToastKind * string)
}.

Definition toast (k : Hook.ToastKind) (text : string) (w : World) : World :=
  mkWorld (events w) (rows w) (toasts w ++ [(k, text)]).

Definition has_id (k : string) (e : CalendarEvent) : bool := String.eqb (ev_id e) k.

Section Operations.

Variable db : Db.

Definition addEvent (d : Draft) (w : World) : option CalendarEvent * World :=
  match fault db with
  | Some _ => (None, toast Hook.ToastError "Failed to create event" w)
  | None =>
    let data := mkCalendarEvent (new_id db (rows w)) (d_title d) (d_start d) (d_end d)
                  (d_allDay d) (d_contact_id d) (d_description d) (d_location d)
                  (stamp db) (stamp db) None in
    (Some data,
     toast Hook.ToastSuccess "Event created successfully"
           (mkWorld (events w ++ [data]) (rows w ++ [data]) (toasts w)))
  end.

Definition updateEvent (k : string) (eventData : list Column) (w : World)
  : option CalendarEvent * World :=
  (* dbEventData.allDay = eventData.allDay; delete dbEventData.allDay *)
  let dbEventData := filter (fun c => negb (is_allDay c)) eventData in
  let failed := toast Hook.ToastError "Failed to update event" in
  match fault db with
  | Some _ => (None, failed w)
  | None =>
    match dbEventData, empty_update_answers db with
    | [], false => (None, failed w)
    | _, _ =>
      let rows' := map (fun r => if has_id k r then patch dbEventData r else r) (rows w) in
      match filter (has_id k) rows' with
      | [data] =>
        (Some data,
         toast Hook.ToastSuccess "Event updated successfully"
               (mkWorld (map (fun e => if has_id k e then data else e) (events w))
                        rows' (toasts w)))
      | _ => (None, failed (mkWorld (events w) rows' (toasts w)))
      end
    end
  end.

Definition deleteEvent (k : string) (w : World) : bool * World :=
  match fault db with
  | Some _ => (false, toast Hook.ToastError "Failed to delete event" w)
  | None =>
    (true,
     toast Hook.ToastSuccess "Event deleted successfully"
           (mkWorld (filter (fun e => negb (has_id k e)) (events w))
                    (filter (fun e => negb (has_id k e)) (rows w))
                    (toasts w)))
  end.

End Operations.

(** An event as the table holds it: without the joined contact. *)
Definition as_row (e : CalendarEvent) : CalendarEvent :=
  mkCalendarEvent (ev_id e) (ev_title e) (ev_start e) (ev_end e) (ev_allDay e)
    (ev_contact_id e) (ev_description e) (ev_location e) (ev_created_at e)
    (ev_updated_at e) None.

(** The rows carry no joined contact, and every event shown is a row of
    the table (the joined contact aside). *)
Definition mirrors (w : World) : Prop :=
  Forall (fun r => ev_contact r = None) (rows w)
  /\ Forall (fun e => In (as_row e) (rows w)) (events w).

(** The id is the primary key of the table. *)
Definition unique_ids (w : World) : Prop := NoDup (map ev_id (rows w)).

End LocalEvents.

(** ** The calendar page: the click, form and delete handlers *)

Module CalendarView.

Import Events.

(** The selection state of the page. *)
Record View := mkView {
  selectedEvent : option CalendarEvent;
  selectedGoogleEvent : option GoogleCalendarEvent;
  isGoogleEvent : bool;
  isViewModalOpen : bool;
  isFormModalOpen : bool
}.

(** [clickInfo.event.extendedProps.source] *)
Definition source_of (p : ExtendedProps) : option string :=
  match p with
  | GoogleProps _ _ _ _ source => Some source
  | CrmProps _ _ _ _ => None
  end.

Definition handleEventClick (clicked : EventInput)
                            (crmEvents : list CalendarEvent)
                            (googleEvents : list GoogleCalendarEvent)
                            (v : View) : View :=
  let eventId := in_id clicked in
  match source_of (in_extendedProps clicked) with
  | Some "google" =>
    match find (fun e => String.eqb (id e) eventId) googleEvents with
    | Some googleEvent =>
        mkView None (Some googleEvent) true true (isFormModalOpen v)
    | None => v
    end
  | _ =>
    match find (fun e => String.eqb (ev_id e) eventId) crmEvents with
    | Some fullEvent =>
        mkView (Some fullEvent) None false true (isFormModalOpen v)
    | None => v
    end
  end.

(** [selectedEvent?.id], as a text that is there and not empty. *)
Definition selected_id (v : View) : option string :=
  match selectedEvent v with
  | Some e => match ev_id e with
              | EmptyString => None
              | k => Some k
              end
  | None => None
  end.

Definition handleFormSubmit (db : LocalEvents.Db) (eventData : LocalEvents.Draft)
                            (v : View) (w : LocalEvents.World)
  : View * LocalEvents.World :=
  let w' := match selected_id v with
            | Some k => snd (LocalEvents.updateEvent db k (LocalEvents.columns_of eventData) w)
            | None => snd (LocalEvents.addEvent db eventData w)
            end in
  (mkView (selectedEvent v) (selectedGoogleEvent v) (isGoogleEvent v)
          (isViewModalOpen v) false, w').

Definition handleDeleteEvent (db : LocalEvents.Db) (v : View) (w : LocalEvents.World)
  : View * LocalEvents.World :=
  match selected_id v with
  | Some k =>
      (mkView (selectedEvent v) (selectedGoogleEvent v) (isGoogleEvent v)
              false (isFormModalOpen v),
       snd (LocalEvents.deleteEvent db k w))
  | None => (v, w)
  end.

End CalendarView.

(** ** [google-calendar]: the [create], [update] and [delete] actions *)

Module CalendarMutations.

Import Store Proxy.

(** The request an action sends to the provider's calendar: POST of a new
    event, PATCH of an event, DELETE of an event, each with the bearer. *)
Inductive Mutation :=
| Insert (body : string) (bearer : option string)
| Patch (eventId : string) (body : option string) (bearer : option string)
| Remove (eventId : string) (bearer : option string).

(** The body of a [create] request as the validation sees it: the summary,
    whether [start] and [end] are there, and the text passed on. *)
Record EventData := mkEventData {
  summary : option string;
  has_start : bool;
  has_end : bool;
  text : string
}.

(** The body of an [update] request: [{eventId, eventData}]. *)
Record UpdateBody := mkUpdateBody {
  eventId : option string;
  eventData : option string
}.

Section Actions.

Variable E : Env.
Variable provider : Mutation -> HttpResponse.

(** What is made of the provider's answer: its status and text on
    failure; on success 200 and the body [done] gives, or, when [done]
    throws, the 500 of the action's [catch]. *)
Definition relay (failure : string) (done : HttpResponse -> Body + string) (m : Mutation)
                 (w : World) : Response * World * list Mutation :=
  let calendarResponse := provider m in
  if negb (Js.ok_status (http_status calendarResponse))
  then (json (http_status calendarResponse)
             (JsonError failure (Some (http_text calendarResponse))), w, [m])
  else
    match done calendarResponse with
    | inl b => (json 200 b, w, [m])
    | inr msg => (json 500 (JsonError failure (Some msg)), w, [m])
    end.

(** [JSON.stringify(await calendarResponse.json())] of [create] and
    [update]: a body that is not JSON throws. *)
Definition passed_on (r : HttpResponse) : Body + string :=
  match JSON_parse E (http_text r) with
  | Value v => inl (JsonText v)
  | SyntaxError msg => inr msg
  end.

(** [req.json()] throws on a body that is not JSON ([None]). *)
Definition unparsable : string := "Unexpected end of JSON input".

Definition create (user : string) (body : option EventData) (w : World)
  : Response * World * list Mutation :=
  let failure := "Failed to create event" in
  match GoogleCalendar.getAccessToken E user w with
  | (Raised msg, w') => (json 500 (JsonError failure (Some msg)), w', [])
  | (Done accessToken, w') =>
    match body with
    | None => (json 500 (JsonError failure (Some unparsable)), w', [])
    | Some data =>
      if negb (Js.truthy (summary data)) || (negb (has_start data) || negb (has_end data))
      then (json 400 (JsonError "Missing required event data (summary, start, end)" None),
            w', [])
      else relay failure passed_on (Insert (text data) accessToken) w'
    end
  end.

Definition update (user : string) (body : option UpdateBody) (w : World)
  : Response * World * list Mutation :=
  let failure := "Failed to update event" in
  match GoogleCalendar.getAccessToken E user w with
  | (Raised msg, w') => (json 500 (JsonError failure (Some msg)), w', [])
  | (Done accessToken, w') =>
    match body with
    | None => (json 500 (JsonError failure (Some unparsable)), w', [])
    | Some data =>
      match eventId data with
      | Some (String c s) =>
          relay failure passed_on (Patch (String c s) (eventData data) accessToken) w'
      | _ => (json 400 (JsonError "Missing event ID" None), w', [])
      end
    end
  end.

Definition delete (user : string) (req : Request) (w : World)
  : Response * World * list Mutation :=
  let failure := "Failed to delete event" in
  match GoogleCalendar.getAccessToken E user w with
  | (Raised msg, w') => (json 500 (JsonError failure (Some msg)), w', [])
  | (Done accessToken, w') =>
    match searchParams_get "eventId" (query req) with
    | Some (String c s) =>
        (* { success: true, message: 'Event deleted successfully' } *)
        relay failure (fun _ => inl JsonSuccess) (Remove (String c s) accessToken) w'
    | _ => (json 400 (JsonError "Missing event ID" None), w', [])
    end
  end.

(** The settings and the bearer token come first, as for every action. *)
Definition guarded (req : Request)
                   (k : string -> World -> Response * World * list Mutation)
                   (w : World) : Response * World * list Mutation :=
  if negb (GoogleCalendar.configured E)
  then (json 500 (JsonError "Server configuration error"
                            (Some "Missing environment variables")), w, [])
  else
    match getUser E (token req) with
    | Some user => k user w
    | None => (json 401 (JsonError "Unauthorized" None), w, [])
    end.

Definition serve_create (req : Request) (body : option EventData) :=
  guarded req (fun user => create user body).

Definition serve_update (req : Request) (body : option UpdateBody) :=
  guarded req (fun user => update user body).

Definition serve_delete (req : Request) :=
  guarded req (fun user => delete user req).

End Actions.

(** The answer, the world and the requests sent of an outcome. *)
Definition answer (o : Response * World * list Mutation) : Response := fst (fst o).
Definition world_after (o : Response * World * list Mutation) : World := snd (fst o).
Definition sent (o : Response * World * list Mutation) : list Mutation := snd o.



End CalendarMutations.

(** ** Local events of the examples *)

Module Samples.

Import Events.

Definition local_db : LocalEvents.Db :=
  LocalEvents.mkDb None (fun _ => "c9") "2025-05-01T00:00:00Z" false.

Definition broken_db : LocalEvents.Db :=
  LocalEvents.mkDb (Some "permission denied") (fun _ => "c9") "2025-05-01T00:00:00Z" false.

Definition local_world : LocalEvents.World :=
  LocalEvents.mkWorld [Fixtures.demo] [Fixtures.demo] [].

Definition rename : list LocalEvents.Column :=
  [LocalEvents.ColTitle "Demo (moved)"; LocalEvents.ColAllDay true].

Definition lunch : LocalEvents.Draft :=
  LocalEvents.mkDraft "Lunch" "2025-05-04T12:00:00Z" (Some "2025-05-04T13:00:00Z")
                      true None None None.

Definition nothing_selected : CalendarView.View :=
  CalendarView.mkView None None false false false.

Definition demo_selected : CalendarView.View :=
  CalendarView.mkView (Some Fixtures.demo) None false true true.

(** A local event that happens to carry the id of a provider event. *)
Definition twin : CalendarEvent :=
  mkCalendarEvent "g1" "Twin" "2025-05-03T14:00:00Z" None false None None None
    "2025-04-01T00:00:00Z" "2025-04-01T00:00:00Z" None.

(** A provider calendar that refuses every change with 404. *)
Definition not_found (m : CalendarMutations.Mutation) : Proxy.HttpResponse :=
  Proxy.mkHttpResponse 404 "{error: notFound}".

Definition untitled : CalendarMutations.EventData :=
  CalendarMutations.mkEventData None true true "{start: .., end: ..}".

End Samples.

(** ** What is observed of a hook world *)

Module Observe.

Import Events Hook.

Definition is_toast (e : Effect) : bool :=
  match e with Toast _ _ => true | _ => false end.

(** The toasts shown so far. *)
Definition toasts (w : World) : list Effect := filter is_toast (effects w).

Definition is_error_toast (e : Effect) : bool :=
  match e with Toast ToastError _ => true | _ => false end.

Definition bool_to_nat (b : bool) : nat := if b then 1%nat else 0%nat.

(** The watchers of a flow that can still ask for the status. *)
Definition pending_checks (f : Popup.Flow) : nat :=
  (bool_to_nat (Popup.listener_on f) + bool_to_nat (Popup.interval_on f))%nat.

(** Everything the hook sends over the network: the requests to the
    functions and the calls of the table client. *)
Definition is_call (e : Effect) : bool :=
  match e with
  | Request _ _ _ => true
  | TableUpdate _ => true
  | _ => false
  end.

Definition calls (w : World) : list Effect := filter is_call (effects w).


End Observe.

(** ** Frames of the table *)

Module Frames.

Import Store.

(** Two rows that agree on every column but the access token, the expiry
    and [updated_at]. *)
Definition same_but_token (r r' : Integration) : Prop :=
  user_id r' = user_id r /\ provider r' = provider r
  /\ refresh_token r' = refresh_token r /\ token_type r' = token_type r
  /\ enabled r' = enabled r /\ created_at r' = created_at r.

(** The columns a token refresh writes. *)
Definition token_column (a : Assign) : bool :=
  match a with
  | SetAccessToken _ | SetExpiresAt _ | SetUpdatedAt _ => true
  | _ => false
  end.

(** Row by row: only rows of [(u, "google_calendar")] differ, and only in
    the token columns. *)
Definition only_tokens_of (u : string) (before after : Table) : Prop :=
  Forall2 (fun r r' => same_but_token r r'
                       /\ (has_key u "google_calendar" r = false -> r' = r))
          before after.

(** A handler step whose table after is related to the table before. *)
Definition Steps (R : Table -> Table -> Prop) {A : Type} (c : Proxy.Handler A) : Prop :=
  forall w, R (Proxy.table w) (Proxy.table (snd (c w))).

(** The unique constraint, kept. *)
Definition keeps_unique (t t' : Table) : Prop := unique_keys t -> unique_keys t'.

End Frames.

(** * Properties *)

(** ** The event merge *)

Section Merge.

Import Events.

Lemma getAllEvents_connected crm g :
  Hook.isConnected g = true ->
  CalendarPage.getAllEvents crm g
  = map LocalHook.format crm ++ map Hook.format (Hook.events g).
Proof.
  intros Hc. unfold CalendarPage.getAllEvents, LocalHook.getFormattedEvents,
    Hook.getFormattedEvents. now rewrite Hc.
Qed.

Lemma getAllEvents_disconnected crm g :
  Hook.isConnected g = false ->
  CalendarPage.getAllEvents crm g = map LocalHook.format crm.
Proof.
  intros Hc. unfold CalendarPage.getAllEvents, LocalHook.getFormattedEvents.
  rewrite Hc. apply app_nil_r.
Qed.

(** C4: the unified list is the local events under the local mapping
    followed by, when connected, the provider events under the provider
    mapping: N+M entries (N when not connected), the i-th local event at
    place i and the j-th provider event at place N+j, nothing dropped,
    doubled, merged or re-ordered; the provider mapping takes the summary
    as title, dateTime-or-date as start and end, and allDay exactly when
    there is no (non-empty) dateTime. *)
Theorem C4_merge_is_concatenation :
  forall (crm : list CalendarEvent) (g : Hook.GoogleCalendarState)
         (i j : nat) (e : GoogleCalendarEvent) (c : CalendarEvent),
    let provider := if Hook.isConnected g then Hook.events g else [] in
    CalendarPage.getAllEvents crm g
      = map LocalHook.format crm ++ map Hook.format provider
    /\ List.length (CalendarPage.getAllEvents crm g)
       = (List.length crm + List.length provider)%nat
    /\ nth_error (CalendarPage.getAllEvents crm g) (List.length crm + j)
       = option_map Hook.format (nth_error provider j)
    /\ (if Nat.ltb i (List.length crm)
        then nth_error (CalendarPage.getAllEvents crm g) i
             = option_map LocalHook.format (nth_error crm i)
        else True)
    /\ in_title (Hook.format e) = summary e
    /\ in_start (Hook.format e)
       = match dateTime (start e) with
         | Some (String a s) => Some (String a s)
         | _ => date (start e)
         end
    /\ in_end (Hook.format e)
       = match dateTime (end_ e) with
         | Some (String a s) => Some (String a s)
         | _ => date (end_ e)
         end
    /\ in_allDay (Hook.format e)
       = match dateTime (start e) with
         | Some (String _ _) => false
         | _ => true
         end
    /\ (in_id (LocalHook.format c), in_title (LocalHook.format c),
        in_start (LocalHook.format c), in_end (LocalHook.format c),
        in_allDay (LocalHook.format c))
       = (ev_id c, ev_title c, Some (ev_start c), ev_end c, ev_allDay c).
Proof.
  intros crm g i j e c provider.
  assert (Hall : CalendarPage.getAllEvents crm g
                 = map LocalHook.format crm ++ map Hook.format provider).
  { subst provider. destruct (Hook.isConnected g) eqn:Hc.
    - now apply getAllEvents_connected.
    - rewrite getAllEvents_disconnected by assumption. simpl. now rewrite app_nil_r. }
  split; [exact Hall|].
  split. { rewrite Hall, length_app, !length_map. reflexivity. }
  split.
  { rewrite Hall, nth_error_app2; rewrite length_map; [|lia].
    replace (List.length crm + j - List.length crm)%nat with j by lia.
    apply nth_error_map. }
  split.
  { destruct (Nat.ltb i (List.length crm)) eqn:Hi; [|exact I].
    apply Nat.ltb_lt in Hi.
    rewrite Hall, nth_error_app1 by (rewrite length_map; exact Hi).
    apply nth_error_map. }
  split; [reflexivity|].
  split. { unfold Hook.format, Js.or_else, Js.truthy; simpl.
           destruct (dateTime (start e)) as [[|a s]|]; reflexivity. }
  split. { unfold Hook.format, Js.or_else, Js.truthy; simpl.
           destruct (dateTime (end_ e)) as [[|a s]|]; reflexivity. }
  split. { unfold Hook.format, Js.truthy; simpl.
           destruct (dateTime (start e)) as [[|a s]|]; reflexivity. }
  reflexivity.
Qed.

(** Two provider events and one local event give three entries, the local
    one first; the date-only provider event is the all-day one. *)
Example merge_three :
  let g := Hook.mkState true [Fixtures.standup; Fixtures.holiday] false None in
  map in_id (CalendarPage.getAllEvents [Fixtures.demo] g) = ["c1"; "g1"; "g2"]
  /\ map in_allDay (CalendarPage.getAllEvents [Fixtures.demo] g) = [false; false; true].
Proof. split; reflexivity. Qed.

End Merge.

(** ** The guards of the client calls *)

Section Guards.

Import Events Hook Popup.

Lemma requests_emit_toast k text w : requests (emit (Toast k text) w) = requests w.
Proof.
  unfold requests, emit; simpl. rewrite filter_app; simpl. apply app_nil_r.
Qed.

(** C10: while [isConnected] is false, [fetchEvents] gives the empty list,
    [createEvent] and [updateEvent] give null and [deleteEvent] gives
    false, at once: the hook state (the events list with it) is the one
    before, and no request is added to those already sent. *)
Theorem C10_disconnected_calls_return_at_once :
  forall (B : Browser) (w : World) (timeMin timeMax : option string)
         (eventId eventData : string),
    isConnected (state w) = false ->
    (fetchEvents B timeMin timeMax w = ([], w))
    /\ (fst (createEvent B eventData w) = None
        /\ state (snd (createEvent B eventData w)) = state w
        /\ requests (snd (createEvent B eventData w)) = requests w)
    /\ (fst (updateEvent B eventId eventData w) = None
        /\ state (snd (updateEvent B eventId eventData w)) = state w
        /\ requests (snd (updateEvent B eventId eventData w)) = requests w)
    /\ (fst (deleteEvent B eventId w) = false
        /\ state (snd (deleteEvent B eventId w)) = state w
        /\ requests (snd (deleteEvent B eventId w)) = requests w).
Proof.
  intros B w timeMin timeMax eventId eventData Hd.
  unfold fetchEvents, createEvent, updateEvent, deleteEvent.
  rewrite Hd; simpl.
  repeat split; apply requests_emit_toast.
Qed.

Lemma C10_witness :
  isConnected (state Fixtures.fresh) = false
  /\ fetchEvents Fixtures.browser None None Fixtures.fresh = ([], Fixtures.fresh).
Proof.
  split; [reflexivity|].
  apply (C10_disconnected_calls_return_at_once Fixtures.browser Fixtures.fresh
           None None "g1" "{}" eq_refl).
Defined.

(** The guard is what keeps the request back: once connected, the same call
    goes out to the server. *)
Example connected_fetch_sends_request :
  let w := mkWorld (mkState true [] false None) [] [] in
  List.length (requests (snd (fetchEvents Fixtures.browser None None w))) = 1%nat.
Proof. reflexivity. Qed.

End Guards.

(** ** The popup watchers *)

Section Watchers.

Import Hook Popup Fixtures.

Lemma step_foreign_message B f origin data :
  origin <> location_origin B -> step B f (Message origin data) = f.
Proof.
  intros Hne. unfold step, messageListener.
  destruct (listener_on f); [|reflexivity].
  destruct (String.eqb_spec origin (location_origin B)) as [Heq|_];
    [contradiction|reflexivity].
Qed.

Lemma run_events_app B f es1 es2 :
  run_events B f (es1 ++ es2) = run_events B (run_events B f es1) es2.
Proof. unfold run_events. apply fold_left_app. Qed.

Lemma run_events_cons B f e es :
  run_events B f (e :: es) = run_events B (step B f e) es.
Proof. reflexivity. Qed.

(** C6: a message whose origin is not the application's own leaves the
    flow as it was: same hook state, same registrations, popup as before,
    no effect added (so no status request); and a run with such a message
    anywhere in it ends exactly where the run without it ends. *)
Theorem C6_foreign_origin_message_ignored :
  forall (B : Browser) (f : Flow) (origin : string) (data : MessageData)
         (before after : list Event),
    origin <> location_origin B ->
    step B f (Message origin data) = f
    /\ run_events B f (before ++ Message origin data :: after)
       = run_events B f (before ++ after).
Proof.
  intros B f origin data before after Hne. split.
  - now apply step_foreign_message.
  - rewrite !run_events_app, run_events_cons.
    now rewrite step_foreign_message.
Qed.

Lemma C6_witness :
  run_events Fixtures.browser started
    ([PopupGone] ++ Message "https://evil.example" (Text "google_calendar_connected")
                 :: [IntervalTick])
  = run_events Fixtures.browser started ([PopupGone] ++ [IntervalTick]).
Proof.
  apply (C6_foreign_origin_message_ignored Fixtures.browser started
           "https://evil.example" (Text "google_calendar_connected")
           [PopupGone] [IntervalTick]).
  discriminate.
Defined.

(** The same text from the application's own origin is acted upon. *)
Example own_origin_message_acts :
  let f := step Fixtures.browser started
             (Message "https://crm.example" (Text "google_calendar_connected")) in
  listener_on f = false /\ popup_closed f = true /\ status_checks f = 1%nat
  /\ isConnected (state (world f)) = true.
Proof. repeat split; reflexivity. Qed.

(** When the poll sees the closed popup first, it clears itself and the
    listener: whatever comes later, the status was checked once. *)
Example poll_first_checks_once :
  let f := run_events Fixtures.browser started
             [PopupGone; IntervalTick;
              Message "https://crm.example" (Text "google_calendar_connected");
              IntervalTick] in
  status_checks f = 1%nat /\ success_toasts f = 1%nat.
Proof. split; reflexivity. Qed.

(** C2, at the run in which the message arrives first: the listener takes
    itself off and closes the popup but leaves the interval running, so
    the next tick finds the popup closed and checks again: two status
    requests and two success toasts in one flow. *)
Theorem C2_message_first_checks_twice :
  let f1 := step Fixtures.browser started
              (Message "https://crm.example" (Text "google_calendar_connected")) in
  let f2 := step Fixtures.browser f1 IntervalTick in
  fst (connect Fixtures.browser Fixtures.fresh) = true
  /\ listener_on f1 = false /\ interval_on f1 = true
  /\ status_checks f1 = 1%nat /\ success_toasts f1 = 1%nat
  /\ status_checks f2 = 2%nat /\ success_toasts f2 = 2%nat.
Proof. repeat split; reflexivity. Qed.

End Watchers.

(** ** The table *)

Section TableFacts.

Import Store.

Lemma has_key_iff u p r : has_key u p r = true <-> key r = (u, p).
Proof.
  unfold has_key, key. rewrite andb_true_iff, !String.eqb_eq.
  split; [intros [-> ->]; reflexivity | intros H; inversion H; auto].
Qed.

Lemma has_key_enabled_iff u p r :
  has_key_enabled u p r = true <-> key r = (u, p) /\ enabled r = true.
Proof.
  unfold has_key_enabled. rewrite andb_true_iff, has_key_iff.
  destruct (enabled r); simpl; intuition congruence.
Qed.

Lemma filter_none {A} (f : A -> bool) l :
  (forall x, In x l -> f x = false) -> filter f l = [].
Proof.
  induction l as [|a l IH]; simpl; intros H; [reflexivity|].
  rewrite (H a) by auto. apply IH. auto.
Qed.

(** Under the unique constraint a key selects at most one row. *)
Lemma filter_unique (f : Integration -> bool) u p t r :
  unique_keys t ->
  (forall x, f x = true -> key x = (u, p)) ->
  In r t -> f r = true ->
  filter f t = [r].
Proof.
  unfold unique_keys. induction t as [|a t IH]; simpl; intros Hnd Hf Hin Hr; [contradiction|].
  inversion Hnd as [|? ? Hnotin Hnd']; subst.
  destruct Hin as [->|Hin].
  - rewrite Hr. f_equal. apply filter_none. intros x Hx.
    destruct (f x) eqn:Hfx; [|reflexivity].
    exfalso. apply Hnotin. rewrite (Hf r Hr), <- (Hf x Hfx). now apply in_map.
  - destruct (f a) eqn:Hfa.
    + exfalso. apply Hnotin. rewrite (Hf a Hfa), <- (Hf r Hr). now apply in_map.
    + now apply IH.
Qed.

Lemma filter_some_in {A} (f : A -> bool) l :
  existsb f l = true -> exists x, In x l /\ f x = true.
Proof. intros H. apply existsb_exists in H. exact H. Qed.

(** What [.single()] finds for the enabled record of a user. *)
Lemma single_enabled u p t :
  unique_keys t ->
  match single (filter (has_key_enabled u p) t) with
  | (Some r, None) => In r t /\ has_key_enabled u p r = true
                      /\ existsb (has_key_enabled u p) t = true
  | (None, Some e) => existsb (has_key_enabled u p) t = false /\ e = no_rows
  | _ => False
  end.
Proof.
  intros Hu. destruct (existsb (has_key_enabled u p) t) eqn:Hex.
  - destruct (filter_some_in _ _ Hex) as (r & Hin & Hr).
    rewrite (filter_unique (has_key_enabled u p) u p t r Hu); simpl; auto.
    intros x Hx. now apply has_key_enabled_iff in Hx.
  - rewrite filter_none; simpl; auto.
    intros x Hx. destruct (has_key_enabled u p x) eqn:Hfx; [|reflexivity].
    assert (existsb (has_key_enabled u p) t = true) by (apply existsb_exists; eauto).
    congruence.
Qed.

End TableFacts.

(** ** The [status] action *)

Section Status.

Import Store Proxy.

Lemma google_auth_status E req w u :
  unique_keys (table w) ->
  getUser E (token req) = Some u ->
  db_read_error E = None ->
  GoogleAuth.serve_status E req w
  = (json 200 (JsonConnected (existsb (has_key_enabled u "google_calendar") (table w))), w).
Proof.
  intros Hu Hauth Hdb.
  unfold GoogleAuth.serve_status, run, GoogleAuth.authenticated, GoogleAuth.status,
    bind, ret, select_single, GoogleAuth.GOOGLE_CALENDAR.
  rewrite Hauth, Hdb.
  pose proof (single_enabled u "google_calendar" (table w) Hu) as Hs.
  destruct (single _) as [[r|] [e|]]; try contradiction.
  - destruct Hs as (_ & _ & ->). reflexivity.
  - destruct Hs as (-> & _). reflexivity.
Qed.

Lemma google_calendar_status E req w u :
  unique_keys (table w) ->
  GoogleCalendar.configured E = true ->
  getUser E (token req) = Some u ->
  db_read_error E = None ->
  GoogleCalendar.serve_status E req w
  = (json 200 (JsonConnected (existsb (has_key_enabled u "google_calendar") (table w))), w).
Proof.
  intros Hu Hcfg Hauth Hdb.
  unfold GoogleCalendar.serve_status, run, GoogleCalendar.guarded, GoogleCalendar.status,
    try_catch, bind, ret, select_single, GoogleCalendar.GOOGLE_CALENDAR.
  rewrite Hcfg, Hauth, Hdb. simpl.
  pose proof (single_enabled u "google_calendar" (table w) Hu) as Hs.
  destruct (single _) as [[r|] [e|]]; try contradiction.
  - destruct Hs as (_ & _ & ->). reflexivity.
  - destruct Hs as (-> & ->). reflexivity.
Qed.

(** What both functions make of a lookup that fails with error [e]. *)
Lemma status_lookup_fails E req w u e :
  GoogleCalendar.configured E = true ->
  getUser E (token req) = Some u ->
  db_read_error E = Some e ->
  GoogleAuth.serve_status E req w = (json 200 (JsonConnected false), w)
  /\ GoogleCalendar.serve_status E req w
     = (if String.eqb (code e) "PGRST116"
        then json 200 (JsonConnected false)
        else json 500 (JsonStatusError "Failed to check connection status" (message e) false),
        w).
Proof.
  intros Hcfg Hauth Hdb.
  unfold GoogleAuth.serve_status, GoogleCalendar.serve_status, run,
    GoogleAuth.authenticated, GoogleCalendar.guarded, GoogleAuth.status,
    GoogleCalendar.status, try_catch, bind, ret, throw, select_single.
  rewrite Hcfg, Hauth, Hdb. cbn [negb]. cbv beta iota.
  split; [reflexivity|].
  destruct (String.eqb (code e) "PGRST116"); reflexivity.
Qed.

(** C9, as the code has it.  For an authenticated [status] call on a table
    with at most one row per (user, provider), [google-calendar] having its
    five settings: when the lookup in the table does not fail, both
    functions answer 200 with [connected] true exactly when the table
    holds an enabled record of the caller for "google_calendar" (so false,
    not an error, when there is none), and leave the world as it was.
    When the lookup fails with an error [e], [google-auth] answers 200 with
    [connected = false]; [google-calendar] does the same when the code of
    [e] is PGRST116 and otherwise answers 500, with [connected = false] and
    the message of [e] in the body. *)
Theorem C9_status_reports_enabled_record :
  forall (E : Env) (req : Request) (w : World) (u : string),
    unique_keys (table w) ->
    GoogleCalendar.configured E = true ->
    getUser E (token req) = Some u ->
    let connected := existsb (has_key_enabled u "google_calendar") (table w) in
    (db_read_error E = None ->
     GoogleAuth.serve_status E req w = (json 200 (JsonConnected connected), w)
     /\ GoogleCalendar.serve_status E req w = (json 200 (JsonConnected connected), w))
    /\ (connected = true <->
        exists r, In r (table w) /\ user_id r = u /\ provider r = "google_calendar"
                  /\ enabled r = true)
    /\ (forall e, db_read_error E = Some e ->
        GoogleAuth.serve_status E req w = (json 200 (JsonConnected false), w)
        /\ GoogleCalendar.serve_status E req w
           = (if String.eqb (code e) "PGRST116"
              then json 200 (JsonConnected false)
              else json 500 (JsonStatusError "Failed to check connection status"
                                             (message e) false),
              w)).
Proof.
  intros E req w u Hu Hcfg Hauth connected.
  split; [intros Hdb; split;
          [now apply google_auth_status|now apply google_calendar_status]|].
  split.
  - subst connected. rewrite existsb_exists. split.
    + intros (r & Hin & Hr). exists r. apply has_key_enabled_iff in Hr.
      destruct Hr as [Hk He]. inversion Hk. auto.
    + intros (r & Hin & H1 & H2 & H3). exists r. split; [exact Hin|].
      apply has_key_enabled_iff. unfold key. now rewrite H1, H2.
  - intros e Hdb. now apply (status_lookup_fails E req w u e).
Qed.

Lemma C9_witness :
  GoogleAuth.serve_status Fixtures.env Fixtures.plain_request Fixtures.stranger_world
  = (json 200 (JsonConnected false), Fixtures.stranger_world)
  /\ GoogleCalendar.serve_status Fixtures.env Fixtures.plain_request Fixtures.stranger_world
     = (json 200 (JsonConnected false), Fixtures.stranger_world).
Proof.
  apply (C9_status_reports_enabled_record Fixtures.env Fixtures.plain_request
           Fixtures.stranger_world "u1").
  - unfold unique_keys; simpl. constructor; [intros []|constructor].
  - reflexivity.
  - reflexivity.
  - reflexivity.
Defined.

(** C9 as stated fails when the lookup itself fails: [google-calendar]
    rethrows every error but "no rows" and answers 500, for a caller who is
    authenticated and does hold an enabled record. *)
Lemma C9_counterexample :
  getUser Fixtures.env_store_down (token Fixtures.plain_request) = Some "u1"
  /\ fst (GoogleCalendar.serve_status Fixtures.env_store_down Fixtures.plain_request
                                      Fixtures.valid_world)
     = mkResponse 500
         (JsonStatusError "Failed to check connection status" "connection failure" false)
  /\ status (fst (GoogleCalendar.serve_status Fixtures.env_store_down
                     Fixtures.plain_request Fixtures.valid_world))
     <> 200.
Proof. repeat split. discriminate. Qed.

End Status.

(** ** The [events] action *)

Section EventsAction.

Import Store Proxy.

(** Without an enabled record of the caller neither function sends
    anything to the provider, and neither touches the table; they differ in
    the status they answer with. *)
Lemma events_without_enabled_record E req w u :
  getUser E (token req) = Some u ->
  GoogleCalendar.configured E = true ->
  (forall r, In r (table w) -> has_key_enabled u "google_calendar" r = false) ->
  GoogleAuth.serve_events E req w
  = (json 400 (JsonError "Google Calendar not connected" None), w)
  /\ GoogleCalendar.serve_events E req w
     = (json 500 (JsonError "Failed to fetch events" (Some "Google Calendar not connected")), w).
Proof.
  intros Hauth Hcfg Hnone.
  unfold GoogleAuth.serve_events, GoogleCalendar.serve_events, run,
    GoogleAuth.authenticated, GoogleCalendar.guarded, GoogleAuth.events,
    GoogleCalendar.events, GoogleCalendar.getAccessToken, try_catch, bind, ret, throw,
    select_single, GoogleAuth.GOOGLE_CALENDAR, GoogleCalendar.GOOGLE_CALENDAR.
  rewrite Hauth, Hcfg. simpl.
  rewrite (filter_none _ _ Hnone). simpl.
  destruct (db_read_error E); split; reflexivity.
Qed.

(** C3, at a caller whose record is disabled: [google-auth] answers 400
    "Google Calendar not connected"; [google-calendar] throws the same
    text out of [getAccessToken], catches it in the [events] case and
    answers 500.  Neither sends a request to the provider. *)
Theorem C3_disabled_record_status :
  let w := Fixtures.world_of [Fixtures.row 1800000000000 false] in
  let req := Fixtures.as_u1 [] in
  GoogleAuth.serve_events Fixtures.env req w
  = (mkResponse 400 (JsonError "Google Calendar not connected" None), w)
  /\ GoogleCalendar.serve_events Fixtures.env req w
     = (mkResponse 500 (JsonError "Failed to fetch events"
                                  (Some "Google Calendar not connected")), w)
  /\ trace (snd (GoogleCalendar.serve_events Fixtures.env req w)) = [].
Proof. repeat split. Qed.

(** The calendar request of a caller whose token has not run out, in
    general: each bound of the window is the caller's when given (and not
    empty), else a reading of the clock, the end thirty days on.
    [google-auth] asks for single events in start order. *)
Lemma google_auth_events_request E req w u r :
  getUser E (token req) = Some u ->
  db_read_error E = None ->
  filter (has_key_enabled u "google_calendar") (table w) = [r] ->
  Date_now E (ticks w) < expires_at r ->
  let given k := searchParams_get k (query req) in
  let tmin := match given "timeMin" with
              | Some (String c s) => String c s
              | _ => toISOString E (Date_now E (S (ticks w)) + 0)
              end in
  let k := match given "timeMin" with
           | Some (String _ _) => S (ticks w)
           | _ => S (S (ticks w))
           end in
  let tmax := match given "timeMax" with
              | Some (String c s) => String c s
              | _ => toISOString E (Date_now E k + 30 * 24 * 60 * 60 * 1000)
              end in
  trace (snd (GoogleAuth.serve_events E req w))
  = trace w ++ [CalendarEvents
                  (Built "https://www.googleapis.com/calendar/v3/calendars/primary/events"
                         [("timeMin", tmin); ("timeMax", tmax);
                          ("singleEvents", "true"); ("orderBy", "startTime")])
                  (access_token r)].
Proof.
  intros Hauth Hrd Hf Hvalid given tmin k tmax. subst given tmin k tmax.
  unfold GoogleAuth.serve_events, run, GoogleAuth.authenticated, GoogleAuth.events.
  rewrite Hauth.
  unfold try_catch, bind, ret, throw, select_single, now, send,
    GoogleAuth.param_or_clock, GoogleAuth.GOOGLE_CALENDAR, GoogleAuth.THIRTY_DAYS,
    GoogleAuth.EVENTS_URL.
  rewrite Hrd, Hf. cbn [single fst snd].
  assert (Hleb : (expires_at r <=? Date_now E (ticks w)) = false) by (apply Z.leb_gt; lia).
  cbv beta iota. cbn [ticks table trace]. rewrite Hleb.
  destruct (refresh_token r) as [[|c0 s0]|];
    destruct (searchParams_get "timeMin" (query req)) as [[|c1 s1]|];
    destruct (searchParams_get "timeMax" (query req)) as [[|c2 s2]|];
    cbv beta iota; cbn [ticks table trace bind ret now];
    destruct (negb (Js.ok_status _)); unfold response_json, ret, throw;
    try destruct (JSON_parse _ _); reflexivity.
Qed.

(** [google-calendar] interpolates the same window into the address and
    stops after [singleEvents=true]. *)
Lemma google_calendar_events_request E req w u r :
  GoogleCalendar.configured E = true ->
  getUser E (token req) = Some u ->
  db_read_error E = None ->
  filter (has_key_enabled u "google_calendar") (table w) = [r] ->
  Date_now E (ticks w) <= expires_at r ->
  let given k := searchParams_get k (query req) in
  let tmin := match given "timeMin" with
              | Some (String c s) => String c s
              | _ => toISOString E (Date_now E (S (ticks w)) + 0)
              end in
  let k := match given "timeMin" with
           | Some (String _ _) => S (ticks w)
           | _ => S (S (ticks w))
           end in
  let tmax := match given "timeMax" with
              | Some (String c s) => String c s
              | _ => toISOString E (Date_now E k + 30 * 24 * 60 * 60 * 1000)
              end in
  trace (snd (GoogleCalendar.serve_events E req w))
  = trace w ++ [CalendarEvents
                  (Interpolated
                     ("https://www.googleapis.com/calendar/v3"
                      +++ "/calendars/primary/events?timeMin=" +++ tmin
                      +++ "&timeMax=" +++ tmax +++ "&singleEvents=true"))
                  (access_token r)].
Proof.
  intros Hcfg Hauth Hrd Hf Hvalid given tmin k tmax. subst given tmin k tmax.
  unfold GoogleCalendar.serve_events, run, GoogleCalendar.guarded, GoogleCalendar.events,
    GoogleCalendar.getAccessToken.
  rewrite Hcfg, Hauth.
  unfold try_catch, bind, ret, throw, select_single, now, send,
    GoogleCalendar.param_or_clock, GoogleCalendar.GOOGLE_CALENDAR,
    GoogleCalendar.THIRTY_DAYS, GoogleCalendar.GOOGLE_API_URL.
  cbn [negb]. cbv beta iota. rewrite Hrd, Hf. cbn [single fst snd].
  assert (Hltb : (expires_at r <? Date_now E (ticks w)) = false) by (apply Z.ltb_ge; lia).
  cbv beta iota. cbn [ticks table trace]. rewrite Hltb.
  destruct (refresh_token r) as [[|c0 s0]|];
    destruct (searchParams_get "timeMin" (query req)) as [[|c1 s1]|];
    destruct (searchParams_get "timeMax" (query req)) as [[|c2 s2]|];
    cbv beta iota; cbn [ticks table trace bind ret now];
    destruct (negb (Js.ok_status _)); unfold response_json, ret, throw;
    try destruct (JSON_parse _ _); reflexivity.
Qed.

(** C5, at a caller with a valid enabled record.  With the window given,
    both functions pass it on; without it, both read the clock for the
    start and again for the end, thirty days on.  [google-auth] asks for
    [singleEvents=true] and [orderBy=startTime]; the address
    [google-calendar] builds ends after [singleEvents=true]: it does not
    ask for any order. *)
Theorem C5_calendar_request :
  let w := Fixtures.world_of [Fixtures.row 1800000000000 true] in
  let window := [("timeMin", "2025-05-01T00:00:00Z"); ("timeMax", "2025-06-01T00:00:00Z")] in
  trace (snd (GoogleAuth.serve_events Fixtures.env (Fixtures.as_u1 window) w))
  = [CalendarEvents
       (Built "https://www.googleapis.com/calendar/v3/calendars/primary/events"
              [("timeMin", "2025-05-01T00:00:00Z"); ("timeMax", "2025-06-01T00:00:00Z");
               ("singleEvents", "true"); ("orderBy", "startTime")])
       (Some "ya29.old")]
  /\ trace (snd (GoogleCalendar.serve_events Fixtures.env (Fixtures.as_u1 window) w))
     = [CalendarEvents
          (Interpolated "https://www.googleapis.com/calendar/v3/calendars/primary/events?timeMin=2025-05-01T00:00:00Z&timeMax=2025-06-01T00:00:00Z&singleEvents=true")
          (Some "ya29.old")]
  /\ trace (snd (GoogleAuth.serve_events Fixtures.env (Fixtures.as_u1 []) w))
     = [CalendarEvents
          (Built "https://www.googleapis.com/calendar/v3/calendars/primary/events"
                 [("timeMin", Hook.show (Fixtures.clock 1));
                  ("timeMax", Hook.show (Fixtures.clock 2 + 30 * 24 * 60 * 60 * 1000));
                  ("singleEvents", "true"); ("orderBy", "startTime")])
          (Some "ya29.old")]
  /\ trace (snd (GoogleCalendar.serve_events Fixtures.env (Fixtures.as_u1 []) w))
     = [CalendarEvents
          (Interpolated ("https://www.googleapis.com/calendar/v3/calendars/primary/events?timeMin="
                         +++ Hook.show (Fixtures.clock 1) +++ "&timeMax="
                         +++ Hook.show (Fixtures.clock 2 + 30 * 24 * 60 * 60 * 1000)
                         +++ "&singleEvents=true"))
          (Some "ya29.old")].
Proof. repeat split; vm_compute; reflexivity. Qed.

End EventsAction.

(** ** Disconnecting *)

Section Disconnect.

Import Store Proxy Reading.

Lemma same_but_flag_refl r : same_but_flag r r.
Proof. unfold same_but_flag. repeat split. Qed.

Lemma Forall2_map_r {A} (R : A -> A -> Prop) (g : A -> A) l :
  (forall x, R x (g x)) -> Forall2 R l (map g l).
Proof. intros H. induction l; simpl; constructor; auto. Qed.

Lemma Forall2_same {A} (R : A -> A -> Prop) l :
  (forall x, R x x) -> Forall2 R l l.
Proof. intros H. induction l; constructor; auto. Qed.

Lemma Forall2_weaken {A} (R S : A -> A -> Prop) l l' :
  (forall x y, R x y -> S x y) -> Forall2 R l l' -> Forall2 S l l'.
Proof. intros H HF. induction HF; constructor; auto. Qed.

(** The update of both [disconnect] paths, row by row. *)
Lemma disable_in_place u t tb :
  disabled_in_place u t tb
    (update (has_key u "google_calendar") [SetEnabled false; SetUpdatedAt t] tb).
Proof.
  unfold disabled_in_place, update. apply Forall2_map_r. intros r.
  destruct (has_key u "google_calendar" r); [|reflexivity].
  unfold same_but_flag; simpl. repeat split.
Qed.

Lemma disabled_in_place_frame u t before after :
  disabled_in_place u t before after -> Forall2 same_but_flag before after.
Proof.
  apply Forall2_weaken. intros r r'.
  destruct (has_key u "google_calendar" r).
  - intros (_ & _ & H). exact H.
  - intros ->. apply same_but_flag_refl.
Qed.

Lemma disabled_in_place_none_enabled u t before after :
  disabled_in_place u t before after ->
  forall r', In r' after -> has_key_enabled u "google_calendar" r' = false.
Proof.
  unfold disabled_in_place. induction 1 as [|r r0 l l' Hr _ IH]; simpl; [contradiction|].
  intros r' [<-|Hin]; [|now apply IH].
  unfold has_key_enabled. destruct (has_key u "google_calendar" r) eqn:Hk.
  - destruct Hr as (-> & _). apply andb_false_r.
  - subst r0. now rewrite Hk.
Qed.

Lemma no_enabled_row_status u t :
  (forall r, In r t -> has_key_enabled u "google_calendar" r = false) ->
  status_says_disconnected u t.
Proof.
  intros Hnone E req w Ht Hauth. subst t.
  unfold GoogleAuth.serve_status, GoogleCalendar.serve_status, run,
    GoogleAuth.authenticated, GoogleCalendar.guarded, GoogleAuth.status,
    GoogleCalendar.status, try_catch, bind, ret, throw, select_single,
    GoogleAuth.GOOGLE_CALENDAR, GoogleCalendar.GOOGLE_CALENDAR.
  rewrite Hauth. split.
  - destruct (db_read_error E); simpl; [reflexivity|].
    now rewrite (filter_none _ _ Hnone).
  - intros ->. simpl. destruct (db_read_error E) as [e|]; simpl.
    + destruct (negb (code e =? "PGRST116")%string); reflexivity.
    + now rewrite (filter_none _ _ Hnone).
Qed.

(** C8, as the code has it.  A disconnect of an authenticated user,
    through the [disconnect] action of [google-auth] or through the hook
    (with a session), deletes no row and changes no column but [enabled]
    and [updated_at], in every case.  When the table takes the update, the
    action answers 200 and the hook returns true, the rows of
    (user, "google_calendar") have [enabled = false] and the new update
    time, every other row is untouched, and every later [status] call of
    that user carries connected = false.  When the table turns the update
    down, the action answers 500 and the hook returns false, and the table
    is the one before. *)
Theorem C8_disconnect_only_disables :
  forall (E : Env) (req : Request) (w : World) (u : string)
         (B : Hook.Browser) (hw : Hook.World) (s : Hook.Session),
    getUser E (token req) = Some u ->
    Hook.getSession B = Some s ->
    let answer := fst (GoogleAuth.serve_disconnect E req w) in
    let w' := snd (GoogleAuth.serve_disconnect E req w) in
    let done := fst (Hook.disconnect B hw) in
    let hw' := snd (Hook.disconnect B hw) in
    Forall2 same_but_flag (table w) (table w')
    /\ Forall2 same_but_flag (Hook.remote hw) (Hook.remote hw')
    /\ (db_write_error E = None ->
        status answer = 200
        /\ disabled_in_place u (Date_now E (ticks w)) (table w) (table w')
        /\ status_says_disconnected u (table w'))
    /\ (Hook.table_error B = None ->
        done = true
        /\ disabled_in_place (Hook.user_id s) (Hook.clock B) (Hook.remote hw) (Hook.remote hw')
        /\ status_says_disconnected (Hook.user_id s) (Hook.remote hw'))
    /\ (db_write_error E <> None -> status answer = 500 /\ table w' = table w)
    /\ (Hook.table_error B <> None -> done = false /\ Hook.remote hw' = Hook.remote hw).
Proof.
  intros E req w u B hw s Hauth Hsess.
  unfold GoogleAuth.serve_disconnect, run, GoogleAuth.authenticated, GoogleAuth.disconnect,
    try_catch, bind, ret, throw, now, write, GoogleAuth.GOOGLE_CALENDAR,
    Hook.disconnect, Hook.disconnect_failed, Hook.disable.
  rewrite Hauth, Hsess. simpl.
  assert (Hdone : forall u' t tb,
             let tb' := update (has_key u' "google_calendar")
                               [SetEnabled false; SetUpdatedAt t] tb in
             disabled_in_place u' t tb tb' /\ status_says_disconnected u' tb').
  { intros u' t tb tb'. split; [apply disable_in_place|].
    apply no_enabled_row_status.
    eapply disabled_in_place_none_enabled, disable_in_place. }
  destruct (db_write_error E) as [e|]; destruct (Hook.table_error B) as [e'|]; simpl;
    (split; [first [apply Forall2_same, same_but_flag_refl
                   |eapply disabled_in_place_frame, disable_in_place]|]);
    (split; [first [apply Forall2_same, same_but_flag_refl
                   |eapply disabled_in_place_frame, disable_in_place]|]);
    (split; [intros Hok; first [discriminate Hok|split; [reflexivity|apply Hdone]]|]);
    (split; [intros Hok; first [discriminate Hok|split; [reflexivity|apply Hdone]]|]);
    split; intros Hno; try (exfalso; apply Hno; reflexivity); split; reflexivity.
Qed.

Lemma C8_witness :
  status_says_disconnected "u1"
    (table (snd (GoogleAuth.serve_disconnect Fixtures.env Fixtures.plain_request
                                             Fixtures.valid_world)))
  /\ fst (Hook.disconnect Fixtures.browser Fixtures.linked_world) = true
  /\ status_says_disconnected "u1"
       (Hook.remote (snd (Hook.disconnect Fixtures.browser Fixtures.linked_world))).
Proof.
  pose proof (C8_disconnect_only_disables Fixtures.env Fixtures.plain_request
                Fixtures.valid_world "u1"
                Fixtures.browser Fixtures.linked_world (Hook.mkSession "jwt-u1" "u1")
                eq_refl eq_refl) as H.
  cbv zeta in H. destruct H as (_ & _ & HA & HB & _).
  destruct (HA eq_refl) as (_ & _ & HA').
  destruct (HB eq_refl) as (HB1 & _ & HB2).
  split; [exact HA'|]. split; [exact HB1|exact HB2].
Defined.

(** C8 as stated fails when the table turns the update down: the action
    answers 500, the hook returns false, the record of the user is still
    enabled, and a [status] call that follows says connected. *)
Lemma C8_counterexample :
  getUser Fixtures.env_store_down (token Fixtures.plain_request) = Some "u1"
  /\ GoogleAuth.serve_disconnect Fixtures.env_store_down Fixtures.plain_request
                                 Fixtures.valid_world
     = (json 500 (JsonError "Failed to disconnect: Error disconnecting: connection failure"
                            None),
        mkWorld (table Fixtures.valid_world) 1 [])
  /\ fst (GoogleAuth.serve_status Fixtures.env Fixtures.plain_request
            (snd (GoogleAuth.serve_disconnect Fixtures.env_store_down
                    Fixtures.plain_request Fixtures.valid_world)))
     = json 200 (JsonConnected true)
  /\ fst (Hook.disconnect Fixtures.browser_store_down Fixtures.linked_world) = false
  /\ map enabled
         (Hook.remote (snd (Hook.disconnect Fixtures.browser_store_down
                                            Fixtures.linked_world)))
     = [true; true].
Proof. repeat split. Qed.

Example disconnect_keeps_rows :
  let w := Fixtures.world_of [Fixtures.row 1800000000000 true; Fixtures.other_row] in
  table (snd (GoogleAuth.serve_disconnect Fixtures.env (Fixtures.as_u1 []) w))
  = [Store.mkIntegration "u1" "google_calendar" (Some "ya29.old") (Some "1//r")
       (Some "Bearer") 1800000000000 false 1600000000000 1700000000000;
     Fixtures.other_row].
Proof. reflexivity. Qed.

End Disconnect.

(** ** The OAuth callback *)

Section Callback.

Import Store Proxy Reading.

Lemma map_key_update u pr p t :
  (forall r, key (patch p r) = (u, pr)) ->
  map key (update (has_key u pr) p t) = map key t.
Proof.
  intros Hp. unfold update. rewrite map_map. apply map_ext_in. intros r _.
  destruct (has_key u pr r) eqn:Hk; [|reflexivity].
  apply has_key_iff in Hk. now rewrite Hp, Hk.
Qed.

(** The upsert keeps the unique constraint and leaves exactly one row
    with the payload's key: the payload laid over the old row, or over a
    blank one. *)
Lemma upsert_spec u pr p t :
  unique_keys t ->
  (forall r, key (patch p r) = (u, pr)) ->
  unique_keys (upsert u pr p t)
  /\ exists r0, filter (has_key u pr) (upsert u pr p t) = [patch p r0].
Proof.
  intros Hu Hp. unfold upsert. destruct (existsb (has_key u pr) t) eqn:Hex.
  - assert (Hu' : unique_keys (update (has_key u pr) p t)).
    { unfold unique_keys. now rewrite map_key_update. }
    split; [exact Hu'|].
    apply existsb_exists in Hex. destruct Hex as (r0 & Hin & Hk). exists r0.
    apply (filter_unique (has_key u pr) u pr); auto.
    + intros x Hx. now apply has_key_iff.
    + unfold update. apply in_map_iff. exists r0. now rewrite Hk.
    + apply has_key_iff, Hp.
  - assert (Hnone : forall x, In x t -> has_key u pr x = false).
    { intros x Hx. destruct (has_key u pr x) eqn:Hk; [|reflexivity].
      assert (existsb (has_key u pr) t = true) by (apply existsb_exists; eauto).
      congruence. }
    split.
    + unfold unique_keys. rewrite map_app. simpl. rewrite Hp.
      apply NoDup_app; [exact Hu | repeat constructor; intros [] | ].
      intros k Hk [<-|[]]. apply in_map_iff in Hk. destruct Hk as (x & Hkx & Hx).
      apply has_key_iff in Hkx. rewrite (Hnone x Hx) in Hkx. discriminate.
    + exists blank. rewrite filter_app, (filter_none _ _ Hnone). simpl.
      assert (Hk : has_key u pr (patch p blank) = true) by apply has_key_iff, Hp.
      now rewrite Hk.
Qed.

Lemma one_enabled_row_status u t r :
  unique_keys t ->
  filter (has_key u "google_calendar") t = [r] ->
  enabled r = true ->
  status_says_connected u t.
Proof.
  intros Hu Hf He E req w Ht Hauth Hdb. subst t.
  assert (Hin : In r (filter (has_key u "google_calendar") (table w)))
    by (rewrite Hf; now left).
  apply filter_In in Hin. destruct Hin as [Hin Hk].
  assert (Hex : existsb (has_key_enabled u "google_calendar") (table w) = true).
  { apply existsb_exists. exists r. split; [exact Hin|].
    unfold has_key_enabled. now rewrite Hk, He. }
  split.
  - now rewrite (google_auth_status E req w u Hu Hauth Hdb), Hex.
  - intros Hcfg. now rewrite (google_calendar_status E req w u Hu Hcfg Hauth Hdb), Hex.
Qed.

Lemma stored_after_upsert u p t expiry :
  unique_keys t ->
  (forall r, key (patch p r) = (u, "google_calendar")) ->
  (forall r, enabled (patch p r) = true) ->
  (forall r, expires_at (patch p r) = expiry) ->
  callback_stored u expiry (upsert u "google_calendar" p t).
Proof.
  intros Hu Hk He Hx.
  destruct (upsert_spec u "google_calendar" p t Hu Hk) as (Hu' & r0 & Hf).
  split; [exact Hu'|]. split.
  - exists (patch p r0). auto.
  - apply (one_enabled_row_status u _ (patch p r0)); auto.
Qed.

(** What a callback of [google-auth] that answers 200 has stored. *)
Lemma google_auth_callback_stored E req w U code :
  unique_keys (table w) ->
  searchParams_get "state" (query req) = Some U ->
  searchParams_get "code" (query req) = Some code ->
  status (fst (GoogleAuth.serve_callback E req w)) = 200 ->
  exists ttl,
    expires_in (token_exchange E code) = Some ttl
    /\ callback_stored U (Date_now E (ticks w) + ttl * 1000)
                       (table (snd (GoogleAuth.serve_callback E req w))).
Proof.
  intros Hu Hstate Hcode.
  unfold GoogleAuth.serve_callback, run, GoogleAuth.callback.
  rewrite Hstate, Hcode.
  destruct (searchParams_get "error" (query req)) as [[|c0 s0]|];
    destruct code as [|c1 s1]; destruct U as [|c2 s2]; simpl;
    try (intros H; discriminate H).
  all: unfold try_catch, bind, ret, throw, send, now, write, to_instant; simpl.
  all: destruct (negb _); simpl; try (intros H; discriminate H).
  all: destruct (negb (ok _)); simpl; try (intros H; discriminate H).
  all: destruct (expires_in _) as [ttl|]; simpl; try (intros H; discriminate H).
  all: destruct (valid_time _); simpl; try (intros H; discriminate H).
  all: destruct (db_write_error E); simpl; try (intros H; discriminate H).
  all: intros _; exists ttl; split; [reflexivity|].
  all: apply stored_after_upsert; auto; intros r;
    destruct (td_access_token _), (td_refresh_token _), (td_token_type _);
    reflexivity.
Qed.

(** What a callback of [google-calendar] that answers 200 has stored: the
    lifetime is the reported one, or 3600 seconds when none or zero is
    reported. *)
Lemma google_calendar_callback_stored E req w U code :
  unique_keys (table w) ->
  searchParams_get "state" (query req) = Some U ->
  searchParams_get "code" (query req) = Some code ->
  status (fst (GoogleCalendar.serve_callback E req w)) = 200 ->
  callback_stored U
    (Date_now E (ticks w) + Js.num_or (expires_in (token_exchange E code)) 3600 * 1000)
    (table (snd (GoogleCalendar.serve_callback E req w))).
Proof.
  intros Hu Hstate Hcode.
  unfold GoogleCalendar.serve_callback, run, GoogleCalendar.guarded,
    GoogleCalendar.callback.
  rewrite Hstate, Hcode.
  destruct (negb (GoogleCalendar.configured E)); simpl;
    [intros H; discriminate H|].
  destruct (getUser E (token req)); simpl; [|intros H; discriminate H].
  destruct code as [|c1 s1]; destruct U as [|c2 s2]; simpl;
    try (intros H; discriminate H).
  unfold try_catch, bind, ret, throw, send, now, write, to_instant,
    GoogleCalendar.oauth2_tokens; simpl.
  destruct (negb (ok _)); simpl; try (intros H; discriminate H).
  destruct (td_access_token _) eqn:Hat; simpl; try (intros H; discriminate H).
  destruct (valid_time _); simpl; try (intros H; discriminate H).
  destruct (db_write_error E); simpl; try (intros H; discriminate H).
  intros _.
  apply stored_after_upsert; auto; intros r;
    destruct (td_refresh_token _); reflexivity.
Qed.

(** When the callback of [google-auth] goes through. *)
Lemma google_auth_callback_succeeds E req w U code ttl :
  searchParams_get "state" (query req) = Some U ->
  searchParams_get "code" (query req) = Some code ->
  U <> "" -> code <> "" ->
  Js.truthy (searchParams_get "error" (query req)) = false ->
  oauth_settings E = true ->
  ok (token_exchange E code) = true ->
  expires_in (token_exchange E code) = Some ttl ->
  valid_time (Date_now E (ticks w) + ttl * 1000) = true ->
  db_write_error E = None ->
  status (fst (GoogleAuth.serve_callback E req w)) = 200.
Proof.
  intros Hstate Hcode HU Hc Herr Hset Hok Httl Hv Hwr.
  unfold GoogleAuth.serve_callback, run, GoogleAuth.callback.
  rewrite Hstate, Hcode.
  destruct code as [|c1 s1]; [congruence|]. destruct U as [|c2 s2]; [congruence|].
  unfold oauth_settings in Hset.
  destruct (searchParams_get "error" (query req)) as [[|c0 s0]|];
    try discriminate Herr.
  all: unfold try_catch, bind, ret, throw, send, now, write, to_instant.
  all: rewrite Hset; cbn [negb]; cbv beta iota; cbn [ticks table trace].
  all: rewrite Hok, Httl; cbn [negb option_map]; cbv beta iota.
  all: cbn [ticks table trace]; rewrite Hv; cbv beta iota; rewrite Hwr; reflexivity.
Qed.

(** When the callback of [google-calendar] goes through. *)
Lemma google_calendar_callback_succeeds E req w U code :
  searchParams_get "state" (query req) = Some U ->
  searchParams_get "code" (query req) = Some code ->
  U <> "" -> code <> "" ->
  GoogleCalendar.configured E = true ->
  getUser E (token req) <> None ->
  ok (token_exchange E code) = true ->
  td_access_token (token_exchange E code) <> None ->
  valid_time (Date_now E (ticks w)
              + Js.num_or (expires_in (token_exchange E code)) 3600 * 1000) = true ->
  db_write_error E = None ->
  status (fst (GoogleCalendar.serve_callback E req w)) = 200.
Proof.
  intros Hstate Hcode HU Hc Hcfg Hauth Hok Hat Hv Hwr.
  unfold GoogleCalendar.serve_callback, run, GoogleCalendar.guarded,
    GoogleCalendar.callback.
  rewrite Hstate, Hcode, Hcfg. cbn [negb].
  destruct (getUser E (token req)) as [user|]; [|congruence].
  destruct code as [|c1 s1]; [congruence|]. destruct U as [|c2 s2]; [congruence|].
  unfold GoogleCalendar.oauth2_tokens, try_catch, bind, ret, throw, send, now, write,
    to_instant.
  cbv beta iota. cbn [ticks table trace]. rewrite Hok. cbn [negb].
  destruct (td_access_token _) as [a|]; [|congruence].
  cbv beta iota. cbn [ticks table trace]. rewrite Hv. cbv beta iota.
  rewrite Hwr. reflexivity.
Qed.

(** C7, as the code has it.  On a table with at most one row per
    (user, provider), after a callback for user id U that answers 200 the
    table keeps that constraint and holds exactly one row for
    (U, "google_calendar"), written by the upsert on that key, with
    [enabled = true]; its expiry is the clock reading of the handler plus
    the reported lifetime (seconds, so times 1000) in [google-auth], and in
    [google-calendar] that or, when no lifetime or a lifetime of zero is
    reported, the clock reading plus 3600 seconds; every later [status]
    call of U whose lookup works answers connected = true.  The callback
    does answer 200 when the code and the state are given and not empty,
    the provider grants the exchange, the expiry is a date and the table
    takes the write, with, in [google-auth], no [error] parameter, the
    three OAuth settings and a reported lifetime, and in
    [google-calendar] the five settings, a bearer token that resolves to a
    user and an access token in the provider's answer. *)
Theorem C7_callback_upserts_enabled_record :
  forall (E : Env) (req : Request) (w : World) (U code : string),
    unique_keys (table w) ->
    searchParams_get "state" (query req) = Some U ->
    searchParams_get "code" (query req) = Some code ->
    let reported := expires_in (token_exchange E code) in
    let t := Date_now E (ticks w) in
    let auth := GoogleAuth.serve_callback E req w in
    let cal := GoogleCalendar.serve_callback E req w in
    (status (fst auth) = 200 ->
     exists ttl, reported = Some ttl
                 /\ callback_stored U (t + ttl * 1000) (table (snd auth)))
    /\ (status (fst cal) = 200 ->
        callback_stored U (t + Js.num_or reported 3600 * 1000) (table (snd cal)))
    /\ (U <> "" -> code <> "" ->
        ok (token_exchange E code) = true ->
        db_write_error E = None ->
        (Js.truthy (searchParams_get "error" (query req)) = false ->
         oauth_settings E = true ->
         (exists ttl, reported = Some ttl /\ valid_time (t + ttl * 1000) = true) ->
         status (fst auth) = 200)
        /\ (GoogleCalendar.configured E = true ->
            getUser E (token req) <> None ->
            td_access_token (token_exchange E code) <> None ->
            valid_time (t + Js.num_or reported 3600 * 1000) = true ->
            status (fst cal) = 200)).
Proof.
  intros E req w U code Hu Hstate Hcode reported t auth cal.
  subst reported t auth cal.
  split; [now apply google_auth_callback_stored|].
  split; [now apply google_calendar_callback_stored|].
  intros HU Hc Hok Hwr. split.
  - intros Herr Hset (ttl & Httl & Hv).
    now apply (google_auth_callback_succeeds E req w U code ttl).
  - intros Hcfg Hauth Hat Hv.
    now apply (google_calendar_callback_succeeds E req w U code).
Qed.

Lemma C7_witness :
  callback_stored "u1" (Fixtures.clock 0 + 3599 * 1000)
    (table (snd (GoogleAuth.serve_callback Fixtures.env Fixtures.callback_request
                                           Fixtures.stranger_world)))
  /\ callback_stored "u1" (Fixtures.clock 0 + 3599 * 1000)
       (table (snd (GoogleCalendar.serve_callback Fixtures.env Fixtures.callback_request
                                                 Fixtures.stranger_world))).
Proof.
  assert (Hu : unique_keys (table Fixtures.stranger_world)).
  { unfold unique_keys; simpl. constructor; [intros []|constructor]. }
  pose proof (C7_callback_upserts_enabled_record Fixtures.env Fixtures.callback_request
                Fixtures.stranger_world "u1" "4/0Ab" Hu eq_refl eq_refl) as H.
  cbv zeta in H. destruct H as (HA & HB & HC).
  assert (Hne : forall c s, String c s <> "") by discriminate.
  destruct (HC (Hne _ _) (Hne _ _) eq_refl eq_refl) as [HC1 HC2].
  split.
  - destruct (HA (HC1 eq_refl eq_refl (ex_intro _ 3599 (conj eq_refl eq_refl))))
      as (ttl & Httl & Hs).
    change (Some 3599 = Some ttl) in Httl. injection Httl as <-. exact Hs.
  - apply HB, HC2; [reflexivity|discriminate|discriminate|reflexivity].
Defined.

(** C7 as stated fails in [google-calendar] when the provider reports a
    lifetime of zero: the callback succeeds and stores the clock reading
    plus 3600 seconds, not the clock reading plus the reported lifetime. *)
Lemma C7_counterexample :
  status (fst (GoogleCalendar.serve_callback Fixtures.env_lifeless_exchange
                 Fixtures.callback_request Fixtures.stranger_world)) = 200
  /\ expires_in (token_exchange Fixtures.env_lifeless_exchange "4/0Ab") = Some 0
  /\ map expires_at
         (filter (has_key "u1" "google_calendar")
            (table (snd (GoogleCalendar.serve_callback Fixtures.env_lifeless_exchange
                           Fixtures.callback_request Fixtures.stranger_world))))
     = [Fixtures.clock 0 + 3600 * 1000]
  /\ Fixtures.clock 0 + 3600 * 1000 <> Fixtures.clock 0 + 0 * 1000.
Proof.
  split; [reflexivity|]. split; [reflexivity|]. split; [reflexivity|].
  vm_compute. discriminate.
Qed.

(** A second callback of the same user lands on the row of the first. *)
Example callback_twice_one_row :
  let req := mkRequest "jwt-u1" [("code", "4/0Ab"); ("state", "u1")] in
  let w1 := snd (GoogleCalendar.serve_callback Fixtures.env req (Fixtures.world_of [])) in
  let w2 := snd (GoogleCalendar.serve_callback Fixtures.env req w1) in
  List.length (table w1) = 1%nat /\ List.length (table w2) = 1%nat
  /\ map enabled (table w2) = [true]
  /\ map expires_at (table w2) = [Fixtures.clock 3 + 3599 * 1000].
Proof. repeat split. Qed.

End Callback.

(** ** The token refresh of [events] *)

Section Refresh.

Import Store Proxy Reading.

Lemma filter_update_stable (f g : Integration -> bool) p t :
  (forall r, f (patch p r) = f r) ->
  filter f (update g p t) = map (fun r => if g r then patch p r else r) (filter f t).
Proof.
  intros Hf. unfold update. induction t as [|a t IH]; simpl; [reflexivity|].
  destruct (g a) eqn:Hg; rewrite ?Hf; destruct (f a); simpl; rewrite ?Hg, IH; reflexivity.
Qed.

Lemma has_key_enabled_key u p r :
  has_key_enabled u p r = true -> has_key u p r = true.
Proof. unfold has_key_enabled. intros H. apply andb_true_iff in H. tauto. Qed.

(** The row the refresh leaves in place of the enabled record [r]. *)
Lemma refreshed_row u fresh expiry t r tb :
  filter (has_key_enabled u "google_calendar") tb = [r] ->
  expires_at r < expiry ->
  exists r',
    filter (has_key_enabled u "google_calendar")
           (update (has_key u "google_calendar")
                   [SetAccessToken fresh; SetExpiresAt expiry; SetUpdatedAt t] tb) = [r']
    /\ access_token r' = Some fresh /\ expires_at r' = expiry
    /\ expires_at r < expires_at r'.
Proof.
  intros Hf Hlt.
  rewrite filter_update_stable by (intros x; reflexivity).
  rewrite Hf. simpl.
  assert (Hk : has_key u "google_calendar" r = true).
  { apply has_key_enabled_key.
    assert (Hin : In r (filter (has_key_enabled u "google_calendar") tb))
      by (rewrite Hf; now left).
    now apply filter_In in Hin. }
  rewrite Hk. eexists. split; [reflexivity|]. simpl. auto.
Qed.

(** Filling in a bound of the window sends nothing and writes nothing. *)
Lemma google_auth_param_frame E v shift w :
  exists s k, GoogleAuth.param_or_clock E v shift w = (Done s, mkWorld (table w) k (trace w)).
Proof.
  unfold GoogleAuth.param_or_clock, bind, ret, now.
  destruct w; destruct v as [[|c s]|]; simpl; eexists; eexists; reflexivity.
Qed.

Lemma google_calendar_param_frame E v shift w :
  exists s k, GoogleCalendar.param_or_clock E v shift w
              = (Done s, mkWorld (table w) k (trace w)).
Proof.
  unfold GoogleCalendar.param_or_clock, bind, ret, now.
  destruct w; destruct v as [[|c s]|]; simpl; eexists; eexists; reflexivity.
Qed.

Lemma google_auth_refreshes E req w u refresh fresh r ttl :
  getUser E (token req) = Some u ->
  db_read_error E = None ->
  db_write_error E = None ->
  monotone (Date_now E) ->
  filter (has_key_enabled u "google_calendar") (table w) = [r] ->
  refresh_token r = Some refresh ->
  refresh <> "" ->
  ok (token_refresh E refresh) = true ->
  td_access_token (token_refresh E refresh) = Some fresh ->
  expires_in (token_refresh E refresh) = Some ttl ->
  0 < ttl ->
  valid_time (Date_now E (S (ticks w)) + ttl * 1000) = true ->
  expires_at r <= Date_now E (ticks w) ->
  refreshed_once u refresh fresh (Date_now E (S (ticks w)) + ttl * 1000) r
                 w (snd (GoogleAuth.serve_events E req w)).
Proof.
  intros Hauth Hrd Hwr Hmono Hf Hrt Hne Hok Hat Httl Hpos Hv Hexp.
  assert (Hlater : expires_at r < Date_now E (S (ticks w)) + ttl * 1000).
  { pose proof (Hmono (ticks w) (S (ticks w)) (Nat.le_succ_diag_r _)). lia. }
  unfold GoogleAuth.serve_events, run, GoogleAuth.authenticated, GoogleAuth.events.
  rewrite Hauth.
  unfold try_catch, bind, ret, throw, select_single, now, send, write, to_instant,
    GoogleAuth.GOOGLE_CALENDAR.
  rewrite Hrd, Hf. simpl. rewrite Hrt.
  destruct refresh as [|c s]; [congruence|].
  apply Z.leb_le in Hexp. rewrite Hexp. simpl.
  rewrite Hok, Httl. simpl. rewrite Hv, Hwr, Hat. simpl.
  match goal with
  | |- context [GoogleAuth.param_or_clock E ?v ?sh ?w0] =>
      destruct (google_auth_param_frame E v sh w0) as (tmin & k1 & ->)
  end.
  match goal with
  | |- context [GoogleAuth.param_or_clock E ?v ?sh ?w0] =>
      destruct (google_auth_param_frame E v sh w0) as (tmax & k2 & ->)
  end.
  simpl.
  destruct (negb (Js.ok_status _)); unfold response_json, ret, throw;
    try destruct (JSON_parse _ _); simpl;
    (split;
     [eexists; rewrite <- app_assoc; reflexivity
     |now apply refreshed_row]).
Qed.

Lemma google_calendar_refreshes E req w u refresh fresh r ttl :
  GoogleCalendar.configured E = true ->
  getUser E (token req) = Some u ->
  db_read_error E = None ->
  db_write_error E = None ->
  monotone (Date_now E) ->
  filter (has_key_enabled u "google_calendar") (table w) = [r] ->
  refresh_token r = Some refresh ->
  refresh <> "" ->
  ok (token_refresh E refresh) = true ->
  td_access_token (token_refresh E refresh) = Some fresh ->
  expires_in (token_refresh E refresh) = Some ttl ->
  0 < ttl ->
  valid_time (Date_now E (S (ticks w)) + ttl * 1000) = true ->
  expires_at r < Date_now E (ticks w) ->
  refreshed_once u refresh fresh (Date_now E (S (ticks w)) + ttl * 1000) r
                 w (snd (GoogleCalendar.serve_events E req w)).
Proof.
  intros Hcfg Hauth Hrd Hwr Hmono Hf Hrt Hne Hok Hat Httl Hpos Hv Hexp.
  assert (Hlater : expires_at r < Date_now E (S (ticks w)) + ttl * 1000).
  { pose proof (Hmono (ticks w) (S (ticks w)) (Nat.le_succ_diag_r _)). lia. }
  unfold GoogleCalendar.serve_events, run, GoogleCalendar.guarded, GoogleCalendar.events,
    GoogleCalendar.getAccessToken.
  rewrite Hcfg, Hauth.
  unfold GoogleCalendar.oauth2_tokens, try_catch, bind, ret, throw, select_single, now,
    send, write, to_instant, GoogleCalendar.GOOGLE_CALENDAR.
  simpl. rewrite Hrd, Hf. simpl. rewrite Hrt.
  destruct refresh as [|c s]; [congruence|].
  apply Z.ltb_lt in Hexp. rewrite Hexp. simpl.
  rewrite Hok. simpl. rewrite Hat. simpl. rewrite Httl.
  assert (Hnum : Js.num_or (Some ttl) 3600 = ttl) by (destruct ttl; [lia|reflexivity..]).
  rewrite Hnum, Hv, Hwr. simpl.
  match goal with
  | |- context [GoogleCalendar.param_or_clock E ?v ?sh ?w0] =>
      destruct (google_calendar_param_frame E v sh w0) as (tmin & k1 & ->)
  end.
  match goal with
  | |- context [GoogleCalendar.param_or_clock E ?v ?sh ?w0] =>
      destruct (google_calendar_param_frame E v sh w0) as (tmax & k2 & ->)
  end.
  simpl.
  destruct (negb (Js.ok_status _)); unfold response_json, ret, throw;
    try destruct (JSON_parse _ _); simpl;
    (split;
     [eexists; rewrite <- app_assoc; reflexivity
     |now apply refreshed_row]).
Qed.

(** C1, as the code has it.  Take an authenticated [events] call whose
    lookup works, by a user whose enabled record holds a refresh token and
    has run out (in [google-auth]: expiry at or before the clock reading;
    in [google-calendar], with its five settings: expiry before it).  When
    the provider grants the refresh with an access token and a positive
    lifetime, the new expiry "next clock reading + lifetime" is a date, the
    table takes the write and the clock does not run backwards, the
    handler sends exactly one refresh request and then exactly one calendar
    request, which carries the fresh token; the record then holds the
    fresh token and the new expiry, which is later than the expiry it
    had. *)
Theorem C1_expired_token_refreshed_once :
  forall (E : Env) (req : Request) (w : World) (u refresh fresh : string)
         (r : Integration) (ttl : Z),
    GoogleCalendar.configured E = true ->
    getUser E (token req) = Some u ->
    db_read_error E = None ->
    db_write_error E = None ->
    monotone (Date_now E) ->
    filter (has_key_enabled u "google_calendar") (table w) = [r] ->
    refresh_token r = Some refresh ->
    refresh <> "" ->
    ok (token_refresh E refresh) = true ->
    td_access_token (token_refresh E refresh) = Some fresh ->
    expires_in (token_refresh E refresh) = Some ttl ->
    0 < ttl ->
    valid_time (Date_now E (S (ticks w)) + ttl * 1000) = true ->
    (expires_at r <= Date_now E (ticks w) ->
     refreshed_once u refresh fresh (Date_now E (S (ticks w)) + ttl * 1000) r
                    w (snd (GoogleAuth.serve_events E req w)))
    /\ (expires_at r < Date_now E (ticks w) ->
        refreshed_once u refresh fresh (Date_now E (S (ticks w)) + ttl * 1000) r
                       w (snd (GoogleCalendar.serve_events E req w))).
Proof.
  intros. split; intros Hdue.
  - now apply google_auth_refreshes.
  - now apply google_calendar_refreshes.
Qed.

Lemma C1_witness :
  refreshed_once "u1" "1//r" "ya29.new" (Fixtures.clock 1 + 3599 * 1000)
    (Fixtures.row 1699999999000 true) Fixtures.expired_world
    (snd (GoogleAuth.serve_events Fixtures.env Fixtures.plain_request
                                  Fixtures.expired_world))
  /\ refreshed_once "u1" "1//r" "ya29.new" (Fixtures.clock 1 + 3599 * 1000)
       (Fixtures.row 1699999999000 true) Fixtures.expired_world
       (snd (GoogleCalendar.serve_events Fixtures.env Fixtures.plain_request
                                         Fixtures.expired_world)).
Proof.
  assert (Hmono : monotone (Date_now Fixtures.env)).
  { intros i j Hij. change (Fixtures.clock i <= Fixtures.clock j).
    unfold Fixtures.clock. lia. }
  assert (Hne : "1//r" <> "") by discriminate.
  assert (Hpos : 0 < 3599) by lia.
  destruct (C1_expired_token_refreshed_once Fixtures.env Fixtures.plain_request
              Fixtures.expired_world "u1" "1//r" "ya29.new"
              (Fixtures.row 1699999999000 true) 3599
              eq_refl eq_refl eq_refl eq_refl Hmono eq_refl eq_refl Hne
              eq_refl eq_refl eq_refl Hpos eq_refl) as [HA HB].
  split; [apply HA|apply HB]; vm_compute; [discriminate|reflexivity].
Defined.

(** C1 as stated fails when the provider turns the refresh down: the
    record is enabled, holds a refresh token and has run out, one refresh
    request goes out, and then [google-auth] throws: no calendar request,
    nothing written, status 500.  It fails as well when the lifetime the
    provider reports puts the expiry outside the range of dates: the
    [RangeError] of [toISOString] ends the call in the same way. *)
Lemma C1_counterexample :
  filter (has_key_enabled "u1" "google_calendar") (table Fixtures.expired_world)
  = [Fixtures.row 1699999999000 true]
  /\ refresh_token (Fixtures.row 1699999999000 true) = Some "1//r"
  /\ expires_at (Fixtures.row 1699999999000 true)
     <= Date_now Fixtures.env_denied (ticks Fixtures.expired_world)
  /\ GoogleAuth.serve_events Fixtures.env_denied Fixtures.plain_request
                             Fixtures.expired_world
     = (mkResponse 500
          (JsonError "Failed to fetch events: Token refresh failed: {error: invalid_grant}"
                     None),
        mkWorld (table Fixtures.expired_world) 1 [TokenRefresh "1//r"])
  /\ GoogleAuth.serve_events Fixtures.env_eternal Fixtures.plain_request
                             Fixtures.expired_world
     = (mkResponse 500 (JsonError "Failed to fetch events: Invalid time value" None),
        mkWorld (table Fixtures.expired_world) 2 [TokenRefresh "1//r"])
  /\ GoogleCalendar.serve_events Fixtures.env_eternal Fixtures.plain_request
                                 Fixtures.expired_world
     = (mkResponse 500
          (JsonError "Failed to fetch events"
                     (Some "Failed to refresh token: Invalid time value")),
        mkWorld (table Fixtures.expired_world) 2 [TokenRefresh "1//r"]).
Proof.
  split; [reflexivity|]. split; [reflexivity|]. split; [vm_compute; discriminate|].
  split; [reflexivity|]. split; reflexivity.
Qed.

(** At the very instant of expiry the two functions part: [google-auth]
    refreshes ([>=]), [google-calendar] does not ([>]) and sends the
    calendar request with the token it has. *)
Example expiry_instant :
  map (fun o => match o with TokenRefresh _ => true | _ => false end)
      (trace (snd (GoogleAuth.serve_events Fixtures.env Fixtures.plain_request
                                           Fixtures.due_now_world)))
  = [true; false]
  /\ map (fun o => match o with TokenRefresh _ => true | _ => false end)
         (trace (snd (GoogleCalendar.serve_events Fixtures.env Fixtures.plain_request
                                                  Fixtures.due_now_world)))
     = [false].
Proof. split; reflexivity. Qed.

(** A lifetime of zero on a clock that stands still gives the expiry the
    record already had: the lifetime has to be positive for "later". *)
Example lifeless_refresh_not_later :
  map expires_at
      (table (snd (GoogleAuth.serve_events Fixtures.env_lifeless Fixtures.plain_request
                                           Fixtures.due_now_world)))
  = map expires_at (table Fixtures.due_now_world).
Proof. reflexivity. Qed.

End Refresh.

(** * Further properties of the code *)

(** ** The functions address of the hook *)

Section FunctionsUrl.

Import Hook.

Lemma append_not_empty s c t : s +++ String c t <> "".
Proof. destruct s; discriminate. Qed.

Lemma strip_slash_trailing s : strip_slash (s +++ "/") = s.
Proof.
  induction s as [|c s IH]; [reflexivity|].
  simpl. destruct (s +++ "/") eqn:Hs.
  - exfalso. exact (append_not_empty s _ _ Hs).
  - now rewrite IH.
Qed.

Lemma strip_slash_other s c :
  c <> "/"%char -> strip_slash (s +++ String c "") = s +++ String c "".
Proof.
  intros Hc. induction s as [|a s IH]; simpl.
  - destruct (Ascii.eqb_spec c "/"); [contradiction|reflexivity].
  - destruct (s +++ String c "") eqn:Hs.
    + exfalso. exact (append_not_empty s _ _ Hs).
    + now rewrite IH.
Qed.

(** [getFunctionsUrl] never gives the empty text, whatever the settings:
    the "missing functions URL" branch of every call of the hook cannot be
    taken. *)
Theorem getFunctionsUrl_never_empty :
  forall B : Browser, getFunctionsUrl B <> "".
Proof.
  intros B. unfold getFunctionsUrl.
  destruct (VITE_SUPABASE_FUNCTIONS_URL B) as [[|c s]|];
    destruct (VITE_SUPABASE_URL B) as [[|c' s']|];
    try discriminate; apply append_not_empty.
Qed.

(** Without a configured functions URL the address is derived from the
    base URL, and one trailing slash of the base makes no difference: a
    base [b] that does not end in a slash and the base [b/] both give
    [b/functions/v1]. *)
Theorem getFunctionsUrl_trailing_slash :
  forall (B B' : Browser) (prefix : string) (c : ascii),
    c <> "/"%char ->
    Js.truthy (VITE_SUPABASE_FUNCTIONS_URL B) = false ->
    Js.truthy (VITE_SUPABASE_FUNCTIONS_URL B') = false ->
    VITE_SUPABASE_URL B = Some (prefix +++ String c "") ->
    VITE_SUPABASE_URL B' = Some ((prefix +++ String c "") +++ "/") ->
    getFunctionsUrl B = (prefix +++ String c "") +++ "/functions/v1"
    /\ getFunctionsUrl B' = getFunctionsUrl B.
Proof.
  intros B B' prefix c Hc Hd Hd' Hb Hb'.
  assert (Hu : getFunctionsUrl B = (prefix +++ String c "") +++ "/functions/v1").
  { unfold getFunctionsUrl. rewrite Hb.
    destruct (VITE_SUPABASE_FUNCTIONS_URL B) as [[|a s]|]; try discriminate Hd;
      (destruct (prefix +++ String c "") eqn:Hp;
       [exfalso; exact (append_not_empty _ _ _ Hp)
       |rewrite <- Hp, strip_slash_other by exact Hc; reflexivity]). }
  split; [exact Hu|]. rewrite Hu.
  unfold getFunctionsUrl. rewrite Hb'.
  destruct (VITE_SUPABASE_FUNCTIONS_URL B') as [[|a s]|]; try discriminate Hd';
    (destruct ((prefix +++ String c "") +++ "/") eqn:Hp;
     [exfalso; exact (append_not_empty _ _ _ Hp)
     |rewrite <- Hp, strip_slash_trailing; reflexivity]).
Qed.

Lemma getFunctionsUrl_trailing_slash_witness :
  getFunctionsUrl Fixtures.browser = "https://project.supabase.co/functions/v1".
Proof.
  apply (getFunctionsUrl_trailing_slash Fixtures.browser_no_slash Fixtures.browser
           "https://project.supabase.c" "o"%char).
  - discriminate.
  - reflexivity.
  - reflexivity.
  - reflexivity.
  - reflexivity.
Defined.

End FunctionsUrl.

(** ** [checkConnection] *)

Section CheckConnection.

Import Events Hook Popup Observe.

Lemma requests_setState g w : requests (setState g w) = requests w.
Proof. reflexivity. Qed.

Lemma requests_emit_request m u p w :
  requests (emit (Request m u p) w) = requests w ++ [Request m u p].
Proof. unfold requests, emit; simpl. now rewrite filter_app. Qed.

Lemma requests_toast_unless silent text w :
  requests (toast_unless silent text w) = requests w.
Proof. destruct silent; [reflexivity|apply requests_emit_toast]. Qed.

Lemma toasts_emit_request m u p w : toasts (emit (Request m u p) w) = toasts w.
Proof. unfold toasts, emit; simpl. rewrite filter_app; simpl. apply app_nil_r. Qed.

(** Whatever happens in [checkConnection] (no session, a rejected or a
    refused request, a 404, an answer), the value it returns is the
    [isConnected] flag it leaves in the state, the spinner is off, the
    events list and the remote table are untouched, and at most one
    request has gone out. *)
Theorem checkConnection_result_is_state :
  forall (B : Browser) (silent : bool) (w : World),
    let r := checkConnection B silent w in
    isConnected (state (snd r)) = fst r
    /\ loading (state (snd r)) = false
    /\ events (state (snd r)) = events (state w)
    /\ remote (snd r) = remote w
    /\ (requests (snd r) = requests w
        \/ exists q, requests (snd r) = requests w ++ [q]).
Proof.
  intros B silent w r. subst r.
  unfold checkConnection, checkConnection_failed.
  destruct (getFunctionsUrl B) as [|c s]; [simpl; auto 6|].
  destruct (getSession B) as [session|]; [|simpl; auto 6].
  destruct (fetch B "GET" _) as [reason|code txt data];
    [|destruct (code =? 404); [|destruct (negb (Js.ok_status code))]];
    destruct silent; cbn; unfold requests; cbn;
    rewrite ?filter_app; cbn; rewrite ?app_nil_r; eauto 7.
Qed.

(** [checkConnection] returns true exactly when there is a session and the
    status request is answered with a 2xx status and [connected: true]. *)
Theorem checkConnection_true_iff :
  forall (B : Browser) (silent : bool) (w : World),
    fst (checkConnection B silent w) = true
    <-> exists session code txt,
          getSession B = Some session
          /\ fetch B "GET" (getFunctionsUrl B +++ "/google-calendar?action=status")
             = Answered code txt (JConnected true)
          /\ Js.ok_status code = true.
Proof.
  intros B silent w. pose proof (getFunctionsUrl_never_empty B) as Hne.
  unfold checkConnection, checkConnection_failed.
  destruct (getFunctionsUrl B) as [|c s]; [congruence|].
  destruct (getSession B) as [session|].
  - destruct (fetch B "GET" _) as [reason|code txt data] eqn:Hfetch.
    + simpl. split; [discriminate|]. intros (? & ? & ? & _ & H & _). discriminate H.
    + destruct (code =? 404) eqn:H404.
      * simpl. split; [discriminate|]. intros (? & ? & ? & _ & H & Hok).
        inversion H; subst. apply Z.eqb_eq in H404. subst. discriminate Hok.
      * destruct (Js.ok_status code) eqn:Hok; simpl.
        -- split.
           ++ intros Hc. exists session, code, txt. repeat split; auto.
              destruct data; simpl in Hc; try discriminate. now subst.
           ++ intros (? & ? & ? & _ & H & _). inversion H; subst. reflexivity.
        -- split; [discriminate|]. intros (? & ? & ? & _ & H & Hok').
           inversion H; subst. congruence.
  - simpl. split; [discriminate|]. intros (? & ? & ? & H & _). discriminate H.
Qed.

(** A silent check shows no toast, on any path. *)
Theorem checkConnection_silent_no_toast :
  forall (B : Browser) (w : World),
    toasts (snd (checkConnection B true w)) = toasts w.
Proof.
  intros B w. unfold checkConnection, checkConnection_failed, toast_unless.
  destruct (getFunctionsUrl B) as [|c s]; [reflexivity|].
  destruct (getSession B) as [session|]; [|reflexivity].
  destruct (fetch B "GET" _) as [reason|code txt data];
    [|destruct (code =? 404); [|destruct (negb (Js.ok_status code))]];
    cbn; unfold toasts; cbn; rewrite ?filter_app; cbn; rewrite ?app_nil_r;
    reflexivity.
Qed.

End CheckConnection.

(** ** The calendar calls of the hook *)

Section HookCalls.

Import Events Hook Popup Observe.

Ltac hook_cases B :=
  repeat match goal with
         | |- context [getFunctionsUrl B] => destruct (getFunctionsUrl B)
         | |- context [getSession B] => destruct (getSession B)
         | |- context [fetch B ?m ?u] => destruct (fetch B m u)
         | |- context [negb (Js.ok_status ?c)] => destruct (negb (Js.ok_status c))
         | j : Json |- _ => destruct j
         | o : option (list GoogleCalendarEvent) |- _ => destruct o
         end.


(** [createEvent] adds the event it returns at the end of the list, and
    nothing when it returns null. *)
Theorem createEvent_appends_result :
  forall (B : Browser) (eventData : string) (w : World),
    let r := createEvent B eventData w in
    events (state (snd r))
    = events (state w) ++ match fst r with Some e => [e] | None => [] end.
Proof.
  intros B eventData w r. subst r. unfold createEvent, call_failed, begin_call.
  destruct (isConnected (state w)); simpl; [|now rewrite app_nil_r].
  hook_cases B; simpl; rewrite ?app_nil_r; reflexivity.
Qed.

(** [updateEvent] never changes the number of events; the events with
    another id stay where they are; when it returns null the list is the
    one before, and when it returns an event every event with the given id
    has been replaced by it. *)
Theorem updateEvent_replaces_in_place :
  forall (B : Browser) (eventId eventData : string) (w : World) (i : nat),
    let r := updateEvent B eventId eventData w in
    List.length (events (state (snd r))) = List.length (events (state w))
    /\ nth_error (events (state (snd r))) i
       = match nth_error (events (state w)) i, fst r with
         | Some x, Some e => Some (if String.eqb (id x) eventId then e else x)
         | Some x, None => Some x
         | None, _ => None
         end.
Proof.
  intros B eventId eventData w i r. subst r. unfold updateEvent, call_failed, begin_call.
  assert (Hkeep : forall l : list GoogleCalendarEvent,
             nth_error l i = match nth_error l i with Some x => Some x | None => None end)
    by (intros l; destruct (nth_error l i); reflexivity).
  destruct (isConnected (state w)); simpl; [|auto].
  hook_cases B; simpl; auto.
  rewrite length_map, nth_error_map. split; [reflexivity|].
  destruct (nth_error (events (state w)) i); reflexivity.
Qed.

Lemma deleteEvent_success_events B eventId w :
  fst (deleteEvent B eventId w) = true ->
  events (state (snd (deleteEvent B eventId w)))
  = filter (fun e => negb (String.eqb (id e) eventId)) (events (state w)).
Proof.
  unfold deleteEvent, call_failed, begin_call.
  destruct (isConnected (state w)); simpl; [|discriminate].
  hook_cases B; simpl; try discriminate; reflexivity.
Qed.

(** When [deleteEvent] returns true no event with the given id is left
    and every other event is kept, in order. *)
Theorem deleteEvent_removes_id :
  forall (B : Browser) (eventId : string) (w : World),
    fst (deleteEvent B eventId w) = true ->
    events (state (snd (deleteEvent B eventId w)))
    = filter (fun e => negb (String.eqb (id e) eventId)) (events (state w))
    /\ Forall (fun e => id e <> eventId) (events (state (snd (deleteEvent B eventId w)))).
Proof.
  intros B eventId w. unfold deleteEvent, call_failed, begin_call.
  destruct (isConnected (state w)); simpl; [|discriminate].
  hook_cases B; simpl; try discriminate.
  all: intros _; split; [reflexivity|].
  all: apply Forall_forall; intros e He; apply filter_In in He; destruct He as [_ He].
  all: apply negb_true_iff, String.eqb_neq in He; exact He.
Qed.

Lemma deleteEvent_removes_id_witness :
  events (state (snd (deleteEvent Fixtures.browser_online "g2" Fixtures.connected_world)))
  = [].
Proof.
  apply (deleteEvent_removes_id Fixtures.browser_online "g2" Fixtures.connected_world).
  reflexivity.
Defined.

(** When [deleteEvent] returns false the list is the one before. *)
Theorem deleteEvent_failure_keeps_events :
  forall (B : Browser) (eventId : string) (w : World),
    fst (deleteEvent B eventId w) = false ->
    events (state (snd (deleteEvent B eventId w))) = events (state w).
Proof.
  intros B eventId w. unfold deleteEvent, call_failed, begin_call.
  destruct (isConnected (state w)); simpl; [|reflexivity].
  hook_cases B; simpl; try discriminate; reflexivity.
Qed.

Lemma deleteEvent_failure_keeps_events_witness :
  events (state (snd (deleteEvent Fixtures.browser "g2" Fixtures.connected_world)))
  = [Fixtures.holiday].
Proof.
  apply (deleteEvent_failure_keeps_events Fixtures.browser "g2" Fixtures.connected_world).
  reflexivity.
Defined.

Lemma filter_fresh_id (l : list GoogleCalendarEvent) (k : string) :
  ~ In k (map id l) ->
  filter (fun e => negb (String.eqb (id e) k)) l = l.
Proof.
  induction l as [|a l IH]; simpl; [reflexivity|]. intros Hn.
  destruct (String.eqb_spec (id a) k) as [Heq|Hneq]; simpl.
  - exfalso. apply Hn. now left.
  - f_equal. apply IH. intros Hin. apply Hn. now right.
Qed.

(** Creating an event whose id is new to the list and then deleting that
    id gives back the list there was. *)
Theorem create_then_delete_restores :
  forall (B : Browser) (eventData : string) (w : World) (e : GoogleCalendarEvent),
    fst (createEvent B eventData w) = Some e ->
    ~ In (id e) (map id (events (state w))) ->
    fst (deleteEvent B (id e) (snd (createEvent B eventData w))) = true ->
    events (state (snd (deleteEvent B (id e) (snd (createEvent B eventData w)))))
    = events (state w).
Proof.
  intros B eventData w e Hc Hfresh Hd.
  rewrite (deleteEvent_success_events B (id e) _ Hd).
  pose proof (createEvent_appends_result B eventData w) as Happ. simpl in Happ.
  rewrite Happ, Hc, filter_app. simpl.
  rewrite String.eqb_refl. simpl. rewrite app_nil_r.
  now apply filter_fresh_id.
Qed.

Lemma create_then_delete_restores_witness :
  events (state (snd (deleteEvent Fixtures.browser_online "g1"
                        (snd (createEvent Fixtures.browser_online "{}"
                                          Fixtures.connected_world)))))
  = [Fixtures.holiday].
Proof.
  apply (create_then_delete_restores Fixtures.browser_online "{}"
           Fixtures.connected_world Fixtures.standup).
  - reflexivity.
  - simpl. intros [H|[]]. discriminate H.
  - reflexivity.
Defined.

End HookCalls.

(** ** The popup flow *)

Section PopupFlow.

Import Events Hook Popup Observe.

(** [connect] registers all three watchers or none: it returns true
    exactly when the popup is open with the listener, the interval and the
    timer in place, and then the spinner stays on; when it returns false
    nothing is registered and the spinner is off.  It never changes the
    connection flag or the events. *)
Theorem connect_registers_all_or_nothing :
  forall (B : Browser) (w : World),
    let r := connect B w in
    listener_on (snd r) = fst r
    /\ interval_on (snd r) = fst r
    /\ timeout_on (snd r) = fst r
    /\ popup_closed (snd r) = negb (fst r)
    /\ loading (state (world (snd r))) = fst r
    /\ isConnected (state (world (snd r))) = isConnected (state w)
    /\ events (state (world (snd r))) = events (state w).
Proof.
  intros B w r. subst r. pose proof (getFunctionsUrl_never_empty B) as Hne.
  unfold connect, connect_failed, idle, begin_call.
  destruct (getFunctionsUrl B) as [|c s]; [congruence|].
  destruct (getSession B) as [session|]; [|simpl; auto 8].
  destruct (fetch B "GET" _) as [reason|code txt data]; [simpl; auto 8|].
  destruct (code =? 404); [simpl; auto 8|].
  destruct (negb (Js.ok_status code)); [simpl; auto 8|].
  destruct data as [| [[|a u]|] | | |]; try (simpl; auto 8).
  destruct (popup_blocked B); simpl; auto 8.
Qed.

(** A message that is not the text "google_calendar_connected" is not
    acted upon, whatever its origin: in particular the object
    [{type: 'GOOGLE_AUTH_SUCCESS'}] that the callback page of [google-auth]
    posts leaves the flow as it was. *)
Theorem other_message_ignored :
  forall (B : Browser) (f : Flow) (origin : string) (data : MessageData),
    data <> Text "google_calendar_connected" ->
    step B f (Message origin data) = f.
Proof.
  intros B f origin data Hd. unfold step, messageListener.
  destruct (listener_on f); [|reflexivity].
  destruct (negb (origin =? location_origin B)%string); [reflexivity|].
  destruct data as [s|t]; [|reflexivity].
  destruct (String.eqb_spec s "google_calendar_connected") as [->|_];
    [contradiction|reflexivity].
Qed.

Lemma other_message_ignored_witness :
  step Fixtures.browser Fixtures.started
       (Message "https://crm.example" (Object "GOOGLE_AUTH_SUCCESS"))
  = Fixtures.started.
Proof.
  apply (other_message_ignored Fixtures.browser Fixtures.started
           "https://crm.example" (Object "GOOGLE_AUTH_SUCCESS")).
  discriminate.
Defined.

Lemma status_checks_among_requests l :
  (List.length (filter is_status_check l) <= List.length (filter is_request l))%nat.
Proof.
  induction l as [|e l IH]; [reflexivity|].
  cbn [filter]. destruct e; try exact IH.
  cbn [is_request]. destruct (is_status_check _); cbn [List.length]; lia.
Qed.

(** What one [checkConnection] adds to the effects: at most one status
    request and no success toast. *)
Lemma checkConnection_adds B silent w :
  exists l,
    effects (snd (checkConnection B silent w)) = effects w ++ l
    /\ (List.length (filter is_status_check l) <= 1)%nat
    /\ filter is_success_toast l = [].
Proof.
  assert (H : exists l,
             effects (snd (checkConnection B silent w)) = effects w ++ l
             /\ (List.length (filter is_request l) <= 1)%nat
             /\ filter is_success_toast l = []).
  { unfold checkConnection, checkConnection_failed, toast_unless.
    destruct (getFunctionsUrl B) as [|c s];
      [exists []; simpl; rewrite app_nil_r; auto|].
    destruct (getSession B) as [session|];
      [|exists []; simpl; rewrite app_nil_r; auto].
    destruct (fetch B "GET" _) as [reason|code txt data];
      [|destruct (code =? 404); [|destruct (negb (Js.ok_status code))]];
      destruct silent; cbn [fst snd effects emit setState state remote];
      rewrite <- ?app_assoc; eexists; (split; [reflexivity|]);
      cbn [app filter is_request is_success_toast List.length]; auto. }
  destruct H as (l & H1 & H2 & H3). exists l. split; [exact H1|]. split; [|exact H3].
  pose proof (status_checks_among_requests l). lia.
Qed.

Lemma count_app (p : Effect -> bool) l1 l2 :
  List.length (filter p (l1 ++ l2))
  = (List.length (filter p l1) + List.length (filter p l2))%nat.
Proof. now rewrite filter_app, length_app. Qed.

(** One turn of the event loop, counted: what a callback adds to the
    status requests, and to the success toasts, it takes from the watchers
    still registered. *)
Ltac flat :=
  cbn [Popup.world Popup.listener_on Popup.interval_on Popup.timeout_on
       Popup.popup_closed Observe.bool_to_nat]; lia.

Lemma step_counts B f e :
  (status_checks (step B f e) + pending_checks (step B f e)
   <= status_checks f + pending_checks f)%nat
  /\ (success_toasts (step B f e) + pending_checks (step B f e)
      <= success_toasts f + pending_checks f)%nat.
Proof.
  unfold status_checks, success_toasts, pending_checks.
  destruct f as [w lo io to pc].
  destruct e as [origin data| | |]; unfold step;
    cbn [listener_on interval_on timeout_on popup_closed world].
  - destruct lo; [|flat].
    unfold messageListener.
    destruct (negb (origin =? location_origin B)%string); [flat|].
    destruct data as [s|t]; [|flat].
    destruct (s =? "google_calendar_connected")%string; [|flat].
    unfold close_popup. cbn [popup_closed world listener_on interval_on timeout_on].
    destruct pc; cbn [popup_closed world listener_on interval_on timeout_on];
      match goal with
      | |- context [checkConnection B false ?w0] =>
          destruct (checkConnection_adds B false w0) as (l & Hl' & Hs & Ht);
          destruct (checkConnection B false w0) as [c w1]
      end;
      cbn [fst snd effects emit] in Hl'; cbn [world listener_on interval_on];
      destruct c; unfold emit; cbn [effects]; rewrite Hl';
      rewrite ?count_app, ?Ht;
      cbn [filter List.length is_status_check is_success_toast bool_to_nat];
      try rewrite String.eqb_refl; cbn [List.length]; destruct io; cbn [bool_to_nat]; lia.
  - destruct io; [|flat].
    unfold checkStatusInterval. cbn [popup_closed world timeout_on].
    destruct pc; [|flat].
    match goal with
    | |- context [checkConnection B false ?w0] =>
        destruct (checkConnection_adds B false w0) as (l & Hl' & Hs & Ht);
        destruct (checkConnection B false w0) as [c w1]
    end.
    cbn [fst snd] in Hl'. cbn [world listener_on interval_on].
    destruct c; unfold emit, setState; cbn [effects]; rewrite Hl';
      rewrite ?count_app, ?Ht;
      cbn [filter List.length is_status_check is_success_toast bool_to_nat];
      try rewrite String.eqb_refl; cbn [List.length]; destruct lo; cbn [bool_to_nat]; lia.
  - destruct to; [|flat].
    unfold timeout, close_popup. cbn [popup_closed world listener_on interval_on timeout_on].
    destruct pc; cbn [popup_closed world listener_on interval_on timeout_on setState
                      effects emit bool_to_nat];
      rewrite ?count_app;
      cbn [filter List.length is_status_check is_success_toast]; lia.
  - flat.
Qed.

(** In one flow the status is re-checked at most twice and the success
    toast is shown at most twice, whatever events arrive and in whatever
    order: each registered watcher (the listener, the interval) can ask
    once. *)
Theorem flow_checks_at_most_once_per_watcher :
  forall (B : Browser) (es : list Event) (f : Flow),
    (status_checks (run_events B f es) <= status_checks f + pending_checks f)%nat
    /\ (success_toasts (run_events B f es) <= success_toasts f + pending_checks f)%nat
    /\ (pending_checks f <= 2)%nat.
Proof.
  intros B es.
  assert (H : forall f,
             (status_checks (run_events B f es) + pending_checks (run_events B f es)
              <= status_checks f + pending_checks f)%nat
             /\ (success_toasts (run_events B f es) + pending_checks (run_events B f es)
                 <= success_toasts f + pending_checks f)%nat).
  { induction es as [|e es IH]; intros f; [simpl; lia|].
    rewrite run_events_cons.
    destruct (IH (step B f e)) as [H1 H2]. destruct (step_counts B f e) as [H3 H4]. lia. }
  intros f. destruct (H f) as [H1 H2].
  split; [lia|]. split; [lia|].
  unfold pending_checks. destruct (listener_on f), (interval_on f); simpl; lia.
Qed.

Lemma quiet_step B f e :
  listener_on f = false -> interval_on f = false -> timeout_on f = false ->
  world (step B f e) = world f
  /\ listener_on (step B f e) = false /\ interval_on (step B f e) = false
  /\ timeout_on (step B f e) = false.
Proof.
  intros Hl Hi Ht. destruct e; unfold step; rewrite ?Hl, ?Hi, ?Ht; simpl; auto.
Qed.

(** Once the two-minute timer has run, the flow is over: the popup is
    closed, the spinner is off, and no later message, tick or closing of
    the window has any effect on the hook. *)
Theorem timeout_ends_flow :
  forall (B : Browser) (f : Flow) (es : list Event),
    world (run_events B (timeout f) es) = world (timeout f)
    /\ popup_closed (timeout f) = true
    /\ loading (state (world (timeout f))) = false
    /\ requests (world (timeout f)) = requests (world f).
Proof.
  intros B f es.
  assert (Hq : listener_on (timeout f) = false /\ interval_on (timeout f) = false
               /\ timeout_on (timeout f) = false).
  { unfold timeout, close_popup; simpl. destruct (popup_closed f); simpl; auto. }
  split.
  - destruct Hq as (Hl & Hi & Ht). revert Hl Hi Ht. generalize (timeout f) as g.
    induction es as [|e es IH]; intros g Hl Hi Ht; [reflexivity|].
    rewrite run_events_cons.
    destruct (quiet_step B g e Hl Hi Ht) as (Hw & Hl' & Hi' & Ht').
    rewrite (IH _ Hl' Hi' Ht'). exact Hw.
  - unfold timeout, close_popup; simpl.
    destruct (popup_closed f) eqn:Hp; simpl; rewrite ?Hp; repeat split;
      unfold requests; simpl; rewrite ?filter_app; simpl; rewrite ?app_nil_r; reflexivity.
Qed.

End PopupFlow.

(** ** The checks in front of the actions *)

Section Admission.

Import Store Proxy.

(** A request whose bearer token does not resolve to a user is answered
    401 by [status], [events] and [disconnect] of [google-auth] and by
    [status], [events] and [callback] of [google-calendar], and leaves the
    world as it was: no row read into a request, nothing written, nothing
    sent to the provider.  [google-calendar] asks this of its callback too,
    which the provider's redirect calls without a bearer token. *)
Theorem unauthenticated_request_rejected :
  forall (E : Env) (req : Request) (w : World),
    getUser E (token req) = None ->
    let no := (json 401 (JsonError "Unauthorized" None), w) in
    GoogleAuth.serve_status E req w = no
    /\ GoogleAuth.serve_events E req w = no
    /\ GoogleAuth.serve_disconnect E req w = no
    /\ (GoogleCalendar.configured E = true ->
        GoogleCalendar.serve_status E req w = no
        /\ GoogleCalendar.serve_events E req w = no
        /\ GoogleCalendar.serve_callback E req w = no).
Proof.
  intros E req w Hno no. subst no.
  unfold GoogleAuth.serve_status, GoogleAuth.serve_events, GoogleAuth.serve_disconnect,
    GoogleCalendar.serve_status, GoogleCalendar.serve_events,
    GoogleCalendar.serve_callback, run, GoogleAuth.authenticated, GoogleCalendar.guarded.
  rewrite Hno. split; [reflexivity|]. split; [reflexivity|]. split; [reflexivity|].
  intros ->. repeat split.
Qed.

Lemma unauthenticated_request_rejected_witness :
  GoogleAuth.serve_disconnect Fixtures.env Fixtures.anonymous_request Fixtures.valid_world
  = (json 401 (JsonError "Unauthorized" None), Fixtures.valid_world).
Proof.
  exact (proj1 (proj2 (proj2
           (unauthenticated_request_rejected Fixtures.env Fixtures.anonymous_request
              Fixtures.valid_world eq_refl)))).
Defined.

(** With one of its five settings missing or empty, [google-calendar]
    answers every action 500 "Server configuration error" before it looks
    at the bearer token, and leaves the world as it was. *)
Theorem unconfigured_google_calendar_refuses :
  forall (E : Env) (req : Request) (w : World),
    GoogleCalendar.configured E = false ->
    let no := (json 500 (JsonError "Server configuration error"
                                   (Some "Missing environment variables")), w) in
    GoogleCalendar.serve_status E req w = no
    /\ GoogleCalendar.serve_events E req w = no
    /\ GoogleCalendar.serve_callback E req w = no.
Proof.
  intros E req w Hno no. subst no.
  unfold GoogleCalendar.serve_status, GoogleCalendar.serve_events,
    GoogleCalendar.serve_callback, run, GoogleCalendar.guarded.
  rewrite Hno. repeat split.
Qed.

Lemma unconfigured_google_calendar_refuses_witness :
  GoogleCalendar.serve_events Fixtures.env_unconfigured Fixtures.plain_request
                              Fixtures.valid_world
  = (json 500 (JsonError "Server configuration error"
                         (Some "Missing environment variables")), Fixtures.valid_world).
Proof.
  exact (proj1 (proj2
           (unconfigured_google_calendar_refuses Fixtures.env_unconfigured
              Fixtures.plain_request Fixtures.valid_world eq_refl))).
Defined.

(** [status] only reads: in both functions, on every path, the world
    after it is the world before it. *)
Theorem status_is_read_only :
  forall (E : Env) (req : Request) (w : World),
    snd (GoogleAuth.serve_status E req w) = w
    /\ snd (GoogleCalendar.serve_status E req w) = w.
Proof.
  intros E req w.
  unfold GoogleAuth.serve_status, GoogleCalendar.serve_status, run,
    GoogleAuth.authenticated, GoogleCalendar.guarded, GoogleAuth.status,
    GoogleCalendar.status, try_catch, bind, ret, throw, select_single.
  split.
  - destruct (getUser E (token req)); [|reflexivity].
    destruct (db_read_error E); [reflexivity|].
    destruct (single _) as [d e]. reflexivity.
  - destruct (negb (GoogleCalendar.configured E)); [reflexivity|].
    destruct (getUser E (token req)); [|reflexivity]. simpl.
    destruct (db_read_error E) as [e|]; simpl.
    + destruct (negb (code e =? "PGRST116")%string); reflexivity.
    + destruct (single _) as [d [e|]]; simpl; [|reflexivity].
      destruct (negb (code e =? "PGRST116")%string); reflexivity.
Qed.

(** Disconnecting never reaches the provider: the [disconnect] action of
    [google-auth] sends it nothing (the grant is not revoked there), and
    the hook's [disconnect] sends no request to either function: the one
    call it makes is the update of the user's rows through the table
    client, and without a session it makes none. *)
Theorem disconnect_never_calls_provider :
  forall (E : Env) (req : Request) (w : World) (B : Hook.Browser) (hw : Hook.World),
    trace (snd (GoogleAuth.serve_disconnect E req w)) = trace w
    /\ Observe.calls (snd (Hook.disconnect B hw))
       = Observe.calls hw
         ++ match Hook.getSession B with
            | Some session => [Hook.TableUpdate (Hook.user_id session)]
            | None => []
            end.
Proof.
  intros E req w B hw. split.
  - unfold GoogleAuth.serve_disconnect, run, GoogleAuth.authenticated,
      GoogleAuth.disconnect, try_catch, bind, ret, throw, now, write.
    destruct (getUser E (token req)); [|reflexivity]. simpl.
    destruct (db_write_error E); reflexivity.
  - unfold Hook.disconnect, Hook.disconnect_failed.
    destruct (Hook.getSession B); [destruct (Hook.table_error B)|];
      cbn; unfold Observe.calls; cbn; rewrite ?filter_app; cbn;
      rewrite ?app_nil_r; reflexivity.
Qed.

End Admission.

(** ** How the steps of a handler compose *)

Section StepRules.

Import Store Proxy Frames.

Variable R : Table -> Table -> Prop.
Hypothesis R_refl : forall t, R t t.
Hypothesis R_trans : forall t1 t2 t3, R t1 t2 -> R t2 t3 -> R t1 t3.

Lemma steps_ret {A} (a : A) : Steps R (ret a).
Proof. intros w. apply R_refl. Qed.

Lemma steps_throw {A} msg : Steps R (@throw A msg).
Proof. intros w. apply R_refl. Qed.

Lemma steps_now E : Steps R (now E).
Proof. intros w. apply R_refl. Qed.

Lemma steps_send o : Steps R (send o).
Proof. intros w. apply R_refl. Qed.

Lemma steps_select E f : Steps R (select_single E f).
Proof. intros w. unfold select_single. destruct (db_read_error E); apply R_refl. Qed.

Lemma steps_to_instant ms : Steps R (to_instant ms).
Proof.
  intros w. unfold to_instant.
  destruct ms as [v|]; [destruct (valid_time v)|]; apply R_refl.
Qed.

Lemma steps_response_json E r : Steps R (response_json E r).
Proof. intros w. unfold response_json. destruct (JSON_parse E _); apply R_refl. Qed.

Lemma steps_write E change :
  (forall t, R t (change t)) -> Steps R (write E change).
Proof.
  intros H w. unfold write. destruct (db_write_error E); [apply R_refl|apply H].
Qed.

Lemma steps_bind {A B} (c : Handler A) (k : A -> Handler B) :
  Steps R c -> (forall a, Steps R (k a)) -> Steps R (bind c k).
Proof.
  intros Hc Hk w. unfold bind. specialize (Hc w).
  destruct (c w) as [[a|msg] w1]; cbn [snd] in *; [|exact Hc].
  eapply R_trans; [exact Hc|apply Hk].
Qed.

Lemma steps_try_catch {A} (c : Handler A) (h : string -> Handler A) :
  Steps R c -> (forall msg, Steps R (h msg)) -> Steps R (try_catch c h).
Proof.
  intros Hc Hh w. unfold try_catch. specialize (Hc w).
  destruct (c w) as [[a|msg] w1]; cbn [snd] in *; [exact Hc|].
  eapply R_trans; [exact Hc|apply Hh].
Qed.

Lemma steps_run (c : Handler Response) w :
  Steps R c -> R (table w) (table (snd (run c w))).
Proof.
  intros Hc. unfold run. specialize (Hc w). destruct (c w) as [[a|msg] w1]; exact Hc.
Qed.

Lemma steps_param_auth E v shift : Steps R (GoogleAuth.param_or_clock E v shift).
Proof.
  intros w. destruct (google_auth_param_frame E v shift w) as (s & k & ->). apply R_refl.
Qed.

Lemma steps_param_calendar E v shift : Steps R (GoogleCalendar.param_or_clock E v shift).
Proof.
  intros w. destruct (google_calendar_param_frame E v shift w) as (s & k & ->).
  apply R_refl.
Qed.

End StepRules.

Ltac steps Rr Rt :=
  repeat first
    [ exact Rr
    | exact Rt
    | apply steps_ret
    | apply steps_throw
    | apply steps_now
    | apply steps_send
    | apply steps_select
    | apply steps_to_instant
    | apply steps_response_json
    | apply steps_param_auth
    | apply steps_param_calendar
    | apply steps_try_catch
    | apply steps_bind
    | apply steps_write
    | match goal with
      | |- forall _, _ => intro
      | |- Frames.Steps _ (match ?x with _ => _ end) => destruct x
      | |- Frames.Steps _ (let _ := _ in _) => cbv zeta
      end ].

(** ** What the actions do to the table *)

Section TableEffects.

Import Store Proxy Frames.

Lemma same_but_token_refl r : same_but_token r r.
Proof. unfold same_but_token. repeat split. Qed.

Lemma same_but_token_trans r1 r2 r3 :
  same_but_token r1 r2 -> same_but_token r2 r3 -> same_but_token r1 r3.
Proof. unfold same_but_token. intuition congruence. Qed.

Lemma only_tokens_refl u t : only_tokens_of u t t.
Proof.
  unfold only_tokens_of. induction t; constructor; auto.
  split; [apply same_but_token_refl|reflexivity].
Qed.

Lemma only_tokens_trans u t1 t2 t3 :
  only_tokens_of u t1 t2 -> only_tokens_of u t2 t3 -> only_tokens_of u t1 t3.
Proof.
  unfold only_tokens_of. intros H12. revert t3.
  induction H12 as [|r1 r2 l1 l2 [Hs Hk] _ IH]; intros t3 H23;
    inversion H23 as [|? r3 ? l3 [Hs' Hk'] Hrest]; subst; constructor; auto.
  split; [eapply same_but_token_trans; eauto|].
  intros Hno. pose proof (Hk Hno) as H12'. subst r2. exact (Hk' Hno).
Qed.

Lemma token_patch_same p r :
  forallb token_column p = true -> same_but_token r (patch p r).
Proof.
  unfold patch. revert r. induction p as [|a p IH]; intros r Hp; simpl.
  - apply same_but_token_refl.
  - simpl in Hp. apply andb_true_iff in Hp. destruct Hp as [Ha Hp].
    eapply same_but_token_trans; [|apply IH; exact Hp].
    destruct a; try discriminate Ha; unfold same_but_token; simpl; repeat split.
Qed.

Lemma only_tokens_update u p t :
  forallb token_column p = true ->
  only_tokens_of u t (update (has_key u "google_calendar") p t).
Proof.
  intros Hp. unfold only_tokens_of, update. apply Forall2_map_r. intros r.
  destruct (has_key u "google_calendar" r).
  - split; [now apply token_patch_same|discriminate].
  - split; [apply same_but_token_refl|reflexivity].
Qed.

Lemma google_auth_events_steps E u req :
  Steps (only_tokens_of u) (GoogleAuth.events E u req).
Proof.
  unfold GoogleAuth.events.
  steps (only_tokens_refl u) (only_tokens_trans u).
  apply only_tokens_update. destruct (td_access_token _); reflexivity.
Qed.

Lemma oauth2_tokens_steps u td :
  Steps (only_tokens_of u) (GoogleCalendar.oauth2_tokens td).
Proof.
  unfold GoogleCalendar.oauth2_tokens.
  steps (only_tokens_refl u) (only_tokens_trans u).
Qed.

Lemma google_calendar_events_steps E u req :
  Steps (only_tokens_of u) (GoogleCalendar.events E u req).
Proof.
  unfold GoogleCalendar.events, GoogleCalendar.getAccessToken.
  steps (only_tokens_refl u) (only_tokens_trans u);
    try apply oauth2_tokens_steps.
  all: steps (only_tokens_refl u) (only_tokens_trans u).
  all: try (apply only_tokens_update; reflexivity).
Qed.

Lemma events_only_tokens E req w :
  let u := match getUser E (token req) with Some u => u | None => "" end in
  only_tokens_of u (table w) (table (snd (GoogleAuth.serve_events E req w)))
  /\ only_tokens_of u (table w) (table (snd (GoogleCalendar.serve_events E req w))).
Proof.
  intros u. subst u. split.
  - unfold GoogleAuth.serve_events. apply steps_run.
    unfold GoogleAuth.authenticated.
    destruct (getUser E (token req)) as [u|].
    + apply google_auth_events_steps.
    + apply steps_ret, only_tokens_refl.
  - unfold GoogleCalendar.serve_events. apply steps_run.
    unfold GoogleCalendar.guarded.
    destruct (negb (GoogleCalendar.configured E)); [apply steps_ret, only_tokens_refl|].
    destruct (getUser E (token req)) as [u|].
    + apply google_calendar_events_steps.
    + apply steps_ret, only_tokens_refl.
Qed.

(** [events] adds no row and removes none; it changes nothing but the
    access token, the expiry and [updated_at], and only in rows of the
    caller for "google_calendar": in particular it never enables or
    disables a record and never touches a refresh token.  Both functions,
    every path. *)
Theorem events_writes_only_caller_tokens :
  forall (E : Env) (req : Request) (w : World),
    let u := match getUser E (token req) with Some u => u | None => "" end in
    only_tokens_of u (table w) (table (snd (GoogleAuth.serve_events E req w)))
    /\ only_tokens_of u (table w) (table (snd (GoogleCalendar.serve_events E req w))).
Proof. intros E req w. apply events_only_tokens. Qed.


End TableEffects.

(** ** The unique constraint and the callback *)

Section Invariant.

Import Store Proxy Frames.

Lemma keeps_unique_refl t : keeps_unique t t.
Proof. intros H. exact H. Qed.

Lemma keeps_unique_trans t1 t2 t3 :
  keeps_unique t1 t2 -> keeps_unique t2 t3 -> keeps_unique t1 t3.
Proof. unfold keeps_unique. auto. Qed.

Lemma only_tokens_keys u t t' : only_tokens_of u t t' -> map key t' = map key t.
Proof.
  unfold only_tokens_of. induction 1 as [|r r' l l' [Hs _] _ IH]; simpl; [reflexivity|].
  unfold key at 1 3. destruct Hs as (-> & -> & _). now rewrite IH.
Qed.

Lemma same_but_flag_keys t t' :
  Forall2 Reading.same_but_flag t t' -> map key t' = map key t.
Proof.
  induction 1 as [|r r' l l' Hs _ IH]; simpl; [reflexivity|].
  unfold key at 1 3. destruct Hs as (-> & -> & _). now rewrite IH.
Qed.

Lemma google_auth_callback_steps E req :
  Steps keeps_unique (GoogleAuth.callback E req).
Proof.
  unfold GoogleAuth.callback.
  steps keeps_unique_refl keeps_unique_trans.
  all: intros Hu; apply upsert_spec; [exact Hu|]; intros r;
    destruct (td_access_token _), (td_refresh_token _), (td_token_type _); reflexivity.
Qed.

Lemma google_calendar_callback_steps E req :
  Steps keeps_unique (GoogleCalendar.callback E req).
Proof.
  unfold GoogleCalendar.callback, GoogleCalendar.oauth2_tokens.
  steps keeps_unique_refl keeps_unique_trans.
  all: intros Hu; apply upsert_spec; [exact Hu|]; intros r;
    destruct (td_refresh_token _); reflexivity.
Qed.

(** No action of either function breaks the unique constraint of the
    table: with at most one row per (user, provider) before a request,
    there is at most one after it, whatever the request, the settings and
    the answers of the provider. *)
Theorem actions_keep_unique_keys :
  forall (E : Env) (req : Request) (w : World),
    unique_keys (table w) ->
    unique_keys (table (snd (GoogleAuth.serve_callback E req w)))
    /\ unique_keys (table (snd (GoogleAuth.serve_status E req w)))
    /\ unique_keys (table (snd (GoogleAuth.serve_events E req w)))
    /\ unique_keys (table (snd (GoogleAuth.serve_disconnect E req w)))
    /\ unique_keys (table (snd (GoogleCalendar.serve_callback E req w)))
    /\ unique_keys (table (snd (GoogleCalendar.serve_status E req w)))
    /\ unique_keys (table (snd (GoogleCalendar.serve_events E req w))).
Proof.
  intros E req w Hu.
  destruct (status_is_read_only E req w) as [Hs1 Hs2].
  destruct (events_only_tokens E req w) as [He1 He2].
  apply only_tokens_keys in He1. apply only_tokens_keys in He2.
  repeat split.
  - apply (steps_run keeps_unique (GoogleAuth.callback E req) w
             (google_auth_callback_steps E req) Hu).
  - now rewrite Hs1.
  - unfold unique_keys. now rewrite He1.
  - unfold GoogleAuth.serve_disconnect.
    refine (steps_run keeps_unique _ w _ Hu).
    unfold GoogleAuth.authenticated, GoogleAuth.disconnect.
    steps keeps_unique_refl keeps_unique_trans.
    intros Hu'. unfold unique_keys.
    erewrite same_but_flag_keys; [exact Hu'|].
    eapply disabled_in_place_frame, disable_in_place.
  - unfold GoogleCalendar.serve_callback.
    refine (steps_run keeps_unique _ w _ Hu).
    unfold GoogleCalendar.guarded.
    steps keeps_unique_refl keeps_unique_trans.
    apply google_calendar_callback_steps.
  - now rewrite Hs2.
  - unfold unique_keys. now rewrite He2.
Qed.

Lemma actions_keep_unique_keys_witness :
  unique_keys (table (snd (GoogleCalendar.serve_callback Fixtures.env
                             Fixtures.callback_request Fixtures.valid_world))).
Proof.
  apply (actions_keep_unique_keys Fixtures.env Fixtures.callback_request
           Fixtures.valid_world).
  unfold unique_keys; simpl.
  constructor; [intros [H|[]]; discriminate H|].
  constructor; [intros []|constructor].
Defined.


End Invariant.

(** ** More on the [events] action *)

Section EventsMore.

Import Store Proxy Frames.

(** When the provider turns the refresh of a run-out token down, both
    functions stop there: one refresh request, no calendar request, no
    write to the table, status 500 with the provider's answer in the
    message. *)
Theorem refused_refresh_stops_events :
  forall (E : Env) (req : Request) (w : World) (u refresh : string) (r : Integration),
    GoogleCalendar.configured E = true ->
    getUser E (token req) = Some u ->
    db_read_error E = None ->
    filter (has_key_enabled u "google_calendar") (table w) = [r] ->
    refresh_token r = Some refresh ->
    refresh <> "" ->
    expires_at r < Date_now E (ticks w) ->
    ok (token_refresh E refresh) = false ->
    GoogleAuth.serve_events E req w
    = (json 500 (JsonError ("Failed to fetch events: Token refresh failed: "
                            +++ raw (token_refresh E refresh)) None),
       mkWorld (table w) (S (ticks w)) (trace w ++ [TokenRefresh refresh]))
    /\ GoogleCalendar.serve_events E req w
       = (json 500 (JsonError "Failed to fetch events"
                              (Some ("Failed to refresh token: "
                                     +++ raw (token_refresh E refresh)))),
          mkWorld (table w) (S (ticks w)) (trace w ++ [TokenRefresh refresh])).
Proof.
  intros E req w u refresh r Hcfg Hauth Hrd Hf Hrt Hne Hexp Hok.
  destruct refresh as [|c s]; [congruence|].
  assert (Hleb : (expires_at r <=? Date_now E (ticks w)) = true) by (apply Z.leb_le; lia).
  apply Z.ltb_lt in Hexp.
  unfold GoogleAuth.serve_events, GoogleCalendar.serve_events, run,
    GoogleAuth.authenticated, GoogleCalendar.guarded, GoogleAuth.events,
    GoogleCalendar.events, GoogleCalendar.getAccessToken.
  rewrite Hcfg, Hauth.
  unfold try_catch, bind, ret, throw, select_single, now, send,
    GoogleCalendar.oauth2_tokens, GoogleAuth.GOOGLE_CALENDAR,
    GoogleCalendar.GOOGLE_CALENDAR.
  simpl. rewrite Hrd, Hf. simpl. rewrite Hrt, Hleb, Hexp. simpl. rewrite Hok. simpl.
  split; reflexivity.
Qed.

Lemma refused_refresh_stops_events_witness :
  GoogleCalendar.serve_events Fixtures.env_denied Fixtures.plain_request
                              Fixtures.expired_world
  = (json 500 (JsonError "Failed to fetch events"
                         (Some "Failed to refresh token: {error: invalid_grant}")),
     mkWorld (table Fixtures.expired_world) 1 [TokenRefresh "1//r"]).
Proof.
  apply (refused_refresh_stops_events Fixtures.env_denied Fixtures.plain_request
           Fixtures.expired_world "u1" "1//r" (Fixtures.row 1699999999000 true)).
  - reflexivity.
  - reflexivity.
  - reflexivity.
  - reflexivity.
  - reflexivity.
  - discriminate.
  - vm_compute. reflexivity.
  - reflexivity.
Defined.

(** A record without a refresh token is never refreshed, however long ago
    it ran out: both functions send the one calendar request with the
    token the record holds and write nothing. *)
Theorem no_refresh_token_no_refresh :
  forall (E : Env) (req : Request) (w : World) (u : string) (r : Integration),
    GoogleCalendar.configured E = true ->
    getUser E (token req) = Some u ->
    db_read_error E = None ->
    filter (has_key_enabled u "google_calendar") (table w) = [r] ->
    Js.truthy (refresh_token r) = false ->
    (exists target,
        trace (snd (GoogleAuth.serve_events E req w))
        = trace w ++ [CalendarEvents target (access_token r)])
    /\ (exists target,
           trace (snd (GoogleCalendar.serve_events E req w))
           = trace w ++ [CalendarEvents target (access_token r)])
    /\ table (snd (GoogleAuth.serve_events E req w)) = table w
    /\ table (snd (GoogleCalendar.serve_events E req w)) = table w.
Proof.
  intros E req w u r Hcfg Hauth Hrd Hf Hno.
  unfold GoogleAuth.serve_events, GoogleCalendar.serve_events, run,
    GoogleAuth.authenticated, GoogleCalendar.guarded, GoogleAuth.events,
    GoogleCalendar.events, GoogleCalendar.getAccessToken.
  rewrite Hcfg, Hauth.
  unfold try_catch, bind, ret, throw, select_single, now, send,
    GoogleAuth.GOOGLE_CALENDAR, GoogleCalendar.GOOGLE_CALENDAR.
  simpl. rewrite Hrd, Hf. simpl.
  destruct (refresh_token r) as [[|c s]|]; try discriminate Hno; simpl.
  all: repeat match goal with
         | |- context [GoogleAuth.param_or_clock ?e ?v ?sh ?w0] =>
             destruct (google_auth_param_frame e v sh w0) as (? & ? & ->); simpl
         | |- context [GoogleCalendar.param_or_clock ?e ?v ?sh ?w0] =>
             destruct (google_calendar_param_frame e v sh w0) as (? & ? & ->); simpl
         end.
  all: repeat match goal with
         | |- context [negb (Js.ok_status ?c)] => destruct (negb (Js.ok_status c)); simpl
         end.
  all: unfold response_json, ret, throw.
  all: repeat match goal with
         | |- context [JSON_parse ?e ?t] => destruct (JSON_parse e t); simpl
         end.
  all: repeat split; try reflexivity; eexists; reflexivity.
Qed.

Lemma no_refresh_token_no_refresh_witness :
  table (snd (GoogleAuth.serve_events Fixtures.env Fixtures.plain_request
                                      Fixtures.no_refresh_world))
  = table Fixtures.no_refresh_world.
Proof.
  apply (no_refresh_token_no_refresh Fixtures.env Fixtures.plain_request
           Fixtures.no_refresh_world "u1" Fixtures.no_refresh_row).
  - reflexivity.
  - reflexivity.
  - reflexivity.
  - reflexivity.
  - reflexivity.
Defined.

(** The window of the calendar request of a caller whose token has not run
    out, in both functions: a bound the caller gives (and does not leave
    empty) is passed on as it is; a missing start is the clock reading, a
    missing end the clock reading thirty days on. *)
Theorem events_window_defaults :
  forall (E : Env) (req : Request) (w : World) (u : string) (r : Integration),
    GoogleCalendar.configured E = true ->
    getUser E (token req) = Some u ->
    db_read_error E = None ->
    filter (has_key_enabled u "google_calendar") (table w) = [r] ->
    Date_now E (ticks w) < expires_at r ->
    let given k := searchParams_get k (query req) in
    let tmin := match given "timeMin" with
                | Some (String c s) => String c s
                | _ => toISOString E (Date_now E (S (ticks w)) + 0)
                end in
    let k := match given "timeMin" with
             | Some (String _ _) => S (ticks w)
             | _ => S (S (ticks w))
             end in
    let tmax := match given "timeMax" with
                | Some (String c s) => String c s
                | _ => toISOString E (Date_now E k + 30 * 24 * 60 * 60 * 1000)
                end in
    trace (snd (GoogleAuth.serve_events E req w))
    = trace w ++ [CalendarEvents
                    (Built "https://www.googleapis.com/calendar/v3/calendars/primary/events"
                           [("timeMin", tmin); ("timeMax", tmax);
                            ("singleEvents", "true"); ("orderBy", "startTime")])
                    (access_token r)]
    /\ trace (snd (GoogleCalendar.serve_events E req w))
       = trace w ++ [CalendarEvents
                       (Interpolated
                          ("https://www.googleapis.com/calendar/v3"
                           +++ "/calendars/primary/events?timeMin=" +++ tmin
                           +++ "&timeMax=" +++ tmax +++ "&singleEvents=true"))
                       (access_token r)].
Proof.
  intros E req w u r Hcfg Hauth Hrd Hf Hvalid given tmin k tmax. split.
  - now apply (google_auth_events_request E req w u r).
  - apply (google_calendar_events_request E req w u r); auto. lia.
Qed.

Lemma events_window_defaults_witness :
  trace (snd (GoogleAuth.serve_events Fixtures.env Fixtures.plain_request
                                      Fixtures.valid_world))
  = [CalendarEvents
       (Built "https://www.googleapis.com/calendar/v3/calendars/primary/events"
              [("timeMin", "1700000000001"); ("timeMax", "1702592000002");
               ("singleEvents", "true"); ("orderBy", "startTime")])
       (Some "ya29.old")].
Proof.
  apply (events_window_defaults Fixtures.env Fixtures.plain_request
           Fixtures.valid_world "u1" (Fixtures.row 1800000000000 true)).
  - reflexivity.
  - reflexivity.
  - reflexivity.
  - reflexivity.
  - vm_compute. reflexivity.
Defined.



End EventsMore.

(** ** Connecting again *)

Section Reconnect.

Import Store Proxy Frames.

(** What a callback that answers 200 has written. *)
Lemma callback_success_table E req w U code :
  searchParams_get "state" (query req) = Some U ->
  searchParams_get "code" (query req) = Some code ->
  (status (fst (GoogleAuth.serve_callback E req w)) = 200 ->
   exists p, table (snd (GoogleAuth.serve_callback E req w))
             = upsert U "google_calendar" p (table w)
             /\ forall r, key (patch p r) = (U, "google_calendar")
                          /\ enabled (patch p r) = true
                          /\ created_at (patch p r) = Date_now E (S (ticks w)))
  /\ (status (fst (GoogleCalendar.serve_callback E req w)) = 200 ->
      exists p, table (snd (GoogleCalendar.serve_callback E req w))
                = upsert U "google_calendar" p (table w)
                /\ forall r, key (patch p r) = (U, "google_calendar")
                             /\ enabled (patch p r) = true
                             /\ created_at (patch p r) = Date_now E (S (ticks w))).
Proof.
  intros Hstate Hcode. split.
  - unfold GoogleAuth.serve_callback, run, GoogleAuth.callback.
    rewrite Hstate, Hcode.
    destruct (searchParams_get "error" (query req)) as [[|c0 s0]|];
      destruct code as [|c1 s1]; destruct U as [|c2 s2]; simpl;
      try (intros H; discriminate H).
    all: unfold try_catch, bind, ret, throw, send, now, write, to_instant; simpl.
    all: destruct (negb _); simpl; try (intros H; discriminate H).
    all: destruct (negb (ok _)); simpl; try (intros H; discriminate H).
    all: destruct (expires_in _); simpl; try (intros H; discriminate H).
    all: destruct (valid_time _); simpl; try (intros H; discriminate H).
    all: destruct (db_write_error E); simpl; try (intros H; discriminate H).
    all: intros _; eexists; split; [reflexivity|]; intros r;
      destruct (td_access_token _), (td_refresh_token _), (td_token_type _);
      repeat split.
  - unfold GoogleCalendar.serve_callback, run, GoogleCalendar.guarded,
      GoogleCalendar.callback.
    rewrite Hstate, Hcode.
    destruct (negb (GoogleCalendar.configured E)); simpl; [intros H; discriminate H|].
    destruct (getUser E (token req)); simpl; [|intros H; discriminate H].
    destruct code as [|c1 s1]; destruct U as [|c2 s2]; simpl;
      try (intros H; discriminate H).
    unfold try_catch, bind, ret, throw, send, now, write, to_instant,
      GoogleCalendar.oauth2_tokens; simpl.
    destruct (negb (ok _)); simpl; try (intros H; discriminate H).
    destruct (td_access_token _); simpl; try (intros H; discriminate H).
    destruct (valid_time _); simpl; try (intros H; discriminate H).
    destruct (db_write_error E); simpl; try (intros H; discriminate H).
    intros _; eexists; split; [reflexivity|]; intros r;
      destruct (td_refresh_token _); repeat split.
Qed.

Lemma upsert_existing u p t r0 :
  unique_keys t ->
  In r0 t -> key r0 = (u, "google_calendar") ->
  (forall r, key (patch p r) = (u, "google_calendar")) ->
  List.length (upsert u "google_calendar" p t) = List.length t
  /\ filter (has_key u "google_calendar") (upsert u "google_calendar" p t) = [patch p r0]
  /\ forall x, In x t -> key x <> (u, "google_calendar") ->
               In x (upsert u "google_calendar" p t).
Proof.
  intros Hu Hin Hk Hp.
  assert (Hk0 : has_key u "google_calendar" r0 = true) by now apply has_key_iff.
  assert (Hex : existsb (has_key u "google_calendar") t = true)
    by (apply existsb_exists; eauto).
  unfold upsert. rewrite Hex. split; [apply length_map|]. split.
  - apply (filter_unique (has_key u "google_calendar") u "google_calendar").
    + unfold unique_keys. now rewrite map_key_update.
    + intros x Hx. now apply has_key_iff.
    + unfold update. apply in_map_iff. exists r0. now rewrite Hk0.
    + apply has_key_iff, Hp.
  - intros x Hx Hne. unfold update. apply in_map_iff. exists x. split; [|exact Hx].
    destruct (has_key u "google_calendar" x) eqn:Hkx; [|reflexivity].
    apply has_key_iff in Hkx. contradiction.
Qed.

(** Connecting again after a disconnect (or at any time a row of the user
    exists) adds no row: the successful callback lays its payload over the
    row there is, which is enabled again and whose [created_at] is set anew
    to the time of the callback; the rows of other users stay. *)
Theorem reconnect_reuses_row :
  forall (E : Env) (req : Request) (w : World) (U code : string) (r0 : Integration),
    unique_keys (table w) ->
    In r0 (table w) ->
    key r0 = (U, "google_calendar") ->
    searchParams_get "state" (query req) = Some U ->
    searchParams_get "code" (query req) = Some code ->
    (status (fst (GoogleAuth.serve_callback E req w)) = 200 ->
     let t' := table (snd (GoogleAuth.serve_callback E req w)) in
     List.length t' = List.length (table w)
     /\ (exists r, filter (has_key U "google_calendar") t' = [r]
                   /\ enabled r = true
                   /\ created_at r = Date_now E (S (ticks w)))
     /\ (forall x, In x (table w) -> key x <> (U, "google_calendar") -> In x t'))
    /\ (status (fst (GoogleCalendar.serve_callback E req w)) = 200 ->
        let t' := table (snd (GoogleCalendar.serve_callback E req w)) in
        List.length t' = List.length (table w)
        /\ (exists r, filter (has_key U "google_calendar") t' = [r]
                      /\ enabled r = true
                      /\ created_at r = Date_now E (S (ticks w)))
        /\ (forall x, In x (table w) -> key x <> (U, "google_calendar") -> In x t')).
Proof.
  intros E req w U code r0 Hu Hin Hk Hstate Hcode.
  destruct (callback_success_table E req w U code Hstate Hcode) as [HA HB].
  split; intros Hok; [destruct (HA Hok) as (p & -> & Hp)|destruct (HB Hok) as (p & -> & Hp)];
    cbv zeta;
    (destruct (upsert_existing U p (table w) r0 Hu Hin Hk (fun r => proj1 (Hp r)))
      as (Hlen & Hf & Hothers);
     split; [exact Hlen|]; split; [|exact Hothers];
     exists (patch p r0); split; [exact Hf|]; split; apply Hp).
Qed.

Lemma reconnect_reuses_row_witness :
  List.length (table (snd (GoogleAuth.serve_callback Fixtures.env Fixtures.callback_request
                                                     Fixtures.disabled_world)))
  = List.length (table Fixtures.disabled_world).
Proof.
  assert (Hu : unique_keys (table Fixtures.disabled_world)).
  { unfold unique_keys; simpl. constructor; [intros []|constructor]. }
  assert (Hok : status (fst (GoogleAuth.serve_callback Fixtures.env
                               Fixtures.callback_request Fixtures.disabled_world)) = 200)
    by (vm_compute; reflexivity).
  destruct (reconnect_reuses_row Fixtures.env Fixtures.callback_request
              Fixtures.disabled_world "u1" "4/0Ab" (Fixtures.row 1800000000000 false)
              Hu (or_introl eq_refl) eq_refl eq_refl eq_refl) as [HA _].
  exact (proj1 (HA Hok)).
Defined.

End Reconnect.

(** ** The local events hook *)

Section LocalEventsFacts.

Import Events LocalEvents.

Lemma filter_idem {A} (f : A -> bool) l : filter f (filter f l) = filter f l.
Proof.
  induction l as [|a l IH]; simpl; [reflexivity|].
  destruct (f a) eqn:Hf; simpl; rewrite ?Hf, IH; reflexivity.
Qed.

Lemma patch_keeps_id p r : ev_id (patch p r) = ev_id r.
Proof.
  unfold patch. revert r. induction p as [|c p IH]; intros r; simpl; [reflexivity|].
  rewrite IH. destruct c; reflexivity.
Qed.

Lemma patch_keeps_allDay p r :
  forallb (fun c => negb (is_allDay c)) p = true ->
  ev_allDay (patch p r) = ev_allDay r.
Proof.
  unfold patch. revert r. induction p as [|c p IH]; intros r Hp; simpl; [reflexivity|].
  simpl in Hp. apply andb_true_iff in Hp. destruct Hp as [Hc Hp].
  rewrite IH by exact Hp. destruct c; try reflexivity. discriminate Hc.
Qed.

Lemma forallb_filter {A} (f : A -> bool) l : forallb f (filter f l) = true.
Proof.
  induction l as [|a l IH]; simpl; [reflexivity|].
  destruct (f a) eqn:Hf; simpl; rewrite ?Hf; auto.
Qed.

Lemma updated_rows_allDay k p (t : list CalendarEvent) :
  forallb (fun c => negb (is_allDay c)) p = true ->
  map ev_allDay (map (fun r => if has_id k r then patch p r else r) t) = map ev_allDay t.
Proof.
  intros Hp. rewrite map_map. apply map_ext. intros r.
  destruct (has_id k r); [now apply patch_keeps_allDay|reflexivity].
Qed.

(** [updateEvent] deletes the [allDay] key from the payload before it
    sends it: a payload with an [allDay] entry does exactly what the
    payload without it does, and no call of [updateEvent] changes the
    all-day flag of any row of the table. *)
Theorem updateEvent_never_writes_allDay :
  forall (db : Db) (k : string) (p : list Column) (w : World),
    updateEvent db k p w
    = updateEvent db k (filter (fun c => negb (is_allDay c)) p) w
    /\ map ev_allDay (rows (snd (updateEvent db k p w))) = map ev_allDay (rows w).
Proof.
  intros db k p w. split.
  - unfold updateEvent. now rewrite filter_idem.
  - unfold updateEvent, toast.
    pose proof (forallb_filter (fun c => negb (is_allDay c)) p) as Hp.
    destruct (fault db); [reflexivity|].
    destruct (filter _ p) as [|c q] eqn:Hq.
    + destruct (empty_update_answers db); [|reflexivity].
      destruct (filter (has_id k) _) as [|a [|b l]]; cbn [snd rows];
        now apply updated_rows_allDay.
    + destruct (empty_update_answers db);
        destruct (filter (has_id k) _) as [|a [|b l]]; cbn [snd rows];
        now apply updated_rows_allDay.
Qed.

Lemma map_untouched k (g : CalendarEvent -> CalendarEvent) (t : list CalendarEvent) :
  (forall r, In r t -> ev_id r <> k) ->
  map (fun r => if has_id k r then g r else r) t = t.
Proof.
  intros Hno. induction t as [|a t IH]; simpl; [reflexivity|].
  unfold has_id at 1. destruct (String.eqb_spec (ev_id a) k) as [Heq|_].
  - exfalso. apply (Hno a); [now left|exact Heq].
  - f_equal. apply IH. intros r Hr. apply Hno. now right.
Qed.

Lemma filter_no_id k (t : list CalendarEvent) :
  (forall r, In r t -> ev_id r <> k) -> filter (has_id k) t = [].
Proof.
  intros Hno. apply filter_none. intros r Hr. unfold has_id.
  apply String.eqb_neq. now apply Hno.
Qed.

(** Updating an id the table does not hold changes nothing: the hook
    returns null, shows the error toast, and the list and the table are
    the ones before. *)
Theorem updateEvent_unknown_id :
  forall (db : Db) (k : string) (p : list Column) (w : World),
    (forall r, In r (rows w) -> ev_id r <> k) ->
    updateEvent db k p w
    = (None, toast Hook.ToastError "Failed to update event" w).
Proof.
  intros db k p w Hno. unfold updateEvent.
  destruct (fault db); [reflexivity|].
  rewrite (map_untouched k _ (rows w) Hno), (filter_no_id k (rows w) Hno).
  destruct w as [ev rw ts]; simpl.
  destruct (filter _ p); destruct (empty_update_answers db); reflexivity.
Qed.

Lemma updateEvent_unknown_id_witness :
  updateEvent Samples.local_db "c404" Samples.rename Samples.local_world
  = (None, toast Hook.ToastError "Failed to update event" Samples.local_world).
Proof.
  apply (updateEvent_unknown_id Samples.local_db "c404" Samples.rename
           Samples.local_world).
  simpl. intros r [<-|[]]. discriminate.
Defined.

(** When the table client reports an error, none of the three writes
    changes the list shown or the table: [addEvent] and [updateEvent]
    return null, [deleteEvent] returns false, each with one error toast. *)
Theorem failed_write_changes_nothing :
  forall (db : Db) (d : Draft) (k : string) (p : list Column) (w : World)
         (reason : string),
    fault db = Some reason ->
    addEvent db d w = (None, toast Hook.ToastError "Failed to create event" w)
    /\ updateEvent db k p w = (None, toast Hook.ToastError "Failed to update event" w)
    /\ deleteEvent db k w = (false, toast Hook.ToastError "Failed to delete event" w).
Proof.
  intros db d k p w reason Hf. unfold addEvent, updateEvent, deleteEvent.
  rewrite Hf. repeat split.
Qed.

Lemma failed_write_changes_nothing_witness :
  deleteEvent Samples.broken_db "c1" Samples.local_world
  = (false, toast Hook.ToastError "Failed to delete event" Samples.local_world).
Proof.
  apply (failed_write_changes_nothing Samples.broken_db Samples.lunch "c1"
           Samples.rename Samples.local_world "permission denied").
  reflexivity.
Defined.

Lemma filter_keeps_all k (l : list CalendarEvent) :
  ~ In k (map ev_id l) -> filter (fun e => negb (has_id k e)) l = l.
Proof.
  induction l as [|a l IH]; simpl; [reflexivity|]. intros Hn.
  unfold has_id at 1. destruct (String.eqb_spec (ev_id a) k) as [Heq|_]; simpl.
  - exfalso. apply Hn. now left.
  - f_equal. apply IH. intros Hin. apply Hn. now right.
Qed.

(** Adding an event and then deleting the id the table gave it restores
    the list shown and the table, when that id was not in use. *)
Theorem add_then_delete_restores :
  forall (db : Db) (d : Draft) (w : World),
    fault db = None ->
    ~ In (new_id db (rows w)) (map ev_id (rows w)) ->
    ~ In (new_id db (rows w)) (map ev_id (events w)) ->
    let w2 := snd (deleteEvent db (new_id db (rows w)) (snd (addEvent db d w))) in
    events w2 = events w /\ rows w2 = rows w.
Proof.
  intros db d w Hf Hr He. unfold addEvent, deleteEvent, toast. rewrite Hf. simpl.
  rewrite !filter_app. simpl. unfold has_id at 2 4. simpl. rewrite String.eqb_refl. simpl.
  rewrite !app_nil_r. split; now apply filter_keeps_all.
Qed.

Lemma add_then_delete_restores_witness :
  events (snd (deleteEvent Samples.local_db "c9"
                 (snd (addEvent Samples.local_db Samples.lunch Samples.local_world))))
  = events Samples.local_world.
Proof.
  apply (add_then_delete_restores Samples.local_db Samples.lunch Samples.local_world).
  - reflexivity.
  - simpl. intros [H|[]]. discriminate H.
  - simpl. intros [H|[]]. discriminate H.
Defined.

Lemma as_row_of_row r : ev_contact r = None -> as_row r = r.
Proof. destruct r; simpl; intros ->; reflexivity. Qed.

Lemma patch_keeps_contact p r : ev_contact (patch p r) = ev_contact r.
Proof.
  unfold patch. revert r. induction p as [|c p IH]; intros r; simpl; [reflexivity|].
  rewrite IH. destruct c; reflexivity.
Qed.

Lemma updated_rows_ids k p (t : list CalendarEvent) :
  map ev_id (map (fun r => if has_id k r then patch p r else r) t) = map ev_id t.
Proof.
  rewrite map_map. apply map_ext. intros r.
  destruct (has_id k r); [apply patch_keeps_id|reflexivity].
Qed.

Lemma filter_one_id k (t : list CalendarEvent) r :
  NoDup (map ev_id t) -> In r t -> ev_id r = k -> filter (has_id k) t = [r].
Proof.
  induction t as [|a t IH]; simpl; intros Hnd Hin Hk; [contradiction|].
  inversion Hnd as [|? ? Hnotin Hnd']; subst.
  unfold has_id at 1. destruct Hin as [->|Hin].
  - rewrite String.eqb_refl. f_equal. apply filter_no_id.
    intros x Hx Hxk. apply Hnotin. rewrite <- Hxk. now apply in_map.
  - destruct (String.eqb_spec (ev_id a) (ev_id r)) as [Heq|_].
    + exfalso. apply Hnotin. rewrite Heq. now apply in_map.
    + now apply IH.
Qed.

Lemma in_updated_other k (g : CalendarEvent -> CalendarEvent) t x :
  In x t -> has_id k x = false ->
  In x (map (fun r => if has_id k r then g r else r) t).
Proof.
  intros Hin Hk. apply in_map_iff. exists x. now rewrite Hk.
Qed.

(** The three writes keep the list in step with the table: when the ids
    of the table are unique and every event shown is a row of the table,
    the same holds after [addEvent], [updateEvent] and [deleteEvent],
    whether they succeed or fail. *)
Theorem writes_keep_list_in_step :
  forall (db : Db) (d : Draft) (k : string) (p : list Column) (w : World),
    unique_ids w ->
    mirrors w ->
    mirrors (snd (addEvent db d w))
    /\ mirrors (snd (updateEvent db k p w))
    /\ mirrors (snd (deleteEvent db k w)).
Proof.
  intros db d k p w Hu [Hrows Hev]. split; [|split].
  - unfold addEvent, toast. destruct (fault db); [split; assumption|].
    split; cbn [snd rows events].
    + apply Forall_app. split; [exact Hrows|]. repeat constructor.
    + apply Forall_app. split.
      * eapply Forall_impl; [|exact Hev]. intros e He. apply in_or_app. now left.
      * repeat constructor. apply in_or_app. right. now left.
  - unfold updateEvent, toast. destruct (fault db); [split; assumption|].
    set (q := filter (fun c => negb (is_allDay c)) p).
    set (rows' := map (fun r => if has_id k r then patch q r else r) (rows w)).
    assert (Hrows' : Forall (fun r => ev_contact r = None) rows').
    { subst rows'. apply Forall_forall. intros x Hx. apply in_map_iff in Hx.
      destruct Hx as (r & <- & Hr). rewrite Forall_forall in Hrows.
      destruct (has_id k r); [rewrite patch_keeps_contact|]; now apply Hrows. }
    assert (Hu' : NoDup (map ev_id rows')).
    { subst rows'. now rewrite updated_rows_ids. }
    assert (Hmain :
      match filter (has_id k) rows' with
      | [data] => mirrors (mkWorld (map (fun e => if has_id k e then data else e) (events w))
                                   rows' (toasts w ++ [(Hook.ToastSuccess,
                                                        "Event updated successfully")]))
      | _ => mirrors (mkWorld (events w) rows'
                              (toasts w ++ [(Hook.ToastError, "Failed to update event")]))
      end).
    { destruct (filter (has_id k) rows') as [|data [|b l]] eqn:Hfil.
      - split; [exact Hrows'|]. cbn [events rows].
        apply Forall_forall. intros e He. rewrite Forall_forall in Hev.
        destruct (has_id k (as_row e)) eqn:Hk.
        + exfalso. apply String.eqb_eq in Hk.
          assert (Hin : In (patch q (as_row e)) rows').
          { subst rows'. apply in_map_iff. exists (as_row e). unfold has_id.
            rewrite Hk, String.eqb_refl. split; [reflexivity|now apply Hev]. }
          rewrite (filter_one_id k rows' _ Hu' Hin) in Hfil; [discriminate|].
          now rewrite patch_keeps_id.
        + subst rows'. apply in_updated_other; [now apply Hev|exact Hk].
      - assert (Hd : In data rows' /\ has_id k data = true).
        { apply filter_In. rewrite Hfil. now left. }
        destruct Hd as [Hdin Hdk].
        split; [exact Hrows'|]. cbn [events rows].
        apply Forall_forall. intros e' He'. apply in_map_iff in He'.
        destruct He' as (e & <- & He). rewrite Forall_forall in Hev.
        destruct (has_id k e) eqn:Hk.
        + rewrite as_row_of_row; [exact Hdin|].
          rewrite Forall_forall in Hrows'. now apply Hrows'.
        + subst rows'. apply in_updated_other; [now apply Hev|exact Hk].
      - split; [exact Hrows'|]. cbn [events rows].
        apply Forall_forall. intros e He. rewrite Forall_forall in Hev.
        destruct (has_id k (as_row e)) eqn:Hk.
        + exfalso. apply String.eqb_eq in Hk.
          assert (Hin : In (patch q (as_row e)) rows').
          { subst rows'. apply in_map_iff. exists (as_row e). unfold has_id.
            rewrite Hk, String.eqb_refl. split; [reflexivity|now apply Hev]. }
          rewrite (filter_one_id k rows' _ Hu' Hin) in Hfil; [discriminate|].
          now rewrite patch_keeps_id.
        + subst rows'. apply in_updated_other; [now apply Hev|exact Hk]. }
    destruct q as [|c q'] eqn:Hq.
    + destruct (empty_update_answers db); [|split; assumption].
      destruct (filter (has_id k) rows') as [|data [|b l]]; exact Hmain.
    + destruct (empty_update_answers db);
        destruct (filter (has_id k) rows') as [|data [|b l]]; exact Hmain.
  - unfold deleteEvent, toast. destruct (fault db); [split; assumption|].
    split; cbn [snd rows events].
    + apply Forall_forall. intros r Hr. apply filter_In in Hr.
      rewrite Forall_forall in Hrows. now apply Hrows.
    + apply Forall_forall. intros e He. apply filter_In in He. destruct He as [He Hk].
      rewrite Forall_forall in Hev. apply filter_In. split; [now apply Hev|exact Hk].
Qed.

Lemma writes_keep_list_in_step_witness :
  mirrors (snd (updateEvent Samples.local_db "c1" Samples.rename Samples.local_world)).
Proof.
  apply (writes_keep_list_in_step Samples.local_db Samples.lunch "c1" Samples.rename
           Samples.local_world).
  - unfold unique_ids; simpl. constructor; [intros []|constructor].
  - split; simpl; repeat constructor.
Defined.

End LocalEventsFacts.

(** ** The handlers of the calendar page *)

Section PageHandlers.

Import Events CalendarView.

Lemma find_by_unique_id {A} (key : A -> string) (l : list A) (x : A) :
  NoDup (map key l) -> In x l ->
  find (fun e => String.eqb (key e) (key x)) l = Some x.
Proof.
  induction l as [|a l IH]; simpl; intros Hnd Hin; [contradiction|].
  inversion Hnd as [|? ? Hnotin Hnd']; subst.
  destruct Hin as [->|Hin]; [now rewrite String.eqb_refl|].
  destruct (String.eqb_spec (key a) (key x)) as [Heq|_]; [|now apply IH].
  exfalso. apply Hnotin. rewrite Heq. now apply in_map.
Qed.

(** Formatting and clicking go together: a click on the formatted form of
    a provider event opens that very event as a provider event, a click on
    the formatted form of a local event opens that very event as a local
    one.  The choice is made on the source tag, so a local event and a
    provider event that share an id are not taken for each other. *)
Theorem click_opens_the_formatted_event :
  forall (crm : list CalendarEvent) (google : list GoogleCalendarEvent)
         (v : View) (g : GoogleCalendarEvent) (c : CalendarEvent),
    NoDup (map id google) ->
    NoDup (map ev_id crm) ->
    In g google ->
    In c crm ->
    handleEventClick (Hook.format g) crm google v
    = mkView None (Some g) true true (isFormModalOpen v)
    /\ handleEventClick (LocalHook.format c) crm google v
       = mkView (Some c) None false true (isFormModalOpen v).
Proof.
  intros crm google v g c Hg Hc Hin Hcin. unfold handleEventClick. split.
  - cbn [Hook.format in_extendedProps in_id source_of].
    change (find (fun e => (id e =? id g)%string) google) with
      (find (fun e => String.eqb (id e) (id g)) google).
    now rewrite (find_by_unique_id id google g Hg Hin).
  - cbn [LocalHook.format in_extendedProps in_id source_of].
    now rewrite (find_by_unique_id ev_id crm c Hc Hcin).
Qed.

Lemma click_opens_the_formatted_event_witness :
  handleEventClick (Hook.format Fixtures.standup) [Samples.twin; Fixtures.demo]
                   [Fixtures.standup; Fixtures.holiday] Samples.nothing_selected
  = mkView None (Some Fixtures.standup) true true false.
Proof.
  apply (click_opens_the_formatted_event [Samples.twin; Fixtures.demo]
           [Fixtures.standup; Fixtures.holiday] Samples.nothing_selected
           Fixtures.standup Fixtures.demo).
  - simpl. constructor; [intros [H|[]]; discriminate H|].
    constructor; [intros []|constructor].
  - simpl. constructor; [intros [H|[]]; discriminate H|].
    constructor; [intros []|constructor].
  - simpl. left. reflexivity.
  - simpl. right. left. reflexivity.
Defined.

(** A click on a provider event that is no longer in the hook's list (the
    list is emptied on disconnect) leaves the selection as it was; it does
    not fall back to a local event of the same id. *)
Theorem click_on_vanished_provider_event :
  forall (crm : list CalendarEvent) (v : View) (g : GoogleCalendarEvent),
    handleEventClick (Hook.format g) crm [] v = v.
Proof. intros crm v g. reflexivity. Qed.

Lemma updateEvent_rows_allDay db k p w :
  map ev_allDay (LocalEvents.rows (snd (LocalEvents.updateEvent db k p w)))
  = map ev_allDay (LocalEvents.rows w).
Proof.
  unfold LocalEvents.updateEvent, LocalEvents.toast.
  pose proof (forallb_filter (fun c => negb (LocalEvents.is_allDay c)) p) as Hp.
  destruct (LocalEvents.fault db); [reflexivity|].
  destruct (filter _ p) as [|c q] eqn:Hq.
  - destruct (LocalEvents.empty_update_answers db); [|reflexivity].
    destruct (filter (LocalEvents.has_id k) _) as [|a [|b l]];
      cbn [snd LocalEvents.rows]; now apply updated_rows_allDay.
  - destruct (LocalEvents.empty_update_answers db);
      destruct (filter (LocalEvents.has_id k) _) as [|a [|b l]];
      cbn [snd LocalEvents.rows]; now apply updated_rows_allDay.
Qed.

(** Saving the form for an event that exists never changes the all-day
    flag of any row, whatever the form says: the form's [allDay] goes into
    the payload and [updateEvent] takes it out again.  The form is closed
    afterwards. *)
Theorem form_edit_never_changes_allDay :
  forall (db : LocalEvents.Db) (d : LocalEvents.Draft) (v : View)
         (w : LocalEvents.World) (k : string),
    selected_id v = Some k ->
    map ev_allDay (LocalEvents.rows (snd (handleFormSubmit db d v w)))
    = map ev_allDay (LocalEvents.rows w)
    /\ isFormModalOpen (fst (handleFormSubmit db d v w)) = false.
Proof.
  intros db d v w k Hsel. unfold handleFormSubmit. rewrite Hsel. cbn [fst snd].
  split; [apply updateEvent_rows_allDay|reflexivity].
Qed.

Lemma form_edit_never_changes_allDay_witness :
  map ev_allDay (LocalEvents.rows
                   (snd (handleFormSubmit Samples.local_db Samples.lunch
                                          Samples.demo_selected Samples.local_world)))
  = [false].
Proof.
  apply (form_edit_never_changes_allDay Samples.local_db Samples.lunch
           Samples.demo_selected Samples.local_world "c1").
  reflexivity.
Defined.

(** The delete button of the page acts on the local selection only: with
    a provider event open (as a click on one leaves the page) it changes
    neither the table nor the list nor the view. *)
Theorem delete_ignores_provider_event :
  forall (db : LocalEvents.Db) (crm : list CalendarEvent)
         (google : list GoogleCalendarEvent) (v : View) (w : LocalEvents.World)
         (g : GoogleCalendarEvent),
    In g google ->
    handleDeleteEvent db (handleEventClick (Hook.format g) crm google v) w
    = (handleEventClick (Hook.format g) crm google v, w).
Proof.
  intros db crm google v w g Hin. unfold handleEventClick.
  cbn [Hook.format in_extendedProps in_id source_of].
  destruct (find _ google) as [found|] eqn:Hfind; [reflexivity|].
  exfalso. apply (find_none _ _ Hfind) in Hin. now rewrite String.eqb_refl in Hin.
Qed.

Lemma delete_ignores_provider_event_witness :
  snd (handleDeleteEvent Samples.local_db
         (handleEventClick (Hook.format Fixtures.standup) [Samples.twin]
                           [Fixtures.standup] Samples.demo_selected)
         Samples.local_world)
  = Samples.local_world.
Proof.
  exact (f_equal snd
           (delete_ignores_provider_event Samples.local_db [Samples.twin]
              [Fixtures.standup] Samples.demo_selected Samples.local_world
              Fixtures.standup (or_introl eq_refl))).
Defined.

End PageHandlers.

(** ** The [create], [update] and [delete] actions *)

Section Mutations.

Import Store Proxy Frames CalendarMutations.



(** An incomplete request is never passed on: a [create] whose event data
    lacks the summary, the start or the end, an [update] without event id
    and a [delete] without event id send nothing to the provider. *)
Theorem incomplete_mutation_not_sent :
  forall (E : Env) (provider : Mutation -> HttpResponse) (req : Request)
         (data : EventData) (body : UpdateBody) (w : World),
    Js.truthy (summary data) && has_start data && has_end data = false ->
    Js.truthy (eventId body) = false ->
    Js.truthy (searchParams_get "eventId" (query req)) = false ->
    sent (serve_create E provider req (Some data) w) = []
    /\ sent (serve_update E provider req (Some body) w) = []
    /\ sent (serve_delete E provider req w) = [].
Proof.
  intros E provider req data body w Hd Hb Hq.
  unfold serve_create, serve_update, serve_delete, guarded, create, update, delete, relay,
    sent.
  destruct (negb (GoogleCalendar.configured E)); [repeat split|].
  destruct (getUser E (token req)) as [u|]; [|repeat split].
  destruct (GoogleCalendar.getAccessToken E u w) as [[tok|msg] w']; [|repeat split].
  split; [|split].
  - destruct (Js.truthy (summary data)), (has_start data), (has_end data);
      try discriminate Hd; reflexivity.
  - destruct (eventId body) as [[|c s]|]; try discriminate Hb; reflexivity.
  - destruct (searchParams_get "eventId" (query req)) as [[|c s]|];
      try discriminate Hq; reflexivity.
Qed.

Lemma incomplete_mutation_not_sent_witness :
  sent (serve_create Fixtures.env Samples.not_found Fixtures.plain_request
                     (Some Samples.untitled) Fixtures.valid_world) = [].
Proof.
  apply (incomplete_mutation_not_sent Fixtures.env Samples.not_found
           Fixtures.plain_request Samples.untitled (mkUpdateBody None None)
           Fixtures.valid_world).
  - reflexivity.
  - reflexivity.
  - reflexivity.
Defined.

Lemma getAccessToken_steps E u :
  Steps (only_tokens_of u) (GoogleCalendar.getAccessToken E u).
Proof.
  unfold GoogleCalendar.getAccessToken.
  steps (only_tokens_refl u) (only_tokens_trans u);
    try apply oauth2_tokens_steps.
  all: steps (only_tokens_refl u) (only_tokens_trans u).
  all: try (apply only_tokens_update; reflexivity).
Qed.

(** The three actions write to the table only what the token refresh
    writes: no row is added or removed, and nothing changes but the access
    token, the expiry and [updated_at] of rows of the caller. *)
Theorem mutations_write_only_caller_tokens :
  forall (E : Env) (provider : Mutation -> HttpResponse) (req : Request)
         (data : option EventData) (body : option UpdateBody) (w : World),
    let u := match getUser E (token req) with Some u => u | None => "" end in
    only_tokens_of u (table w) (table (world_after (serve_create E provider req data w)))
    /\ only_tokens_of u (table w) (table (world_after (serve_update E provider req body w)))
    /\ only_tokens_of u (table w) (table (world_after (serve_delete E provider req w))).
Proof.
  intros E provider req data body w u. subst u.
  unfold serve_create, serve_update, serve_delete, guarded, create, update, delete, relay,
    world_after.
  destruct (negb (GoogleCalendar.configured E));
    [repeat split; apply only_tokens_refl|].
  destruct (getUser E (token req)) as [u|]; [|repeat split; apply only_tokens_refl].
  pose proof (getAccessToken_steps E u w) as Hs.
  destruct (GoogleCalendar.getAccessToken E u w) as [[tok|msg] w']; cbn [snd fst] in *;
    [|repeat split; exact Hs].
  split; [|split].
  - destruct data as [d|]; [|exact Hs].
    destruct (negb _ || _); [exact Hs|].
    destruct (negb (Js.ok_status _)); [exact Hs|].
    destruct (passed_on _ _); exact Hs.
  - destruct body as [b|]; [|exact Hs].
    destruct (eventId b) as [[|c s]|]; try exact Hs.
    destruct (negb (Js.ok_status _)); [exact Hs|].
    destruct (passed_on _ _); exact Hs.
  - destruct (searchParams_get "eventId" (query req)) as [[|c s]|]; try exact Hs.
    destruct (negb (Js.ok_status _)); exact Hs.
Qed.

Lemma getAccessToken_not_connected E u w :
  (forall r, In r (table w) -> has_key_enabled u "google_calendar" r = false) ->
  GoogleCalendar.getAccessToken E u w = (Raised "Google Calendar not connected", w).
Proof.
  intros Hnone. unfold GoogleCalendar.getAccessToken, bind, select_single, throw,
    GoogleCalendar.GOOGLE_CALENDAR.
  destruct (db_read_error E); [reflexivity|].
  now rewrite (filter_none _ _ Hnone).
Qed.

(** Without an enabled record of the caller the three actions answer 500
    with "Google Calendar not connected" in the details, send nothing to
    the provider and leave the world as it was, whatever the body. *)
Theorem mutation_needs_connection :
  forall (E : Env) (provider : Mutation -> HttpResponse) (req : Request)
         (data : option EventData) (body : option UpdateBody) (w : World) (u : string),
    GoogleCalendar.configured E = true ->
    getUser E (token req) = Some u ->
    (forall r, In r (table w) -> has_key_enabled u "google_calendar" r = false) ->
    serve_create E provider req data w
    = (json 500 (JsonError "Failed to create event" (Some "Google Calendar not connected")),
       w, [])
    /\ serve_update E provider req body w
       = (json 500 (JsonError "Failed to update event"
                              (Some "Google Calendar not connected")), w, [])
    /\ serve_delete E provider req w
       = (json 500 (JsonError "Failed to delete event"
                              (Some "Google Calendar not connected")), w, []).
Proof.
  intros E provider req data body w u Hcfg Hauth Hnone.
  unfold serve_create, serve_update, serve_delete, guarded, create, update, delete.
  rewrite Hcfg, Hauth. cbn [negb].
  rewrite (getAccessToken_not_connected E u w Hnone). repeat split.
Qed.

Lemma mutation_needs_connection_witness :
  serve_delete Fixtures.env Samples.not_found Fixtures.plain_request
               Fixtures.disabled_world
  = (json 500 (JsonError "Failed to delete event" (Some "Google Calendar not connected")),
     Fixtures.disabled_world, []).
Proof.
  apply (mutation_needs_connection Fixtures.env Samples.not_found Fixtures.plain_request
           None None Fixtures.disabled_world "u1").
  - reflexivity.
  - reflexivity.
  - simpl. intros r [<-|[]]. reflexivity.
Defined.

End Mutations.
